(** * Easy Minutes: the document store (storage.js)

    A shallow embedding of the storage adapter of Easy Minutes and the
    properties of its specification.

    The store keeps one JSON document (settings, attendees, meetings,
    draft) in memory and writes it, whole, to one file of a folder the
    user has picked.  Two revisions of the adapter are embedded:

    - [Storage]: the multi-file revision ([connectFolder] picks a folder,
      [openFile] binds a named file, resets the document and validates what
      it reads);
    - [DbJson]: the single-file revision (src/storage.js: [connectFolder]
      binds db.json and loads it over the document in memory).

    A third revision keeps the data in IndexedDB; the specification is
    about the document file, and of that revision only the name of the
    database is embedded ([Idb]).

    Conventions of the model:
    - JavaScript values are restricted to JSON data: null, booleans,
      numbers, strings, arrays and objects.  [undefined] only arises as
      the result of reading an absent property and is an [option].
    - Numbers are integers ([Z]); a safe integer is one of magnitude at
      most 2^53 - 1.  Fractions and exponents are outside the model.
    - Strings are sequences of 8-bit code units (Latin-1).
    - Objects are association lists in property order.
    - [async] functions are run to completion, one at a time; a rejected
      promise is a [Throw].
    - The platform accepts every file name: [getFileHandle] does not
      reject.  What is said of a bind is said of a bind that returns.
    - Where JavaScript's behaviour is outside the model (a number with a
      fraction, comparing two objects by reference, coercing a string to a
      number) the outcome is [Unmodelled], and no theorem speaks about it. *)

From Stdlib Require Import ZArith List String Ascii Bool Lia Permutation Sorted.
From stdpp Require Import base option list strings gmap.

Import ListNotations.
Local Open Scope Z_scope.
Local Open Scope list_scope.

(* ================================================================== *)
(** * JSON values *)
(* ================================================================== *)

Module Json.

Unset Elimination Schemes.
Inductive value : Type :=
  | JNull
  | JBool (b : bool)
  | JNum (n : Z)
  | JStr (s : string)
  | JArr (l : list value)
  | JObj (o : list (string * value)).
Set Elimination Schemes.

(** The file's text: a sequence of code units. *)
Abbreviation text := (list ascii).

Definition lit (s : string) : text := list_ascii_of_string s.

(** ** Property access on objects *)

(** [o[k]] for an own property; [None] is [undefined]. *)
Fixpoint obj_get (k : string) (o : list (string * value)) : option value :=
  match o with
  | [] => None
  | (k', v) :: o' => if String.eqb k k' then Some v else obj_get k o'
  end.

(** [k in o] *)
Definition obj_has (k : string) (o : list (string * value)) : bool :=
  match obj_get k o with Some _ => true | None => false end.

(** [o[k] = v]: an existing property keeps its place, a new one goes last. *)
Fixpoint obj_set (k : string) (v : value) (o : list (string * value))
  : list (string * value) :=
  match o with
  | [] => [(k, v)]
  | (k', v') :: o' =>
      if String.eqb k k' then (k', v) :: o' else (k', v') :: obj_set k v o'
  end.

(** Copying a list of properties onto an object, in order. *)
Definition obj_assign (o : list (string * value)) (ps : list (string * value))
  : list (string * value) :=
  fold_left (fun acc kv => obj_set (fst kv) (snd kv) acc) ps o.

(** ** Decimal numerals *)

Definition digit_char (d : Z) : ascii := ascii_of_N (Z.to_N (48 + d)).

Definition is_digit (c : ascii) : bool :=
  let n := Z.of_N (N_of_ascii c) in (48 <=? n) && (n <=? 57).

Definition digit_val (c : ascii) : Z := Z.of_N (N_of_ascii c) - 48.

(** The digits of [n >= 0], most significant first, in front of [acc]. *)
Fixpoint digits_fuel (fuel : nat) (n : Z) (acc : text) : text :=
  match fuel with
  | O => acc
  | S fuel' =>
      let acc' := digit_char (n mod 10) :: acc in
      if n <? 10 then acc' else digits_fuel fuel' (n / 10) acc'
  end.

Definition print_nat (n : Z) : text := digits_fuel (S (Z.to_nat n)) n [].

(** Number::toString for an integer. *)
Definition print_Z (n : Z) : text :=
  if n <? 0 then "-"%char :: print_nat (- n) else print_nat n.

Definition index_key (i : nat) : string :=
  string_of_list_ascii (print_nat (Z.of_nat i)).

(** ** Own enumerable properties, as the spread [{...v}] copies them *)

Fixpoint indexed {A : Type} (f : nat -> A -> string * value) (i : nat) (l : list A)
  : list (string * value) :=
  match l with
  | [] => []
  | x :: l' => f i x :: indexed f (S i) l'
  end.

Definition own_entries (v : value) : list (string * value) :=
  match v with
  | JObj o => o
  | JArr l => indexed (fun i x => (index_key i, x)) 0 l
  | JStr s =>
      indexed (fun i c => (index_key i, JStr (String c EmptyString))) 0
              (list_ascii_of_string s)
  | JNull | JBool _ | JNum _ => []
  end.

(** ** Coercions *)

(** ToBoolean *)
Definition truthy (v : value) : bool :=
  match v with
  | JNull => false
  | JBool b => b
  | JNum n => negb (n =? 0)
  | JStr s => negb (String.eqb s "")
  | JArr _ | JObj _ => true
  end.

Definition truthy_opt (v : option value) : bool :=
  match v with Some x => truthy x | None => false end.

(** [typeof v === 'object'] *)
Definition typeof_object (v : value) : bool :=
  match v with
  | JNull | JArr _ | JObj _ => true
  | JBool _ | JNum _ | JStr _ => false
  end.

Definition isArray (v : value) : bool :=
  match v with JArr _ => true | _ => false end.

Definition isArray_opt (v : option value) : bool :=
  match v with Some x => isArray x | None => false end.

(** ** JSON.stringify(v, null, 2) *)

Definition hex_char (d : N) : ascii :=
  if (d <? 10)%N then ascii_of_N (48 + d) else ascii_of_N (87 + d).

Definition dquote : ascii := ascii_of_N 34.
Definition newline : ascii := ascii_of_N 10.

(** QuoteJSONString, one code unit. *)
Definition quote_char (c : ascii) : text :=
  let n := N_of_ascii c in
  if (n =? 8)%N then lit "\b"
  else if (n =? 9)%N then lit "\t"
  else if (n =? 10)%N then lit "\n"
  else if (n =? 12)%N then lit "\f"
  else if (n =? 13)%N then lit "\r"
  else if (n =? 34)%N then ["\"%char; dquote]
  else if (n =? 92)%N then lit "\\"
  else if (n <? 32)%N then lit "\u00" ++ [hex_char (n / 16); hex_char (n mod 16)]
  else [c].

Fixpoint quote_chars (s : string) : text :=
  match s with
  | EmptyString => []
  | String c s' => quote_char c ++ quote_chars s'
  end.

Definition quote (s : string) : text := dquote :: quote_chars s ++ [dquote].

(** A line break followed by the indentation of depth [ind]. *)
Definition nl (ind : nat) : text := newline :: repeat " "%char ind.

Fixpoint print (ind : nat) (v : value) {struct v} : text :=
  match v with
  | JNull => lit "null"
  | JBool true => lit "true"
  | JBool false => lit "false"
  | JNum n => print_Z n
  | JStr s => quote s
  | JArr l =>
      match l with
      | [] => lit "[]"
      | x :: xs =>
          lit "[" ++ nl (ind + 2) ++ print (ind + 2) x ++
          (fix more (ys : list value) : text :=
             match ys with
             | [] => nl ind ++ lit "]"
             | y :: ys' => lit "," ++ nl (ind + 2) ++ print (ind + 2) y ++ more ys'
             end) xs
      end
  | JObj o =>
      match o with
      | [] => lit "{}"
      | (k, x) :: xs =>
          lit "{" ++ nl (ind + 2) ++ quote k ++ lit ": " ++ print (ind + 2) x ++
          (fix more (ys : list (string * value)) : text :=
             match ys with
             | [] => nl ind ++ lit "}"
             | (k', y) :: ys' =>
                 lit "," ++ nl (ind + 2) ++ quote k' ++ lit ": " ++
                 print (ind + 2) y ++ more ys'
             end) xs
      end
  end.

Definition stringify (v : value) : text := print 0 v.

(** ** JSON.parse *)

Inductive presult (A : Type) : Type :=
  | POk (a : A)
  | PSyntaxError
  | PUnmodelled
  | POutOfFuel.
Arguments POk {A} a.
Arguments PSyntaxError {A}.
Arguments PUnmodelled {A}.
Arguments POutOfFuel {A}.

Definition pmap {A B : Type} (f : A -> B) (r : presult (A * text))
  : presult (B * text) :=
  match r with
  | POk (a, t) => POk (f a, t)
  | PSyntaxError => PSyntaxError
  | PUnmodelled => PUnmodelled
  | POutOfFuel => POutOfFuel
  end.

(** JSON white space: space, tab, line feed, carriage return. *)
Definition is_json_ws (c : ascii) : bool :=
  let n := N_of_ascii c in
  (n =? 32)%N || (n =? 9)%N || (n =? 10)%N || (n =? 13)%N.

Fixpoint skip_ws (t : text) : text :=
  match t with
  | c :: r => if is_json_ws c then skip_ws r else t
  | [] => []
  end.

Fixpoint strip_prefix (p t : text) : option text :=
  match p, t with
  | [], _ => Some t
  | a :: p', b :: t' => if (a =? b)%char then strip_prefix p' t' else None
  | _ :: _, [] => None
  end.

Definition literal (rest : string) (v : value) (t : text) : presult (value * text) :=
  match strip_prefix (lit rest) t with
  | Some r => POk (v, r)
  | None => PSyntaxError
  end.

Fixpoint scan_digits (acc : Z) (t : text) : Z * text :=
  match t with
  | c :: r => if is_digit c then scan_digits (acc * 10 + digit_val c) r else (acc, t)
  | [] => (acc, [])
  end.

(** Number.MAX_SAFE_INTEGER *)
Definition max_safe : Z := 9007199254740991.

Definition safe_int (n : Z) : bool := (- max_safe <=? n) && (n <=? max_safe).

Definition starts_fraction (t : text) : bool :=
  match t with
  | c :: _ => (c =? ".")%char || (c =? "e")%char || (c =? "E")%char
  | [] => false
  end.

(** What follows the integer part: a fraction or an exponent is outside
    the model, and so is an integer that is not safe. *)
Definition number_tail (neg : bool) (n : Z) (r : text) : presult (value * text) :=
  if starts_fraction r then PUnmodelled
  else if n <=? max_safe then POk (JNum (if neg then - n else n), r)
  else PUnmodelled.

(** The integer part: a single 0, or a non-zero digit and more digits. *)
Definition parse_unsigned (neg : bool) (t : text) : presult (value * text) :=
  match t with
  | c :: r =>
      if (c =? "0")%char then number_tail neg 0 r
      else if is_digit c then
        let (n, r') := scan_digits (digit_val c) r in number_tail neg n r'
      else PSyntaxError
  | [] => PSyntaxError
  end.

Definition hex_val (c : ascii) : option N :=
  let n := N_of_ascii c in
  if (48 <=? n)%N && (n <=? 57)%N then Some (n - 48)%N
  else if (97 <=? n)%N && (n <=? 102)%N then Some (n - 87)%N
  else if (65 <=? n)%N && (n <=? 70)%N then Some (n - 55)%N
  else None.

Definition hex4 (a b c d : ascii) : option N :=
  match hex_val a, hex_val b, hex_val c, hex_val d with
  | Some x, Some y, Some z, Some w => Some (((x * 16 + y) * 16 + z) * 16 + w)%N
  | _, _, _, _ => None
  end.

(** The character a one-letter escape stands for. *)
Definition unescape (e : ascii) : option ascii :=
  if (e =? dquote)%char then Some dquote
  else if (e =? "\")%char then Some "\"%char
  else if (e =? "/")%char then Some "/"%char
  else if (e =? "b")%char then Some (ascii_of_N 8)
  else if (e =? "f")%char then Some (ascii_of_N 12)
  else if (e =? "n")%char then Some (ascii_of_N 10)
  else if (e =? "r")%char then Some (ascii_of_N 13)
  else if (e =? "t")%char then Some (ascii_of_N 9)
  else None.

Definition cons_char (c : ascii) (r : presult (string * text))
  : presult (string * text) := pmap (String c) r.

(** The characters of a string literal, after its opening quote. *)
Fixpoint parse_chars (t : text) : presult (string * text) :=
  match t with
  | [] => PSyntaxError
  | c :: r =>
      if (c =? dquote)%char then POk (EmptyString, r)
      else if (c =? "\")%char then
        match r with
        | [] => PSyntaxError
        | e :: r1 =>
            if (e =? "u")%char then
              match r1 with
              | h1 :: h2 :: h3 :: h4 :: r2 =>
                  match hex4 h1 h2 h3 h4 with
                  | None => PSyntaxError
                  | Some n =>
                      if (n <? 256)%N then cons_char (ascii_of_N n) (parse_chars r2)
                      else PUnmodelled
                  end
              | _ => PSyntaxError
              end
            else
              match unescape e with
              | Some c' => cons_char c' (parse_chars r1)
              | None => PSyntaxError
              end
        end
      else if (N_of_ascii c <? 32)%N then PSyntaxError
      else cons_char c (parse_chars r)
  end.

Fixpoint parse_value (fuel : nat) (t : text) {struct fuel} : presult (value * text) :=
  match fuel with
  | O => POutOfFuel
  | S fuel' =>
      match skip_ws t with
      | [] => PSyntaxError
      | c :: r =>
          if (c =? "n")%char then literal "ull" JNull r
          else if (c =? "t")%char then literal "rue" (JBool true) r
          else if (c =? "f")%char then literal "alse" (JBool false) r
          else if (c =? dquote)%char then pmap JStr (parse_chars r)
          else if (c =? "-")%char then parse_unsigned true r
          else if is_digit c then parse_unsigned false (c :: r)
          else if (c =? "[")%char then
            match skip_ws r with
            | [] => PSyntaxError
            | c' :: r' =>
                if (c' =? "]")%char then POk (JArr [], r')
                else pmap JArr (parse_elems fuel' r)
            end
          else if (c =? "{")%char then
            match skip_ws r with
            | [] => PSyntaxError
            | c' :: r' =>
                if (c' =? "}")%char then POk (JObj [], r')
                else pmap (fun ps => JObj (obj_assign [] ps)) (parse_members fuel' r)
            end
          else PSyntaxError
      end
  end

with parse_elems (fuel : nat) (t : text) {struct fuel} : presult (list value * text) :=
  match fuel with
  | O => POutOfFuel
  | S fuel' =>
      match parse_value fuel' t with
      | POk (v, r) =>
          match skip_ws r with
          | [] => PSyntaxError
          | c :: r' =>
              if (c =? ",")%char then pmap (cons v) (parse_elems fuel' r')
              else if (c =? "]")%char then POk ([v], r')
              else PSyntaxError
          end
      | PSyntaxError => PSyntaxError
      | PUnmodelled => PUnmodelled
      | POutOfFuel => POutOfFuel
      end
  end

with parse_members (fuel : nat) (t : text) {struct fuel}
  : presult (list (string * value) * text) :=
  match fuel with
  | O => POutOfFuel
  | S fuel' =>
      match skip_ws t with
      | [] => PSyntaxError
      | q :: r0 =>
          if (q =? dquote)%char then
            match parse_chars r0 with
            | POk (k, r1) =>
                match skip_ws r1 with
                | [] => PSyntaxError
                | c1 :: r2 =>
                    if (c1 =? ":")%char then
                      match parse_value fuel' r2 with
                      | POk (v, r3) =>
                          match skip_ws r3 with
                          | [] => PSyntaxError
                          | c :: r4 =>
                              if (c =? ",")%char then
                                pmap (cons (k, v)) (parse_members fuel' r4)
                              else if (c =? "}")%char then POk ([(k, v)], r4)
                              else PSyntaxError
                          end
                      | PSyntaxError => PSyntaxError
                      | PUnmodelled => PUnmodelled
                      | POutOfFuel => POutOfFuel
                      end
                    else PSyntaxError
                end
            | PSyntaxError => PSyntaxError
            | PUnmodelled => PUnmodelled
            | POutOfFuel => POutOfFuel
            end
          else PSyntaxError
      end
  end.

(** JSON.parse: one value, then only white space. *)
Definition JSON_parse (t : text) : presult value :=
  match parse_value (2 * List.length t + 1) t with
  | POk (v, r) => match skip_ws r with [] => POk v | _ :: _ => PSyntaxError end
  | PSyntaxError => PSyntaxError
  | PUnmodelled => PUnmodelled
  | POutOfFuel => POutOfFuel
  end.

(** ** String.prototype.trim *)

(** WhiteSpace and LineTerminator code units below 256: tab, line feed,
    vertical tab, form feed, carriage return, space, no-break space. *)
Definition is_js_ws (c : ascii) : bool :=
  let n := N_of_ascii c in
  ((9 <=? n)%N && (n <=? 13)%N) || (n =? 32)%N || (n =? 160)%N.

Fixpoint trim_start (t : text) : text :=
  match t with
  | c :: r => if is_js_ws c then trim_start r else t
  | [] => []
  end.

Definition trim (t : text) : text := rev (trim_start (rev (trim_start t))).

End Json.

Import Json.

(* ================================================================== *)
(** * Outcomes, the store and the world around it *)
(* ================================================================== *)

(** The messages of the [Error]s the adapter throws itself. *)
Inductive message : Type :=
  | NoFolderConnected   (* 'No folder connected.' *)
  | NoFileOpen          (* 'No file open — call openFile() first.' *)
  | NoFolderCallConnect (* 'No folder connected — call connectFolder() first.' *).

Inductive exn : Type :=
  | Error (m : message)
  | SyntaxError      (* JSON.parse on a text that is not JSON *)
  | TypeError        (* a property of null, a method that is not there *)
  | AbortError       (* the user dismissed the directory picker *)
  | NotFoundError    (* the file behind a handle is gone *).

Inductive outcome (A : Type) : Type :=
  | Return (a : A)
  | Throw (e : exn)
  | Unmodelled.
Arguments Return {A} a.
Arguments Throw {A} e.
Arguments Unmodelled {A}.

Definition obind {A B : Type} (o : outcome A) (k : A -> outcome B) : outcome B :=
  match o with
  | Return a => k a
  | Throw e => Throw e
  | Unmodelled => Unmodelled
  end.

Declare Scope js_scope.
Delimit Scope js_scope with js.
Notation "'let*' x := o 'in' k" := (obind o (fun x => k))
  (at level 10, x name, o at level 99, k at level 200) : js_scope.

(** The document: the four sections of [_data]. *)
Record Document : Type := mkDocument {
  settings : value;
  attendees : value;
  meetings : value;
  draft : value
}.

Definition set_settings (v : value) (D : Document) : Document :=
  mkDocument v (attendees D) (meetings D) (draft D).
Definition set_attendees (v : value) (D : Document) : Document :=
  mkDocument (settings D) v (meetings D) (draft D).
Definition set_meetings (v : value) (D : Document) : Document :=
  mkDocument (settings D) (attendees D) v (draft D).
Definition set_draft (v : value) (D : Document) : Document :=
  mkDocument (settings D) (attendees D) (meetings D) v.

(** [_data] as JSON.stringify sees it. *)
Definition doc_value (D : Document) : value :=
  JObj [("settings"%string, settings D); ("attendees"%string, attendees D);
        ("meetings"%string, meetings D); ("draft"%string, draft D)].

(** A file handle: the folder and the name of the file in it. *)
Abbreviation handle := (string * string)%type.

(** The fields of the [Storage] object. *)
Record store : Type := mkStore {
  _dirHandle : option string;
  _fileHandle : option handle;
  _filename : option string;
  _data : option Document
}.

Inductive warning : Type :=
  | WarnInvalidJson (file : option string)
  | WarnUnexpectedRoot (file : option string)
  | WarnNoRecognisedKeys (file : option string)
  | WarnDbParseError.

(** The store together with the files on disk and the console. *)
Record Sys : Type := mkSys {
  this : store;
  disk : gmap (string * string) text;
  console : list warning
}.

Definition with_this (f : store -> store) (s : Sys) : Sys :=
  mkSys (f (this s)) (disk s) (console s).

(** A computation: an outcome and the state it leaves behind.  A throw
    does not undo the assignments made before it. *)
Definition M (A : Type) : Type := Sys -> outcome A * Sys.

Definition ret {A : Type} (a : A) : M A := fun s => (Return a, s).
Definition throw {A : Type} (e : exn) : M A := fun s => (Throw e, s).
Definition lift {A : Type} (o : outcome A) : M A := fun s => (o, s).

Definition bind {A B : Type} (m : M A) (k : A -> M B) : M B :=
  fun s =>
    match m s with
    | (Return a, s') => k a s'
    | (Throw e, s') => (Throw e, s')
    | (Unmodelled, s') => (Unmodelled, s')
    end.

Notation "'do' x <- m ;; k" := (bind m (fun x => k))
  (at level 10, x name, m at level 99, k at level 200) : js_scope.
Notation "'run' m ;; k" := (bind m (fun _ => k))
  (at level 10, m at level 99, k at level 200) : js_scope.

Local Open Scope js_scope.

(** [try { m } catch (_) { h }] *)
Definition try_catch {A : Type} (m : M A) (h : M A) : M A :=
  fun s =>
    match m s with
    | (Throw _, s') => h s'
    | r => r
    end.

Definition when (b : bool) (m : M unit) : M unit := if b then m else ret tt.

Definition get_this : M store := fun s => (Return (this s), s).
Definition modify_this (f : store -> store) : M unit :=
  fun s => (Return tt, with_this f s).

Definition warn (w : warning) : M unit :=
  fun s => (Return tt, mkSys (this s) (disk s) (console s ++ [w])).

(** [this._data], for reading one of its properties. *)
Definition read_data : M Document :=
  fun s =>
    match _data (this s) with
    | Some D => (Return D, s)
    | None => (Throw TypeError, s)
    end.

(** [this._data.section = v] *)
Definition assign_data (f : Document -> Document) : M unit :=
  fun s =>
    match _data (this s) with
    | Some D =>
        (Return tt,
         with_this (fun st => mkStore (_dirHandle st) (_fileHandle st) (_filename st)
                                      (Some (f D))) s)
    | None => (Throw TypeError, s)
    end.

(** ** The File System Access API *)

(** [window.showDirectoryPicker]: the folder the user picks, if any. *)
Definition showDirectoryPicker (picked : option string) : M string :=
  match picked with
  | Some d => ret d
  | None => throw AbortError
  end.

(** [dir.getFileHandle(name, { create: true })]: an absent file is
    created empty.  The platform is taken to accept the name: a call it
    rejects (a separator in the name, a directory of that name, a
    permission withdrawn) is outside the model, and so is the state
    [openFile] is left in when it does. *)
Definition getFileHandle (d name : string) : M handle :=
  fun s =>
    match disk s !! (d, name) with
    | Some _ => (Return (d, name), s)
    | None => (Return (d, name), mkSys (this s) (<[(d, name) := []]> (disk s)) (console s))
    end.

(** [(await handle.getFile()).text()] *)
Definition file_text (h : handle) : M text :=
  fun s =>
    match disk s !! h with
    | Some t => (Return t, s)
    | None => (Throw NotFoundError, s)
    end.

(** [createWritable], [write], [close]: the file's content is replaced. *)
Definition write_file (h : handle) (t : text) : M unit :=
  fun s => (Return tt, mkSys (this s) (<[h := t]> (disk s)) (console s)).

(** [for await (const [name, handle] of dir.entries())]: the names of
    the entries of the folder [d].  The folders of the model hold files
    only, so [handle.kind === 'file'] holds of every entry. *)
Definition entries (d : string) : M (list string) :=
  fun s =>
    (Return (map (fun kv => snd (fst kv))
               (List.filter (fun kv => String.eqb (fst (fst kv)) d)
                  (map_to_list (disk s)))),
     s).

(** ** JavaScript operators on values *)

(** [v.k] for a key that is neither an index nor [length]: reading a
    property of null throws, a primitive or an array has none. *)
Definition get_prop (k : string) (v : value) : outcome (option value) :=
  match v with
  | JNull => Throw TypeError
  | JObj o => Return (obj_get k o)
  | JBool _ | JNum _ | JStr _ | JArr _ => Return None
  end.

(** [k in v], for such a key: the right operand must be an object. *)
Definition in_op (k : string) (v : value) : outcome bool :=
  match v with
  | JObj o => Return (obj_has k o)
  | JArr _ => Return false
  | JNull | JBool _ | JNum _ | JStr _ => Throw TypeError
  end.

(** [a === b].  Two arrays or two objects are equal when they are the
    same reference, which values do not record. *)
Definition strict_eq (a b : option value) : outcome bool :=
  match a, b with
  | None, None => Return true
  | Some JNull, Some JNull => Return true
  | Some (JBool x), Some (JBool y) => Return (Bool.eqb x y)
  | Some (JNum x), Some (JNum y) => Return (x =? y)
  | Some (JStr x), Some (JStr y) => Return (String.eqb x y)
  | Some (JArr _), Some (JArr _) => Unmodelled
  | Some (JObj _), Some (JObj _) => Unmodelled
  | _, _ => Return false
  end.

(** The object literal [{ ...v1, ...v2 }]. *)
Definition spread (vs : list value) : list (string * value) :=
  fold_left (fun acc v => obj_assign acc (own_entries v)) vs [].

(** The receiver of [findIndex], [find] and [filter]. *)
Definition as_array (v : value) : outcome (list value) :=
  match v with
  | JArr l => Return l
  | _ => Throw TypeError
  end.

(** [[...v]]: arrays and strings are iterable. *)
Definition iterate (v : value) : outcome (list value) :=
  match v with
  | JArr l => Return l
  | JStr s => Return (map (fun c => JStr (String c EmptyString)) (list_ascii_of_string s))
  | JNull | JBool _ | JNum _ | JObj _ => Throw TypeError
  end.

Fixpoint findIndex (p : value -> outcome bool) (l : list value) : outcome (option nat) :=
  match l with
  | [] => Return None
  | x :: l' =>
      let* b := p x in
      if b then Return (Some O)
      else let* r := findIndex p l' in Return (option_map S r)
  end.

Fixpoint find (p : value -> outcome bool) (l : list value) : outcome (option value) :=
  match l with
  | [] => Return None
  | x :: l' => let* b := p x in if b then Return (Some x) else find p l'
  end.

Fixpoint filterM (p : value -> outcome bool) (l : list value) : outcome (list value) :=
  match l with
  | [] => Return []
  | x :: l' =>
      let* b := p x in
      let* r := filterM p l' in
      Return (if b then x :: r else r)
  end.

(** [m => m.id === id] *)
Definition id_is (id : option value) (m : value) : outcome bool :=
  let* a := get_prop "id" m in strict_eq a id.

(** [m => m.id === meeting.id] *)
Definition same_id (meeting m : value) : outcome bool :=
  let* a := get_prop "id" m in
  let* b := get_prop "id" meeting in
  strict_eq a b.

(** [m => m.id !== id] *)
Definition id_is_not (id : value) (m : value) : outcome bool :=
  let* b := id_is (Some id) m in Return (negb b).

(** [x || 0] *)
Definition or_zero (x : option value) : value :=
  match x with
  | Some v => if truthy v then v else JNum 0
  | None => JNum 0
  end.

(** ToNumber, where the model has an answer. *)
Definition to_number (v : value) : outcome Z :=
  match v with
  | JNum n => Return n
  | JBool b => Return (if b then 1 else 0)
  | JNull => Return 0
  | JStr _ | JArr _ | JObj _ => Unmodelled
  end.

(** [(a, b) => (b.finalizedAt || 0) - (a.finalizedAt || 0)] *)
Definition by_finalizedAt (a b : value) : outcome Z :=
  let* fb := get_prop "finalizedAt" b in
  let* fa := get_prop "finalizedAt" a in
  let* nb := to_number (or_zero fb) in
  let* na := to_number (or_zero fa) in
  Return (nb - na).

(** Array.prototype.sort is stable; with a consistent comparator every
    stable sort returns the same array.  Insertion sort stands for it:
    [x], which came before the elements of [l], goes in front of the
    first one it does not have to follow. *)
Fixpoint insert_sorted (cmp : value -> value -> outcome Z) (x : value) (l : list value)
  : outcome (list value) :=
  match l with
  | [] => Return [x]
  | y :: l' =>
      let* c := cmp x y in
      if c <=? 0 then Return (x :: y :: l')
      else let* r := insert_sorted cmp x l' in Return (y :: r)
  end.

Fixpoint sort (cmp : value -> value -> outcome Z) (l : list value) : outcome (list value) :=
  match l with
  | [] => Return []
  | x :: l' => let* s := sort cmp l' in insert_sorted cmp x s
  end.

(** ** String operations on file names *)

(** toLowerCase on a Latin-1 code unit. *)
Definition to_lower_char (c : ascii) : ascii :=
  let n := N_of_ascii c in
  if ((65 <=? n)%N && (n <=? 90)%N)
     || ((192 <=? n)%N && (n <=? 222)%N && negb (n =? 215)%N)
  then ascii_of_N (n + 32) else c.

Fixpoint toLowerCase (s : string) : string :=
  match s with
  | EmptyString => EmptyString
  | String c s' => String (to_lower_char c) (toLowerCase s')
  end.

Definition endsWith (s suffix : string) : bool :=
  let n := String.length s in
  let k := String.length suffix in
  (k <=? n)%nat && String.eqb (String.substring (n - k) k s) suffix.

(** [(a, b) => a.localeCompare(b)], for the collation [localeCompare]
    of the browser's locale.  Only strings have the method. *)
Definition by_localeCompare (localeCompare : string -> string -> Z) (a b : value)
  : outcome Z :=
  match a, b with
  | JStr x, JStr y => Return (localeCompare x y)
  | JStr _, _ => Unmodelled
  | _, _ => Throw TypeError
  end.

(** [this._fileHandle = h] and the like. *)
Definition set_dirHandle (d : option string) (st : store) : store :=
  mkStore d (_fileHandle st) (_filename st) (_data st).
Definition set_fileHandle (h : option handle) (st : store) : store :=
  mkStore (_dirHandle st) h (_filename st) (_data st).
Definition set_filename (f : option string) (st : store) : store :=
  mkStore (_dirHandle st) (_fileHandle st) f (_data st).
Definition set_data (D : option Document) (st : store) : store :=
  mkStore (_dirHandle st) (_fileHandle st) (_filename st) D.

(** [JSON.stringify(this._data, null, 2)] *)
Definition stringify_data (st : store) : text :=
  stringify (match _data st with Some D => doc_value D | None => JNull end).

(* ================================================================== *)
(** * The multi-file store *)
(* ================================================================== *)

Module Storage.

(** The object as the script creates it. *)
Definition initial : store := mkStore None None None None.

Definition _empty : Document :=
  {| settings := JObj [("id"%string, JStr "app"); ("dateMode"%string, JStr "exact");
                       ("logoDataUrl"%string, JNull);
                       ("pdfAccentColor"%string, JStr "#4b5563");
                       ("pdfBgColor"%string, JStr "#f3f4f6")];
     attendees := JArr [];
     meetings := JArr [];
     draft := JNull |}.

Definition init : M unit :=
  modify_this (set_data (Some _empty)).

Definition connectFolder (picked : option string) : M unit :=
  do d <- showDirectoryPicker picked ;;
  run modify_this (set_dirHandle (Some d)) ;;
  run modify_this (set_fileHandle None) ;;
  modify_this (set_filename None).

Definition listJsonFiles (localeCompare : string -> string -> Z) : M (list value) :=
  do st <- get_this ;;
  match _dirHandle st with
  | None => throw (Error NoFolderConnected)
  | Some d =>
      do names <- entries d ;;
      let files :=
        List.filter (fun name => endsWith (toLowerCase name) ".json") names in
      lift (sort (by_localeCompare localeCompare) (map JStr files))
  end.

Definition _loadFromFile : M unit :=
  do st <- get_this ;;
  match _fileHandle st with
  | None => throw TypeError
  | Some h =>
      do raw <- file_text h ;;
      let text := trim raw in
      match text with
      | [] => ret tt
      | _ :: _ =>
          match JSON_parse text with
          | PSyntaxError => run warn (WarnInvalidJson (_filename st)) ;; ret tt
          | PUnmodelled | POutOfFuel => lift Unmodelled
          | POk parsed =>
              if negb (truthy parsed) || negb (typeof_object parsed) || isArray parsed
              then run warn (WarnUnexpectedRoot (_filename st)) ;; ret tt
              else
                do has_settings <- lift (in_op "settings" parsed) ;;
                do has_meetings <- lift (in_op "meetings" parsed) ;;
                do has_attendees <- lift (in_op "attendees" parsed) ;;
                do has_draft <- lift (in_op "draft" parsed) ;;
                let looksValid :=
                  has_settings || has_meetings || has_attendees || has_draft in
                if negb looksValid
                then run warn (WarnNoRecognisedKeys (_filename st)) ;; ret tt
                else
                  do p_settings <- lift (get_prop "settings" parsed) ;;
                  run when (truthy_opt p_settings
                            && match p_settings with
                               | Some v => typeof_object v
                               | None => false
                               end)
                    (assign_data
                       (set_settings
                          (JObj (spread [settings _empty;
                                         default JNull p_settings])))) ;;
                  do p_attendees <- lift (get_prop "attendees" parsed) ;;
                  run when (isArray_opt p_attendees)
                    (assign_data (set_attendees (default JNull p_attendees))) ;;
                  do p_meetings <- lift (get_prop "meetings" parsed) ;;
                  run when (isArray_opt p_meetings)
                    (assign_data (set_meetings (default JNull p_meetings))) ;;
                  do p_draft <- lift (get_prop "draft" parsed) ;;
                  when has_draft (assign_data (set_draft (default JNull p_draft)))
          end
      end
  end.

Definition openFile (filename : string) : M unit :=
  do st <- get_this ;;
  match _dirHandle st with
  | None => throw (Error NoFolderConnected)
  | Some d =>
      let filename :=
        if negb (endsWith (toLowerCase filename) ".json")
        then (filename ++ ".json")%string else filename in
      run modify_this (set_data (Some _empty)) ;;
      run modify_this (set_filename (Some filename)) ;;
      do h <- getFileHandle d filename ;;
      run modify_this (set_fileHandle (Some h)) ;;
      _loadFromFile
  end.

Definition activeFile (st : store) : option string := _filename st.

Definition _save : M unit :=
  do st <- get_this ;;
  match _fileHandle st with
  | None => throw (Error NoFileOpen)
  | Some h => write_file h (stringify_data st)
  end.

(** *** Draft *)

Definition saveDraft (meeting : value) : M unit :=
  run assign_data (set_draft (JObj (obj_set "id" (JStr "current") (spread [meeting])))) ;;
  _save.

Definition loadDraft : M value :=
  do D <- read_data ;;
  ret (if truthy (draft D) then draft D else JNull).

Definition clearDraft : M unit :=
  run assign_data (set_draft JNull) ;;
  _save.

(** *** Meetings *)

Definition saveMeeting (meeting : value) : M unit :=
  do D <- read_data ;;
  do l <- lift (as_array (meetings D)) ;;
  do i <- lift (findIndex (same_id meeting) l) ;;
  run match i with
      | Some i => assign_data (set_meetings (JArr (<[i := meeting]> l)))
      | None => assign_data (set_meetings (JArr (l ++ [meeting])))
      end ;;
  _save.

Definition getMeeting (id : value) : M value :=
  do D <- read_data ;;
  do l <- lift (as_array (meetings D)) ;;
  do r <- lift (find (id_is (Some id)) l) ;;
  ret (match r with
       | Some m => if truthy m then m else JNull
       | None => JNull
       end).

Definition getAllMeetings : M (list value) :=
  do D <- read_data ;;
  do copy <- lift (iterate (meetings D)) ;;
  lift (sort by_finalizedAt copy).

Definition deleteMeeting (id : value) : M unit :=
  do D <- read_data ;;
  do l <- lift (as_array (meetings D)) ;;
  do kept <- lift (filterM (id_is_not id) l) ;;
  run assign_data (set_meetings (JArr kept)) ;;
  _save.

(** *** Settings *)

Definition saveSettings (s : value) : M unit :=
  run assign_data (set_settings (JObj (obj_set "id" (JStr "app") (spread [s])))) ;;
  _save.

Definition loadSettings : M value :=
  do D <- read_data ;;
  ret (settings D).

(** *** Attendees *)

Definition saveAttendees (list : value) : M unit :=
  run assign_data (set_attendees list) ;;
  _save.

Definition loadAttendees : M value :=
  do D <- read_data ;;
  ret (if isArray (attendees D) then attendees D else JArr []).

End Storage.

(* ================================================================== *)
(** * The single-file store (db.json) *)
(* ================================================================== *)

Module DbJson.

Definition defaults : Document :=
  {| settings := JObj [("id"%string, JStr "app"); ("dateMode"%string, JStr "exact");
                       ("logoDataUrl"%string, JNull);
                       ("pdfAccentColor"%string, JStr "#4b5563");
                       ("pdfBgColor"%string, JStr "#f3f4f6")];
     attendees := JArr [];
     meetings := JArr [];
     draft := JNull |}.

(** The object as the script creates it: [_data] is there from the start. *)
Definition initial : store := mkStore None None None (Some defaults).

Definition init : M unit := ret tt.

Definition _loadFromFile : M unit :=
  do st <- get_this ;;
  match _fileHandle st with
  | None => throw TypeError
  | Some h =>
      do raw <- file_text h ;;
      let text := trim raw in
      match text with
      | [] => ret tt
      | _ :: _ =>
          try_catch
            (match JSON_parse text with
             | PSyntaxError => throw SyntaxError
             | PUnmodelled | POutOfFuel => lift Unmodelled
             | POk p =>
                 do p_settings <- lift (get_prop "settings" p) ;;
                 run when (truthy_opt p_settings)
                   (assign_data (set_settings (default JNull p_settings))) ;;
                 do p_attendees <- lift (get_prop "attendees" p) ;;
                 run when (truthy_opt p_attendees)
                   (assign_data (set_attendees (default JNull p_attendees))) ;;
                 do p_meetings <- lift (get_prop "meetings" p) ;;
                 run when (truthy_opt p_meetings)
                   (assign_data (set_meetings (default JNull p_meetings))) ;;
                 do has_draft <- lift (in_op "draft" p) ;;
                 do p_draft <- lift (get_prop "draft" p) ;;
                 when has_draft (assign_data (set_draft (default JNull p_draft)))
             end)
            (warn WarnDbParseError)
      end
  end.

Definition connectFolder (picked : option string) : M unit :=
  do d <- showDirectoryPicker picked ;;
  run modify_this (set_dirHandle (Some d)) ;;
  do h <- getFileHandle d "db.json" ;;
  run modify_this (set_fileHandle (Some h)) ;;
  _loadFromFile.

Definition _save : M unit :=
  do st <- get_this ;;
  match _fileHandle st with
  | None => throw (Error NoFolderCallConnect)
  | Some h => write_file h (stringify_data st)
  end.

Definition saveDraft (meeting : value) : M unit :=
  run assign_data (set_draft (JObj (obj_set "id" (JStr "current") (spread [meeting])))) ;;
  _save.

Definition loadDraft : M value :=
  do D <- read_data ;;
  ret (if truthy (draft D) then draft D else JNull).

Definition clearDraft : M unit :=
  run assign_data (set_draft JNull) ;;
  _save.

Definition saveMeeting (meeting : value) : M unit :=
  do D <- read_data ;;
  do l <- lift (as_array (meetings D)) ;;
  do i <- lift (findIndex (same_id meeting) l) ;;
  run match i with
      | Some i => assign_data (set_meetings (JArr (<[i := meeting]> l)))
      | None => assign_data (set_meetings (JArr (l ++ [meeting])))
      end ;;
  _save.

Definition getMeeting (id : value) : M value :=
  do D <- read_data ;;
  do l <- lift (as_array (meetings D)) ;;
  do r <- lift (find (id_is (Some id)) l) ;;
  ret (match r with
       | Some m => if truthy m then m else JNull
       | None => JNull
       end).

Definition getAllMeetings : M (list value) :=
  do D <- read_data ;;
  do copy <- lift (iterate (meetings D)) ;;
  lift (sort by_finalizedAt copy).

Definition deleteMeeting (id : value) : M unit :=
  do D <- read_data ;;
  do l <- lift (as_array (meetings D)) ;;
  do kept <- lift (filterM (id_is_not id) l) ;;
  run assign_data (set_meetings (JArr kept)) ;;
  _save.

Definition saveSettings (s : value) : M unit :=
  run assign_data (set_settings (JObj (obj_set "id" (JStr "app") (spread [s])))) ;;
  _save.

Definition loadSettings : M value :=
  do D <- read_data ;;
  ret (if truthy (settings D) then settings D else settings defaults).

Definition saveAttendees (list : value) : M unit :=
  run assign_data (set_attendees list) ;;
  _save.

Definition loadAttendees : M value :=
  do D <- read_data ;;
  ret (if isArray (attendees D) then attendees D else JArr []).

End DbJson.

(* ================================================================== *)
(** * Vocabulary of the properties *)
(* ================================================================== *)

(** The document in memory after running [m] from [s]. *)
Definition data_after {A : Type} (m : M A) (s : Sys) : option Document :=
  _data (this (snd (m s))).

Inductive section : Type := Settings | Attendees | Meetings | Draft.

Definition section_of (sec : section) (D : Document) : value :=
  match sec with
  | Settings => settings D
  | Attendees => attendees D
  | Meetings => meetings D
  | Draft => draft D
  end.

(** Two documents agree on every section but [sec]. *)
Definition same_outside (sec : section) (a b : option Document) : Prop :=
  match a, b with
  | Some x, Some y => forall sec', sec' <> sec -> section_of sec' x = section_of sec' y
  | None, None => True
  | _, _ => False
  end.

(** An operation that only ever touches the section [sec]. *)
Definition touches_only {A : Type} (sec : section) (m : M A) : Prop :=
  forall s, same_outside sec (_data (this s)) (data_after m s).

(** Entries of a meeting list whose id can be compared with [id]. *)
Definition comparable (id : option value) (l : list value) : Prop :=
  Forall (fun x => exists b, id_is id x = Return b) l.

(** Entries whose id can be compared with that of the meeting [m]. *)
Definition comparable_with (m : value) (l : list value) : Prop :=
  Forall (fun x => exists b, same_id m x = Return b) l.

(** The entry [x] has the same id as the meeting [m]. *)
Definition matches (m x : value) : bool :=
  match same_id m x with Return true => true | _ => false end.

(** [v.id], when [v] is not null. *)
Definition id_of (v : value) : option value :=
  match get_prop "id" v with Return r => r | _ => None end.

(** The meetings, attendees, ... in memory after running [m] from [s]. *)
Definition section_after {A : Type} (sec : section) (m : M A) (s : Sys)
  : option value :=
  option_map (section_of sec) (data_after m s).

(** The entry [x] has the id [id]. *)
Definition has_id (id : option value) (x : value) : bool :=
  match id_is id x with Return true => true | _ => false end.

(** [x.finalizedAt || 0] as a number. *)
Definition finalized (x : value) : outcome Z :=
  let* f := get_prop "finalizedAt" x in to_number (or_zero f).

Definition stamp (x : value) : Z :=
  match finalized x with Return n => n | _ => 0 end.


(** What a mutating operation owes to the binding: without a file it
    throws [err]; with one it returns and the file holds the
    serialisation of the whole document, all other files as before. *)
Definition persists (err : exn) (op : M unit) (s : Sys) : Prop :=
  match _fileHandle (this s) with
  | None => fst (op s) = Throw err
  | Some h =>
      fst (op s) = Return tt /\
      disk (snd (op s)) = <[h := stringify_data (this (snd (op s)))]> (disk s)
  end.

(** An entry whose [finalizedAt || 0] is a number of the model. *)
Definition timed (x : value) : Prop := exists n, finalized x = Return n.

(** Descending order of timestamps. *)
Definition not_before (a b : value) : Prop := stamp b <= stamp a.

(** The name [openFile] binds: [.json] is appended unless it is there. *)
Definition json_name (filename : string) : string :=
  if negb (endsWith (toLowerCase filename) ".json")
  then (filename ++ ".json")%string else filename.

(** What a handle reads: a file created on the spot is empty. *)
Definition content (h : handle) (d : gmap (string * string) text) : text :=
  default [] (d !! h).

(** [looksValid] *)
Definition recognised (o : list (string * value)) : bool :=
  obj_has "settings" o || obj_has "meetings" o || obj_has "attendees" o
  || obj_has "draft" o.

(** A text the store does not take for one of its documents: blank, not
    JSON, JSON that is not a plain object, or an object with none of the
    four keys. *)
Definition foreign_text (t : text) : Prop :=
  trim t = []
  \/ JSON_parse (trim t) = PSyntaxError
  \/ (exists v, JSON_parse (trim t) = POk v /\ forall o, v <> JObj o)
  \/ (exists o, JSON_parse (trim t) = POk (JObj o) /\ recognised o = false).

(** A text that parses to an object with at least one of the four keys. *)
Definition recognised_text (t : text) (o : list (string * value)) : Prop :=
  trim t <> [] /\ JSON_parse (trim t) = POk (JObj o) /\ recognised o = true.

(** The sections [_loadFromFile] of the multi-file store assigns, from
    the recognised object [o], over the document [D]. *)
Definition merge_sections (o : list (string * value)) (D : Document) : Document :=
  {| settings :=
       match obj_get "settings" o with
       | Some v =>
           if truthy v && typeof_object v
           then JObj (spread [settings Storage._empty; v])
           else settings D
       | None => settings D
       end;
     attendees :=
       match obj_get "attendees" o with
       | Some (JArr l) => JArr l
       | _ => attendees D
       end;
     meetings :=
       match obj_get "meetings" o with
       | Some (JArr l) => JArr l
       | _ => meetings D
       end;
     draft :=
       match obj_get "draft" o with
       | Some v => v
       | None => draft D
       end |}.

(** The sections [_loadFromFile] of the single-file store assigns, from
    the parsed object [o], over the document [D]. *)
Definition overlay_sections (o : list (string * value)) (D : Document) : Document :=
  {| settings :=
       match obj_get "settings" o with
       | Some v => if truthy v then v else settings D
       | None => settings D
       end;
     attendees :=
       match obj_get "attendees" o with
       | Some v => if truthy v then v else attendees D
       | None => attendees D
       end;
     meetings :=
       match obj_get "meetings" o with
       | Some v => if truthy v then v else meetings D
       | None => meetings D
       end;
     draft :=
       match obj_get "draft" o with
       | Some v => v
       | None => draft D
       end |}.

(** The state in which [openFile] starts reading: the document reset,
    the file bound and, if it was not there, created empty. *)
Definition bound (d name : string) (s : Sys) : Sys :=
  mkSys (mkStore (Some d) (Some (d, name)) (Some name) (Some Storage._empty))
        (match disk s !! (d, name) with
         | Some _ => disk s
         | None => <[(d, name) := []]> (disk s)
         end)
        (console s).

(** The outcome of [_loadFromFile] of the multi-file store and the
    document it leaves, from the text [t] of the bound file and the
    document [D] in memory. *)
Definition load_result (t : text) (D : Document) : outcome unit * Document :=
  match trim t with
  | [] => (Return tt, D)
  | _ :: _ =>
      match JSON_parse (trim t) with
      | POk (JObj o) => (Return tt, if recognised o then merge_sections o D else D)
      | POk _ | PSyntaxError => (Return tt, D)
      | PUnmodelled | POutOfFuel => (Unmodelled, D)
      end
  end.

(** The same for the single-file store. *)
Definition db_load_result (t : text) (D : Document) : outcome unit * Document :=
  match trim t with
  | [] => (Return tt, D)
  | _ :: _ =>
      match JSON_parse (trim t) with
      | POk (JObj o) => (Return tt, overlay_sections o D)
      | POk _ | PSyntaxError => (Return tt, D)
      | PUnmodelled | POutOfFuel => (Unmodelled, D)
      end
  end.

(** The state in which [connectFolder] of the single-file store starts
    reading: db.json bound, the document as it was. *)
Definition db_bound (d : string) (s : Sys) : Sys :=
  mkSys (mkStore (Some d) (Some (d, "db.json"%string)) (_filename (this s))
                 (_data (this s)))
        (match disk s !! (d, "db.json"%string) with
         | Some _ => disk s
         | None => <[(d, "db.json"%string) := []]> (disk s)
         end)
        (console s).

(** The own property [k] of [v] as a spread copies it.  For an object,
    whose property names are distinct, this is [obj_get k]. *)
Definition field (k : string) (v : value) : option value :=
  obj_get k (obj_assign [] (own_entries v)).

(** The fixed ids of the two singletons. *)
Definition settings_id_ok (D : Document) : Prop :=
  id_of (settings D) = Some (JStr "app").

Definition draft_id_ok (D : Document) : Prop :=
  draft D = JNull \/ id_of (draft D) = Some (JStr "current").

Definition ids_ok (D : Document) : Prop := settings_id_ok D /\ draft_id_ok D.

(* ================================================================== *)
(** * Values a document is made of *)
(* ================================================================== *)

Fixpoint distinct (l : list string) : bool :=
  match l with
  | [] => true
  | k :: l' => negb (existsb (String.eqb k) l') && distinct l'
  end.

(** A value as JavaScript has it and JSON keeps it: every number a safe
    integer, the property names of every object pairwise distinct. *)
Fixpoint wf (v : value) : bool :=
  match v with
  | JNull | JBool _ | JStr _ => true
  | JNum n => safe_int n
  | JArr l => forallb wf l
  | JObj o => distinct (map fst o) && forallb (fun kv => wf (snd kv)) o
  end.

(** Fuel that parses the text of [v]. *)
Fixpoint need (v : value) : nat :=
  match v with
  | JNull | JBool _ | JNum _ | JStr _ => 1
  | JArr l => S (fold_right (fun x n => S (need x + n)) O l)
  | JObj o => S (fold_right (fun kv n => S (need (snd kv) + n)) O o)
  end.

(** Induction on values, through their arrays and objects. *)
Definition value_ind (P : value -> Prop)
    (Hnull : P JNull) (Hbool : forall b, P (JBool b))
    (Hnum : forall n, P (JNum n)) (Hstr : forall s, P (JStr s))
    (Harr : forall l, Forall P l -> P (JArr l))
    (Hobj : forall o, Forall (fun kv => P (snd kv)) o -> P (JObj o))
  : forall v, P v :=
  fix go (v : value) : P v :=
    match v with
    | JNull => Hnull
    | JBool b => Hbool b
    | JNum n => Hnum n
    | JStr s => Hstr s
    | JArr l =>
        Harr l ((fix all (l : list value) : Forall P l :=
                   match l with
                   | [] => @List.Forall_nil _ P
                   | x :: l' => @List.Forall_cons _ P x l' (go x) (all l')
                   end) l)
    | JObj o =>
        Hobj o ((fix all (o : list (string * value)) : Forall (fun kv => P (snd kv)) o :=
                   match o with
                   | [] => @List.Forall_nil _ _
                   | kv :: o' => @List.Forall_cons _ _ kv o' (go (snd kv)) (all o')
                   end) o)
    end.

(** The five fields of a full settings record. *)
Definition settings_fields : list string :=
  ["id"; "dateMode"; "logoDataUrl"; "pdfAccentColor"; "pdfBgColor"]%string.

(** A valid document: a full settings record, a list of attendees, a
    list of meetings and a draft, all of them JSON data. *)
Definition valid_doc (D : Document) : bool :=
  match settings D with
  | JObj so => forallb (fun k => obj_has k so) settings_fields
  | _ => false
  end
  && wf (settings D)
  && isArray (attendees D) && wf (attendees D)
  && isArray (meetings D) && wf (meetings D)
  && wf (draft D).

(** Two objects with the same properties, whatever their order. *)
Definition same_object (a b : value) : Prop :=
  match a, b with
  | JObj x, JObj y => x ≡ₚ y /\ forall k, obj_get k x = obj_get k y
  | _, _ => a = b
  end.

(** Two documents that are equal, section by section. *)
Definition same_document (a b : Document) : Prop :=
  same_object (settings a) (settings b)
  /\ attendees a = attendees b
  /\ meetings a = meetings b
  /\ draft a = draft b.

(** The text ends a number: it does not go on with a digit, a fraction
    or an exponent.  What follows a value in the output of
    [stringify] is a comma, a line break or nothing. *)
Definition delimited (rest : text) : Prop :=
  match rest with
  | [] => True
  | c :: _ => c = ","%char \/ c = newline
  end.

(** The text of an array after its first element, and of an object
    after its first member, as [print] lays them out. *)
Fixpoint more_elems (ind : nat) (ys : list value) : text :=
  match ys with
  | [] => nl ind ++ lit "]"
  | y :: ys' => lit "," ++ nl (ind + 2) ++ print (ind + 2) y ++ more_elems ind ys'
  end.

Fixpoint more_members (ind : nat) (ys : list (string * value)) : text :=
  match ys with
  | [] => nl ind ++ lit "}"
  | (k, y) :: ys' =>
      lit "," ++ nl (ind + 2) ++ quote k ++ lit ": " ++ print (ind + 2) y
      ++ more_members ind ys'
  end.

(** A character a value can start with. *)
Definition starts_value (c : ascii) : bool :=
  negb (is_json_ws c) && negb (c =? "]")%char && negb (c =? "}")%char.

(** Reading one more decimal digit. *)
Definition step_digit (a : Z) (c : ascii) : Z := a * 10 + digit_val c.

(** The text of [v], whatever follows it, parses back to [v]. *)
Definition reads_back (v : value) : Prop :=
  forall ind fuel rest,
    wf v = true -> (need v <= fuel)%nat -> delimited rest ->
    parse_value fuel (print ind v ++ rest) = POk (v, rest).

(* ================================================================== *)
(** * Vocabulary of the further properties *)
(* ================================================================== *)

(** A value [===] compares by content: not an array, not an object. *)
Definition primitive (v : value) : bool :=
  match v with
  | JArr _ | JObj _ => false
  | JNull | JBool _ | JNum _ | JStr _ => true
  end.

(** The shape every operation of the store can work on: a settings
    object with the five fields, a list of attendees, a list of meetings. *)
Definition shaped (D : Document) : Prop :=
  (exists so, settings D = JObj so /\
     forall k, k ∈ settings_fields -> obj_has k so = true)
  /\ isArray (attendees D) = true
  /\ isArray (meetings D) = true.

(** No two entries of a meeting list have the same id. *)
Definition unique_ids (l : list value) : Prop := NoDup (map id_of l).

(** The entries of [l] whose timestamp counts as [n], in their order. *)
Definition stamped (n : Z) (l : list value) : list value :=
  List.filter (fun x => stamp x =? n) l.

(** The names of the files of the folder [d] that [listJsonFiles] takes. *)
Definition is_json_name (name : string) : bool :=
  endsWith (toLowerCase name) ".json".

(** The store has a document whose settings are truthy. *)
Definition has_settings (s : Sys) : Prop :=
  exists D, _data (this s) = Some D /\ truthy (settings D) = true.

(** An operation that leaves the store, the disk and the console alone. *)
Definition read_only {A : Type} (m : M A) : Prop := forall s, snd (m s) = s.

(** An operation that answers from memory: with a document it returns,
    whether or not a file is bound. *)
Definition answers {A : Type} (m : M A) : Prop :=
  forall s D, _data (this s) = Some D -> exists a, fst (m s) = Return a.

(** The binding is coherent: a bound file is a [.json] file of the
    folder that is picked, and [_filename] is its name; with no file
    bound there is no [_filename]. *)
Definition coherent (st : store) : Prop :=
  match _fileHandle st with
  | Some (d, name) =>
      _dirHandle st = Some d /\ _filename st = Some name /\ is_json_name name = true
  | None => _filename st = None
  end.

(** An operation that leaves the three handles of the store alone. *)
Definition keeps_binding {A : Type} (m : M A) : Prop :=
  forall s,
    _dirHandle (this (snd (m s))) = _dirHandle (this s) /\
    _fileHandle (this (snd (m s))) = _fileHandle (this s) /\
    _filename (this (snd (m s))) = _filename (this s).

(** A comparator [Array.prototype.sort] can sort by: the signs of
    [localeCompare a b] and [localeCompare b a] are opposite, and the
    order is transitive. *)
Definition consistent (localeCompare : string -> string -> Z) : Prop :=
  (forall a b, 0 < localeCompare a b <-> localeCompare b a < 0) /\
  (forall a b c, localeCompare a b <= 0 -> localeCompare b c <= 0 ->
                 localeCompare a c <= 0).

(** The name [a] does not come after the name [b]. *)
Definition in_locale_order (localeCompare : string -> string -> Z) (a b : value)
  : Prop :=
  match a, b with
  | JStr x, JStr y => localeCompare x y <= 0
  | _, _ => False
  end.

(* ================================================================== *)
(** * Ids, timestamps and file contents, apart from the code *)
(* ================================================================== *)

(** An id that [===] compares by content: a primitive, or none. *)
Definition plain_id (id : option value) : Prop :=
  match id with
  | Some v => primitive v = true
  | None => True
  end.

(** The finalization timestamp of a meeting as the specification speaks
    of it: the number in its [finalizedAt], and 0 for a meeting that has
    none.  It does not go through the comparator of [getAllMeetings]. *)
Definition timestamp (x : value) : Z :=
  match x with
  | JObj o =>
      match obj_get "finalizedAt" o with
      | Some (JNum n) => n
      | _ => 0
      end
  | _ => 0
  end.

(** A meeting whose [finalizedAt] is a number, null or missing. *)
Definition dated (x : value) : Prop :=
  exists o, x = JObj o /\
    match obj_get "finalizedAt" o with
    | None | Some JNull | Some (JNum _) => True
    | Some _ => False
    end.

(** Descending order of timestamps. *)
Definition newest_first (a b : value) : Prop := timestamp b <= timestamp a.


(** A bound file is a [.json] file of the folder that is picked. *)
Definition in_picked_folder (st : store) : Prop :=
  match _fileHandle st with
  | Some (d, name) => _dirHandle st = Some d /\ is_json_name name = true
  | None => True
  end.

(* ================================================================== *)
(** * The name of the IndexedDB database (src/unnamed/part_001) *)
(* ================================================================== *)

Module Idb.

(** ToInt32, as in [x | 0]. *)
Definition to_int32 (n : Z) : Z := (n + 2147483648) mod 4294967296 - 2147483648.

(** [Math.imul(a, b)] *)
Definition imul (a b : Z) : Z := to_int32 (a * b).

(** [s.lastIndexOf(c)], -1 when [c] does not occur. *)
Fixpoint lastIndexOf (c : ascii) (s : string) : Z :=
  match s with
  | EmptyString => -1
  | String x s' =>
      let r := lastIndexOf c s' in
      if 0 <=? r then r + 1 else if Ascii.eqb x c then 0 else -1
  end.

(** [path.substring(0, path.lastIndexOf('/') + 1)] *)
Definition directory (path : string) : string :=
  String.substring 0 (Z.to_nat (lastIndexOf "/" path + 1)) path.

(** The loop: [h = Math.imul(31, h) + dir.charCodeAt(i) | 0]. *)
Fixpoint hash_from (h : Z) (dir : string) : Z :=
  match dir with
  | EmptyString => h
  | String c dir' => hash_from (to_int32 (imul 31 h + Z.of_N (N_of_ascii c))) dir'
  end.

(** The digits of [n.toString(36)], for an integer [n >= 0]. *)
Definition digit36 (d : Z) : ascii :=
  if d <? 10 then ascii_of_N (Z.to_N (48 + d)) else ascii_of_N (Z.to_N (87 + d)).

Fixpoint radix36 (fuel : nat) (n : Z) (acc : string) : string :=
  match fuel with
  | O => acc
  | S fuel' =>
      let acc' := String (digit36 (n mod 36)) acc in
      if n <? 36 then acc' else radix36 fuel' (n / 36) acc'
  end.

Definition toString36 (n : Z) : string :=
  radix36 (S (Z.to_nat (Z.log2 n))) n EmptyString.

(** [DB_NAME], from [window.location.pathname]; [None] when reading it
    throws. *)
Definition DB_NAME (pathname : option string) : string :=
  match pathname with
  | None => "MeetingMinutesDB"
  | Some path =>
      let dir := directory path in
      let h := hash_from 0 dir in
      ("MM_" ++ toString36 (Z.abs h))%string
  end.

(** The hash without the wrap-around: the polynomial in 31 of the code
    units, started from [h]. *)
Fixpoint polynomial (h : Z) (dir : string) : Z :=
  match dir with
  | EmptyString => h
  | String c dir' => polynomial (31 * h + Z.of_N (N_of_ascii c)) dir'
  end.

(** The number a base-36 numeral stands for. *)
Definition value36 (c : ascii) : Z :=
  let n := Z.of_N (N_of_ascii c) in
  if n <? 58 then n - 48 else n - 87.

Fixpoint number36 (acc : Z) (w : string) : Z :=
  match w with
  | EmptyString => acc
  | String c w' => number36 (acc * 36 + value36 c) w'
  end.

Definition is_digit36 (c : ascii) : bool :=
  let n := N_of_ascii c in
  ((48 <=? n)%N && (n <=? 57)%N) || ((97 <=? n)%N && (n <=? 122)%N).

Fixpoint all_digit36 (w : string) : bool :=
  match w with
  | EmptyString => true
  | String c w' => is_digit36 c && all_digit36 w'
  end.

End Idb.

(* ================================================================== *)
(** * Sample data *)
(* ================================================================== *)

Module Sample.

Definition meeting (id : string) (finalizedAt : Z) : value :=
  JObj [("id"%string, JStr id); ("finalizedAt"%string, JNum finalizedAt);
        ("date"%string, JStr "2024-03-04"); ("agendaPoints"%string, JArr []);
        ("attendees"%string, JArr [JNum 0])].

Definition attendee : value :=
  JObj [("name"%string, JStr "Ada"); ("surname"%string, JStr "Byron");
        ("company"%string, JStr "Analytical Engines")].

(** Three meetings finalized at 5, 1 and 3, in the order they were saved. *)
Definition history : list value := [meeting "m5" 5; meeting "m1" 1; meeting "m3" 3].

Definition doc : Document :=
  {| settings := settings Storage._empty;
     attendees := JArr [attendee];
     meetings := JArr history;
     draft := JObj [("id"%string, JStr "current"); ("date"%string, JStr "2024-03-11")] |}.

(** A store bound to team.json in the folder minutes, holding [doc]. *)
Definition bound_store : store :=
  mkStore (Some "minutes"%string) (Some ("minutes"%string, "team.json"%string))
          (Some "team.json"%string) (Some doc).

(** A store holding [doc] with a folder picked and no file bound. *)
Definition unbound_store : store :=
  mkStore (Some "minutes"%string) None None (Some doc).

(** The text of an unrelated JSON object, of a file with only a date
    mode, and of a file with ids of its own. *)
Definition foreign_file : text := stringify (JObj [("foo"%string, JNum 1)]).

Definition date_mode_file : text :=
  stringify (JObj [("settings"%string,
                    JObj [("dateMode"%string, JStr "calendarWeek")])]).

Definition other_ids_file : text :=
  stringify (JObj [("settings"%string, JObj [("id"%string, JStr "other")]);
                   ("draft"%string, JObj [("id"%string, JStr "d7")])]).

Definition files (t : text) : gmap (string * string) text :=
  {[ ("minutes"%string, "team.json"%string) := t;
     ("minutes"%string, "db.json"%string) := t ]}.

Definition sys (st : store) (t : text) : Sys := mkSys st (files t) [].

(** Two folders for the single-file store: one holds [doc], the other an
    empty db.json. *)
Definition two_folders : gmap (string * string) text :=
  {[ ("archive"%string, "db.json"%string) := stringify (doc_value doc);
     ("minutes"%string, "db.json"%string) := [] ]}.

(** A collation for the examples: the order of the code units. *)
Fixpoint code_unit_order (a b : string) : Z :=
  match a, b with
  | EmptyString, EmptyString => 0
  | EmptyString, String _ _ => -1
  | String _ _, EmptyString => 1
  | String x a', String y b' =>
      if (N_of_ascii x <? N_of_ascii y)%N then -1
      else if (N_of_ascii y <? N_of_ascii x)%N then 1
      else code_unit_order a' b'
  end.

(** A folder with two documents, a text file and a file of another
    folder beside it. *)
Definition mixed_folder : gmap (string * string) text :=
  {[ ("minutes"%string, "team.json"%string) := stringify (doc_value doc);
     ("minutes"%string, "Board.JSON"%string) := [];
     ("minutes"%string, "notes.txt"%string) := lit "hello";
     ("archive"%string, "old.json"%string) := [] ]}.

End Sample.

(* ================================================================== *)
(** * Objects as finite maps *)
(* ================================================================== *)

Lemma obj_get_set k k' v o :
  obj_get k (obj_set k' v o) = if String.eqb k k' then Some v else obj_get k o.
Proof.
  induction o as [|[k0 v0] o IH]; simpl.
  - by destruct (String.eqb k k').
  - destruct (String.eqb_spec k' k0) as [->|Hne]; simpl.
    + by destruct (String.eqb k k0).
    + destruct (String.eqb_spec k k0) as [->|Hne'].
      * destruct (String.eqb_spec k0 k') as [->|]; [done|reflexivity].
      * exact IH.
Qed.

(** Assigning a list of properties: the last binding of a key wins. *)
Lemma obj_get_assign k o ps :
  obj_get k (obj_assign o ps) =
    match obj_get k (obj_assign [] ps) with
    | Some v => Some v
    | None => obj_get k o
    end.
Proof.
  unfold obj_assign. revert o.
  induction ps as [|[k' v'] ps IH] using rev_ind; intros o; simpl; [done|].
  rewrite !fold_left_app; simpl. rewrite !obj_get_set.
  destruct (String.eqb k k'); [done|]. apply IH.
Qed.

Lemma obj_set_fresh k v o :
  obj_get k o = None -> obj_set k v o = o ++ [(k, v)].
Proof.
  induction o as [|[k0 v0] o IH]; simpl; [done|].
  destruct (String.eqb k k0); [done|]. intros H. by rewrite IH.
Qed.

Lemma obj_get_app_fresh k o ps :
  obj_get k (o ++ ps) =
    match obj_get k o with Some v => Some v | None => obj_get k ps end.
Proof.
  induction o as [|[k0 v0] o IH]; simpl; [done|].
  by destruct (String.eqb k k0).
Qed.

(** Property names that are pairwise distinct, as those of an object are. *)
Lemma obj_assign_distinct o ps :
  NoDup (map fst (o ++ ps)) -> obj_assign o ps = o ++ ps.
Proof.
  unfold obj_assign. revert o.
  induction ps as [|[k v] ps IH]; intros o Hnd; simpl.
  - by rewrite app_nil_r.
  - rewrite obj_set_fresh.
    + rewrite IH; rewrite <- app_assoc; done.
    + rewrite map_app in Hnd. simpl in Hnd.
      apply NoDup_app in Hnd as (_ & Hdisj & _).
      destruct (obj_get k o) as [x|] eqn:Hg; [|done].
      exfalso. apply (Hdisj k); [|left].
      clear -Hg. induction o as [|[k0 v0] o IH]; simpl in *; [done|].
      destruct (String.eqb_spec k k0) as [->|]; [left|right; auto].
Qed.

Lemma obj_assign_nil_distinct ps :
  NoDup (map fst ps) -> obj_assign [] ps = ps.
Proof. intros H. by rewrite obj_assign_distinct. Qed.

(** [{ ...a, ...b }], property by property. *)
Lemma obj_get_spread2 k a b :
  obj_get k (spread [a; b]) =
    match obj_get k (obj_assign [] (own_entries b)) with
    | Some v => Some v
    | None => obj_get k (obj_assign [] (own_entries a))
    end.
Proof. unfold spread; simpl. apply obj_get_assign. Qed.

Lemma field_object k o : NoDup (map fst o) -> field k (JObj o) = obj_get k o.
Proof. intros H. unfold field; simpl. by rewrite obj_assign_nil_distinct. Qed.

Lemma field_spread2 k a b :
  obj_get k (spread [a; b]) =
    match field k b with Some v => Some v | None => field k a end.
Proof. apply obj_get_spread2. Qed.

Lemma obj_set_keys k v o k' :
  k' ∈ map fst (obj_set k v o) -> k' = k \/ k' ∈ map fst o.
Proof.
  induction o as [|[k0 v0] o IH]; simpl.
  - intros ->%list_elem_of_singleton. by left.
  - destruct (String.eqb_spec k k0) as [->|Hne]; simpl.
    + by right.
    + intros [->|Hin]%elem_of_cons; [right; left|].
      destruct (IH Hin) as [->|Hin']; [by left|right; by right].
Qed.

Lemma obj_set_NoDup k v o :
  NoDup (map fst o) -> NoDup (map fst (obj_set k v o)).
Proof.
  induction o as [|[k0 v0] o IH]; simpl.
  - intros _. apply NoDup_singleton.
  - intros [Hk0 Ho]%NoDup_cons.
    destruct (String.eqb_spec k k0) as [->|Hne]; simpl.
    + by apply NoDup_cons.
    + apply NoDup_cons. split; [|auto].
      intros [->|Hin]%obj_set_keys; [done|done].
Qed.

Lemma obj_assign_NoDup o ps :
  NoDup (map fst o) -> NoDup (map fst (obj_assign o ps)).
Proof.
  unfold obj_assign. revert o.
  induction ps as [|[k v] ps IH]; intros o Ho; simpl; [done|].
  by apply IH, obj_set_NoDup.
Qed.

Lemma spread_NoDup vs : NoDup (map fst (spread vs)).
Proof.
  unfold spread.
  assert (forall o, NoDup (map fst o) ->
            NoDup (map fst (fold_left (fun acc v => obj_assign acc (own_entries v)) vs o)))
    as H.
  { induction vs as [|v vs IH]; intros o Ho; simpl; [done|].
    by apply IH, obj_assign_NoDup. }
  apply H. constructor.
Qed.

Lemma obj_get_Some_elem k v o : obj_get k o = Some v -> (k, v) ∈ o.
Proof.
  induction o as [|[k0 v0] o IH]; simpl; [done|].
  destruct (String.eqb_spec k k0) as [->|Hne].
  - intros [= ->]. left.
  - intros H. right. auto.
Qed.

Lemma obj_get_elem k v o :
  NoDup (map fst o) -> (k, v) ∈ o -> obj_get k o = Some v.
Proof.
  induction o as [|[k0 v0] o IH]; simpl.
  - intros _ H. by apply elem_of_nil in H.
  - intros [Hk0 Ho]%NoDup_cons [[= -> ->]|Hin]%elem_of_cons.
    + by rewrite String.eqb_refl.
    + destruct (String.eqb_spec k k0) as [->|Hne]; [|auto].
      exfalso. apply Hk0. apply list_elem_of_fmap. by exists (k0, v).
Qed.

Lemma same_properties_Permutation a b :
  NoDup (map fst a) -> NoDup (map fst b) ->
  (forall k, obj_get k a = obj_get k b) -> a ≡ₚ b.
Proof.
  intros Ha Hb Hget. apply NoDup_Permutation.
  - by eapply NoDup_fmap_1.
  - by eapply NoDup_fmap_1.
  - intros [k v]. split; intros Hin.
    + apply obj_get_Some_elem. rewrite <- Hget. by apply obj_get_elem.
    + apply obj_get_Some_elem. rewrite Hget. by apply obj_get_elem.
Qed.

(* ================================================================== *)
(** * Running the section operations *)
(* ================================================================== *)

(** Unfolds one operation of either store down to the state it returns. *)
Ltac run_store :=
  unfold touches_only, data_after,
    Storage.saveDraft, Storage.clearDraft, Storage.saveMeeting,
    Storage.deleteMeeting, Storage.saveSettings, Storage.saveAttendees,
    Storage._save,
    DbJson.saveDraft, DbJson.clearDraft, DbJson.saveMeeting,
    DbJson.deleteMeeting, DbJson.saveSettings, DbJson.saveAttendees,
    DbJson._save,
    bind, assign_data, read_data, get_this, lift, throw, ret, write_file,
    with_this;
  simpl.

(** Case analysis on the innermost scrutinee left in the goal. *)
Ltac destruct_inner :=
  match goal with
  | |- context [match ?x with _ => _ end] =>
      lazymatch x with
      | context [match _ with _ => _ end] => fail
      | _ => destruct x eqn:?
      end
  end.

Ltac frame_op :=
  run_store; intros s; destruct s as [[dh [h|] fn [D|]] dk cs]; simpl;
  repeat (destruct_inner; simpl);
  auto; try (intros [] ?; simpl; congruence).

(* ================================================================== *)
(** * Each operation stays within its section *)
(* ================================================================== *)

Lemma saveDraft_frame m : touches_only Draft (Storage.saveDraft m).
Proof. frame_op. Qed.
Lemma clearDraft_frame : touches_only Draft Storage.clearDraft.
Proof. frame_op. Qed.
Lemma saveSettings_frame v : touches_only Settings (Storage.saveSettings v).
Proof. frame_op. Qed.
Lemma saveAttendees_frame l : touches_only Attendees (Storage.saveAttendees l).
Proof. frame_op. Qed.
Lemma saveMeeting_frame m : touches_only Meetings (Storage.saveMeeting m).
Proof. frame_op. Qed.
Lemma deleteMeeting_frame id : touches_only Meetings (Storage.deleteMeeting id).
Proof. frame_op. Qed.

(** C10.  Every section operation leaves the other three sections of the
    document in memory as they were, whether its save succeeds or throws:
    [saveDraft] and [clearDraft] touch only the draft, [saveMeeting] and
    [deleteMeeting] only the meetings, [saveSettings] only the settings,
    [saveAttendees] only the attendees.  Both stores. *)
Theorem section_operations_frame :
  (forall m, touches_only Draft (Storage.saveDraft m)) /\
  touches_only Draft Storage.clearDraft /\
  (forall m, touches_only Meetings (Storage.saveMeeting m)) /\
  (forall id, touches_only Meetings (Storage.deleteMeeting id)) /\
  (forall v, touches_only Settings (Storage.saveSettings v)) /\
  (forall l, touches_only Attendees (Storage.saveAttendees l)) /\
  (forall m, touches_only Draft (DbJson.saveDraft m)) /\
  touches_only Draft DbJson.clearDraft /\
  (forall m, touches_only Meetings (DbJson.saveMeeting m)) /\
  (forall id, touches_only Meetings (DbJson.deleteMeeting id)) /\
  (forall v, touches_only Settings (DbJson.saveSettings v)) /\
  (forall l, touches_only Attendees (DbJson.saveAttendees l)).
Proof.
  repeat split; intros;
    first [ apply saveDraft_frame | apply clearDraft_frame
          | apply saveMeeting_frame | apply deleteMeeting_frame
          | apply saveSettings_frame | apply saveAttendees_frame
          | frame_op ].
Qed.

(* ================================================================== *)
(** * Searching and filtering a meeting list *)
(* ================================================================== *)

Section ArrayCallbacks.
Variable p : value -> outcome bool.

Lemma findIndex_total l :
  Forall (fun x => exists b, p x = Return b) l -> exists r, findIndex p l = Return r.
Proof.
  induction 1 as [|x l [b Hb] _ [r IH]]; simpl; [eauto|].
  rewrite Hb; simpl. destruct b; [eauto|]. rewrite IH; simpl; eauto.
Qed.

Lemma findIndex_Some l i :
  findIndex p l = Return (Some i) ->
  exists x, l !! i = Some x /\ p x = Return true /\
    forall j y, (j < i)%nat -> l !! j = Some y -> p y = Return false.
Proof.
  revert i. induction l as [|x l IH]; intros i; simpl; [discriminate|].
  destruct (p x) as [[]| |] eqn:Hp; simpl; try discriminate.
  - intros [= <-]. exists x. repeat split; auto. intros j y Hj. lia.
  - destruct (findIndex p l) as [[k|]| |] eqn:Hf; simpl; try discriminate.
    intros [= <-]. destruct (IH k eq_refl) as (y & Hy & Hpy & Hbefore).
    exists y. repeat split; auto.
    intros [|j] z Hj Hz; simpl in Hz.
    + congruence.
    + apply (Hbefore j); [lia|done].
Qed.

Lemma findIndex_None l :
  findIndex p l = Return None -> Forall (fun x => p x = Return false) l.
Proof.
  induction l as [|x l IH]; simpl; [constructor|].
  destruct (p x) as [[]| |] eqn:Hp; simpl; try discriminate.
  destruct (findIndex p l) as [[k|]| |] eqn:Hf; simpl; try discriminate.
  intros _. constructor; auto.
Qed.

Lemma findIndex_no_match l :
  Forall (fun x => p x = Return false) l -> findIndex p l = Return None.
Proof.
  induction 1 as [|x l Hx _ IH]; simpl; [done|]. by rewrite Hx, IH.
Qed.

Lemma filterM_total l :
  Forall (fun x => exists b, p x = Return b) l ->
  filterM p l =
    Return (List.filter (fun x => match p x with Return b => b | _ => false end) l).
Proof.
  induction 1 as [|x l [b Hb] _ IH]; simpl; [done|].
  rewrite Hb, IH; simpl. done.
Qed.
End ArrayCallbacks.

Lemma sublist_filter_bool (f : value -> bool) (l : list value) :
  sublist (List.filter f l) l.
Proof.
  induction l as [|x l IH]; simpl; [constructor|].
  destruct (f x); by constructor.
Qed.

(** What [saveMeeting] leaves in memory, whether or not the save that
    follows succeeds. *)
Lemma saveMeeting_data s D L m r :
  _data (this s) = Some D -> meetings D = JArr L ->
  findIndex (same_id m) L = Return r ->
  data_after (Storage.saveMeeting m) s =
    Some (set_meetings
            (JArr (match r with Some i => <[i := m]> L | None => L ++ [m] end)) D).
Proof.
  intros HD HL Hr. run_store. rewrite HD; simpl. rewrite HL; simpl.
  rewrite Hr; simpl. destruct r; simpl; rewrite HD; simpl;
    destruct (_fileHandle (this s)); reflexivity.
Qed.

Lemma deleteMeeting_data s D L id :
  _data (this s) = Some D -> meetings D = JArr L ->
  comparable (Some id) L ->
  data_after (Storage.deleteMeeting id) s =
    Some (set_meetings (JArr (List.filter (fun x => negb (has_id (Some id) x)) L)) D).
Proof.
  intros HD HL Hc. run_store. rewrite HD; simpl. rewrite HL; simpl.
  rewrite (filterM_total (id_is_not id) L).
  - simpl. rewrite HD; simpl.
    replace (List.filter _ L)
      with (List.filter (fun x => negb (has_id (Some id) x)) L).
    + destruct (_fileHandle (this s)); reflexivity.
    + apply List.filter_ext_in. intros x Hx.
      unfold comparable in Hc. rewrite List.Forall_forall in Hc.
      destruct (Hc x Hx) as [b Hb]. unfold has_id, id_is_not.
      rewrite Hb; simpl. by destruct b.
  - eapply Forall_impl; [exact Hc|]. intros x [b Hb]. unfold id_is_not.
    rewrite Hb; simpl; eauto.
Qed.

(** [===] on ids, against equality. *)
Lemma strict_eq_true a b : strict_eq a b = Return true -> a = b.
Proof.
  destruct a as [[|x|x|x|x|x]|], b as [[|y|y|y|y|y]|]; simpl; try discriminate;
    try done.
  - intros [= H]. by apply Bool.eqb_prop in H as ->.
  - intros [= H]. by apply Z.eqb_eq in H as ->.
  - intros [= H]. by apply String.eqb_eq in H as ->.
Qed.

Lemma strict_eq_false a b : strict_eq a b = Return false -> a <> b.
Proof.
  destruct a as [[|x|x|x|x|x]|], b as [[|y|y|y|y|y]|]; simpl; try discriminate;
    try (intros _; discriminate).
  - intros [= H] [= ->]. by rewrite Bool.eqb_reflx in H.
  - intros [= H] [= ->]. by rewrite Z.eqb_refl in H.
  - intros [= H] [= ->]. by rewrite String.eqb_refl in H.
Qed.

Lemma same_id_true m x : same_id m x = Return true -> id_of x = id_of m.
Proof.
  unfold same_id, id_of.
  destruct (get_prop "id" x); simpl; try discriminate.
  destruct (get_prop "id" m); simpl; try discriminate.
  apply strict_eq_true.
Qed.

Lemma same_id_false m x : same_id m x = Return false -> id_of x <> id_of m.
Proof.
  unfold same_id, id_of.
  destruct (get_prop "id" x); simpl; try discriminate.
  destruct (get_prop "id" m); simpl; try discriminate.
  apply strict_eq_false.
Qed.

Lemma strict_eq_plain a b : plain_id b -> exists r, strict_eq a b = Return r.
Proof.
  destruct b as [[| | | | |]|], a as [[| | | | |]|]; simpl; try discriminate; eauto.
Qed.

Lemma get_prop_not_null k x : x <> JNull -> exists a, get_prop k x = Return a.
Proof. destruct x; try done; simpl; eauto. Qed.

Lemma get_prop_id_of m : m <> JNull -> get_prop "id" m = Return (id_of m).
Proof. unfold id_of. by destruct m. Qed.

Lemma same_id_plain m x :
  x <> JNull -> m <> JNull -> plain_id (id_of m) ->
  exists b, same_id m x = Return b.
Proof.
  intros Hx Hm Hp. unfold same_id.
  destruct (get_prop_not_null "id" x Hx) as [a Ha].
  rewrite Ha, (get_prop_id_of m Hm). cbn [obind]. by apply strict_eq_plain.
Qed.

Lemma id_is_plain id x :
  x <> JNull -> primitive id = true -> exists b, id_is (Some id) x = Return b.
Proof.
  intros Hx Hp. unfold id_is.
  destruct (get_prop_not_null "id" x Hx) as [a Ha].
  rewrite Ha. cbn [obind]. by apply strict_eq_plain.
Qed.

Lemma plain_comparable_with m L :
  Forall (fun x => x <> JNull) L -> m <> JNull -> plain_id (id_of m) ->
  comparable_with m L.
Proof.
  intros HL Hm Hp. eapply Forall_impl; [exact HL|].
  intros x Hx. by apply same_id_plain.
Qed.

Lemma plain_comparable id L :
  Forall (fun x => x <> JNull) L -> primitive id = true ->
  comparable (Some id) L.
Proof.
  intros HL Hp. eapply Forall_impl; [exact HL|].
  intros x Hx. by apply id_is_plain.
Qed.

Lemma id_is_true id x : id_is (Some id) x = Return true -> id_of x = Some id.
Proof.
  unfold id_is, id_of. destruct (get_prop "id" x); simpl; try discriminate.
  apply strict_eq_true.
Qed.

Lemma id_is_false id x : id_is (Some id) x = Return false -> id_of x <> Some id.
Proof.
  unfold id_is, id_of. destruct (get_prop "id" x); simpl; try discriminate.
  apply strict_eq_false.
Qed.

(** C5.  On a list [L] without null entries, for a meeting [m] and an
    id that [===] compares by content: [saveMeeting m] puts [m] in the
    place of the first entry of [L] whose id is that of [m], when there
    is one, the list being otherwise unchanged, and appends [m] at the
    end when no entry has that id.  [deleteMeeting id] keeps exactly the
    entries whose id is not [id], each as often as it occurs and in
    their order.  Ids are compared as values ([id_of]), not through the
    callbacks of the code. *)
Theorem saveMeeting_upserts_deleteMeeting_filters s D L m id :
  _data (this s) = Some D -> meetings D = JArr L ->
  Forall (fun x => x <> JNull) L ->
  m <> JNull -> plain_id (id_of m) -> primitive id = true ->
  (exists L',
     data_after (Storage.saveMeeting m) s = Some (set_meetings (JArr L') D) /\
     ((exists x, x ∈ L /\ id_of x = id_of m) ->
        exists i x, L !! i = Some x /\ id_of x = id_of m /\
          (forall j y, (j < i)%nat -> L !! j = Some y -> id_of y <> id_of m) /\
          L' = <[i := m]> L) /\
     ((forall x, x ∈ L -> id_of x <> id_of m) -> L' = L ++ [m])) /\
  (exists K keep,
     data_after (Storage.deleteMeeting id) s = Some (set_meetings (JArr K) D) /\
     (forall x, x ∈ L -> (keep x = true <-> id_of x <> Some id)) /\
     K = List.filter keep L /\
     (forall x, x ∈ K <-> x ∈ L /\ id_of x <> Some id) /\
     sublist K L).
Proof.
  intros HD HL Hnn Hm Hp Hid.
  pose proof (plain_comparable_with m L Hnn Hm Hp) as Hc.
  pose proof (plain_comparable id L Hnn Hid) as Hc'.
  split.
  - destruct (findIndex_total _ _ Hc) as [r Hr].
    eexists. split; [eapply saveMeeting_data; eauto|]. split.
    + intros (x & Hx & Hmx). destruct r as [i|].
      * destruct (findIndex_Some _ _ _ Hr) as (y & Hy & Hpy & Hbefore).
        exists i, y. split; [done|]. split; [by apply same_id_true|].
        split; [|done].
        intros j z Hj Hz. apply same_id_false. by apply (Hbefore j z).
      * apply findIndex_None in Hr. rewrite Forall_forall in Hr.
        by destruct (same_id_false m x (Hr x Hx)).
    + intros Hnone. destruct r as [i|]; [|done].
      destruct (findIndex_Some _ _ _ Hr) as (y & Hy & Hpy & _).
      assert (y ∈ L) as Hin by (eapply list_elem_of_lookup_2; eauto).
      by destruct (Hnone y Hin (same_id_true m y Hpy)).
  - assert (forall x, x ∈ L ->
              (negb (has_id (Some id) x) = true <-> id_of x <> Some id)) as Hkeep.
    { intros x Hx. unfold comparable in Hc'. rewrite Forall_forall in Hc'.
      destruct (Hc' x Hx) as [b Hb]. unfold has_id. rewrite Hb.
      destruct b; simpl.
      - split; [discriminate|]. intros Hne. by destruct (Hne (id_is_true id x Hb)).
      - split; [|done]. intros _. by apply id_is_false. }
    exists (List.filter (fun x => negb (has_id (Some id) x)) L),
           (fun x => negb (has_id (Some id) x)).
    split; [eapply deleteMeeting_data; eauto|]. split; [exact Hkeep|].
    split; [done|]. split.
    + intros x. rewrite !list_elem_of_In, List.filter_In. split.
      * intros [Hx Hk]. split; [done|]. apply Hkeep; [|done].
        by apply list_elem_of_In.
      * intros [Hx Hk]. split; [done|]. apply Hkeep; [|done].
        by apply list_elem_of_In.
    + apply sublist_filter_bool.
Qed.

(* ================================================================== *)
(** * Sorting by finalization timestamp *)
(* ================================================================== *)

Lemma stamp_finalized x n : finalized x = Return n -> stamp x = n.
Proof. unfold stamp. by intros ->. Qed.

Lemma by_finalizedAt_stamp a b :
  timed a -> timed b -> by_finalizedAt a b = Return (stamp b - stamp a).
Proof.
  intros [na Ha] [nb Hb]. rewrite (stamp_finalized _ _ Ha), (stamp_finalized _ _ Hb).
  unfold finalized, by_finalizedAt in *.
  destruct (get_prop "finalizedAt" b) as [fb| |]; simpl in *; try discriminate.
  destruct (get_prop "finalizedAt" a) as [fa| |]; simpl in *; try discriminate.
  rewrite Hb, Ha. reflexivity.
Qed.

Lemma insert_sorted_spec x l :
  timed x -> Forall timed l -> StronglySorted not_before l ->
  exists r, insert_sorted by_finalizedAt x l = Return r /\
            r ≡ₚ x :: l /\ StronglySorted not_before r.
Proof.
  intros Hx Hl Hs. induction l as [|y l IH]; simpl.
  - exists [x]. repeat split; auto. repeat constructor.
  - inversion Hl as [|? ? Hy Hl']; subst.
    inversion Hs as [|? ? Hs' Hyl]; subst.
    rewrite (by_finalizedAt_stamp x y Hx Hy); simpl.
    destruct (Z.leb_spec (stamp y - stamp x) 0) as [Hle|Hgt].
    + exists (x :: y :: l). repeat split; auto.
      constructor; [done|]. constructor.
      * unfold not_before. lia.
      * eapply Forall_impl; [exact Hyl|]. unfold not_before. intros z Hz. lia.
    + destruct (IH Hl' Hs') as (r & Hr & Hperm & Hsorted).
      rewrite Hr; simpl. exists (y :: r). repeat split.
      * rewrite Hperm. apply Permutation_swap.
      * constructor; [done|]. rewrite Hperm. constructor; [|done].
        unfold not_before. lia.
Qed.

Lemma sort_spec l :
  Forall timed l ->
  exists r, sort by_finalizedAt l = Return r /\
            r ≡ₚ l /\ StronglySorted not_before r.
Proof.
  induction 1 as [|x l Hx Hl (r & Hr & Hperm & Hsorted)]; simpl.
  - exists []. repeat split; auto. constructor.
  - rewrite Hr; simpl.
    destruct (insert_sorted_spec x r Hx) as (r' & Hr' & Hperm' & Hsorted'); auto.
    + by rewrite Hperm.
    + exists r'. repeat split; auto. by rewrite Hperm', Hperm.
Qed.

Lemma StronglySorted_lookup_le (R : value -> value -> Prop) l i j x y :
  StronglySorted R l -> (i < j)%nat -> l !! i = Some x -> l !! j = Some y -> R x y.
Proof.
  intros Hs. revert i j. induction Hs as [|a l Hs IH Ha]; intros i j Hij Hi Hj.
  - by rewrite lookup_nil in Hi.
  - destruct i as [|i], j as [|j]; simpl in *; try lia.
    + injection Hi as ->. rewrite Forall_forall in Ha. apply Ha.
      eapply list_elem_of_lookup_2; eauto.
    + apply (IH i j); auto. lia.
Qed.

Lemma getAllMeetings_run s D L :
  _data (this s) = Some D -> meetings D = JArr L ->
  Storage.getAllMeetings s = (sort by_finalizedAt L, s).
Proof.
  intros HD HL. unfold Storage.getAllMeetings, bind, read_data, lift.
  rewrite HD, HL; simpl. by destruct (sort by_finalizedAt L).
Qed.

Lemma DbJson_getAllMeetings : DbJson.getAllMeetings = Storage.getAllMeetings.
Proof. reflexivity. Qed.

(** What the comparator makes of a timestamp is the timestamp: the [|| 0]
    turns a missing, null or zero [finalizedAt] into 0 and leaves every
    other number alone. *)
Lemma dated_stamp x : dated x -> timed x /\ stamp x = timestamp x.
Proof.
  intros (o & -> & Hf). unfold timed, stamp, finalized, timestamp. simpl.
  destruct (obj_get "finalizedAt" o) as [[| |n| | |]|]; try done; simpl;
    try (split; [by eexists|done]).
  destruct (Z.eqb_spec n 0) as [->|Hn]; simpl; (split; [by eexists|done]).
Qed.

Lemma dated_timed L : Forall dated L -> Forall timed L.
Proof.
  intros H. eapply Forall_impl; [exact H|]. intros x Hx. by apply dated_stamp.
Qed.

Lemma sorted_by_timestamp R :
  Forall dated R -> StronglySorted not_before R -> StronglySorted newest_first R.
Proof.
  intros Hd Hs. induction Hs as [|x R Hs IH Hx]; [constructor|].
  apply Forall_cons in Hd as [Hdx Hd]. constructor; [by apply IH|].
  rewrite Forall_forall in Hx, Hd. apply Forall_forall. intros y Hy.
  specialize (Hx y Hy). unfold not_before, newest_first in *.
  destruct (dated_stamp x Hdx) as [_ <-].
  destruct (dated_stamp y (Hd y Hy)) as [_ <-]. done.
Qed.

(** C6.  For a list of meetings whose [finalizedAt] is a number, null
    or missing, [getAllMeetings] leaves the store as it was and returns
    a permutation of the stored list in descending order of timestamp,
    a meeting without one counting as 0: an entry never comes before one
    with a greater timestamp.  So a meeting whose timestamp is missing
    or zero comes after every meeting with a positive one; it comes
    last, followed only by its like, when no timestamp is negative.
    The timestamp is read off the meeting ([timestamp]), not through the
    comparator. *)
Theorem getAllMeetings_sorted_copy s D L :
  _data (this s) = Some D -> meetings D = JArr L ->
  Forall dated L ->
  exists R,
    Storage.getAllMeetings s = (Return R, s) /\
    DbJson.getAllMeetings s = (Return R, s) /\
    R ≡ₚ L /\
    StronglySorted newest_first R /\
    (forall i j x y, R !! i = Some x -> R !! j = Some y -> (i < j)%nat ->
                     timestamp y <= timestamp x) /\
    (forall i j x y, R !! i = Some x -> R !! j = Some y ->
                     timestamp x = 0 -> 0 < timestamp y -> (j < i)%nat) /\
    ((forall x, x ∈ L -> 0 <= timestamp x) ->
     forall i j x y, R !! i = Some x -> R !! j = Some y -> (i <= j)%nat ->
                     timestamp x = 0 -> timestamp y = 0).
Proof.
  intros HD HL Hd.
  destruct (sort_spec L (dated_timed L Hd)) as (R & HR & Hperm & Hsorted).
  assert (Forall dated R) as HdR by (by rewrite Hperm).
  pose proof (sorted_by_timestamp R HdR Hsorted) as Hnew.
  assert (forall i j x y, R !! i = Some x -> R !! j = Some y -> (i < j)%nat ->
                          timestamp y <= timestamp x) as Hle.
  { intros i j x y Hi Hj Hij.
    apply (StronglySorted_lookup_le newest_first R i j x y Hnew Hij Hi Hj). }
  exists R. rewrite DbJson_getAllMeetings, (getAllMeetings_run s D L HD HL), HR.
  split; [done|]. split; [done|]. split; [done|]. split; [done|].
  split; [exact Hle|]. split.
  - intros i j x y Hi Hj Hx Hy.
    destruct (lt_eq_lt_dec i j) as [[Hlt| ->]|Hgt]; [| |done].
    + pose proof (Hle i j x y Hi Hj Hlt). lia.
    + rewrite Hi in Hj. injection Hj as ->. lia.
  - intros Hpos i j x y Hi Hj Hij Hx.
    assert (0 <= timestamp y) as Hy.
    { apply Hpos. rewrite <- Hperm. eapply list_elem_of_lookup_2; eauto. }
    destruct (decide (i = j)) as [->|Hne]; [congruence|].
    pose proof (Hle i j x y Hi Hj ltac:(lia)). lia.
Qed.

Lemma stamp_missing o : obj_get "finalizedAt" o = None -> stamp (JObj o) = 0.
Proof. unfold stamp, finalized; simpl. by intros ->. Qed.

Lemma stamp_number o n :
  obj_get "finalizedAt" o = Some (JNum n) -> stamp (JObj o) = n.
Proof.
  unfold stamp, finalized; simpl. intros ->; simpl.
  destruct (Z.eqb_spec n 0); simpl; congruence.
Qed.

(* ================================================================== *)
(** * Saving: the guard and the overwrite *)
(* ================================================================== *)

(** An assignment to a section followed by [_save]. *)
Lemma assign_save_persists err f save s D :
  (forall s', save s' =
     match _fileHandle (this s') with
     | Some h => (Return tt, mkSys (this s') (<[h := stringify_data (this s')]> (disk s'))
                                   (console s'))
     | None => (Throw err, s')
     end) ->
  _data (this s) = Some D ->
  persists err (bind (assign_data f) (fun _ => save)) s.
Proof.
  intros Hsave HD. unfold persists, bind, assign_data. rewrite HD; simpl.
  rewrite Hsave; simpl. destruct (_fileHandle (this s)); simpl; auto.
Qed.

Lemma Storage_save_run s :
  Storage._save s =
    match _fileHandle (this s) with
    | Some h => (Return tt, mkSys (this s) (<[h := stringify_data (this s)]> (disk s))
                                  (console s))
    | None => (Throw (Error NoFileOpen), s)
    end.
Proof.
  unfold Storage._save, bind, get_this, throw, write_file.
  by destruct (_fileHandle (this s)).
Qed.

Lemma DbJson_save_run s :
  DbJson._save s =
    match _fileHandle (this s) with
    | Some h => (Return tt, mkSys (this s) (<[h := stringify_data (this s)]> (disk s))
                                  (console s))
    | None => (Throw (Error NoFolderCallConnect), s)
    end.
Proof.
  unfold DbJson._save, bind, get_this, throw, write_file.
  by destruct (_fileHandle (this s)).
Qed.

Lemma saveMeeting_persists s D L m :
  _data (this s) = Some D -> meetings D = JArr L -> comparable_with m L ->
  persists (Error NoFileOpen) (Storage.saveMeeting m) s /\
  persists (Error NoFolderCallConnect) (DbJson.saveMeeting m) s.
Proof.
  intros HD HL Hc. destruct (findIndex_total _ _ Hc) as [r Hr].
  split; unfold persists; run_store; rewrite HD; simpl; rewrite HL; simpl;
    rewrite Hr; simpl; destruct r; simpl; rewrite HD; simpl;
    destruct (_fileHandle (this s)); simpl; auto.
Qed.

Lemma filterM_id_is_not id L :
  comparable (Some id) L -> exists K, filterM (id_is_not id) L = Return K.
Proof.
  intros Hc. eexists. apply filterM_total.
  eapply Forall_impl; [exact Hc|]. intros x [b Hb]. unfold id_is_not.
  rewrite Hb; simpl; eauto.
Qed.

Lemma deleteMeeting_persists s D L id :
  _data (this s) = Some D -> meetings D = JArr L -> comparable (Some id) L ->
  persists (Error NoFileOpen) (Storage.deleteMeeting id) s /\
  persists (Error NoFolderCallConnect) (DbJson.deleteMeeting id) s.
Proof.
  intros HD HL Hc. destruct (filterM_id_is_not _ _ Hc) as [K HK].
  split; unfold persists; run_store; rewrite HD; simpl; rewrite HL; simpl;
    rewrite HK; simpl; rewrite HD; simpl;
    destruct (_fileHandle (this s)); simpl; auto.
Qed.





(* ================================================================== *)
(** * Finalizing a draft *)
(* ================================================================== *)




(* ================================================================== *)
(** * Binding a file and loading it *)
(* ================================================================== *)

Arguments JSON_parse : simpl never.
Arguments trim : simpl never.
Arguments stringify : simpl never.

Lemma openFile_run s d f :
  _dirHandle (this s) = Some d ->
  Storage.openFile f s = Storage._loadFromFile (bound d (json_name f) s).
Proof.
  intros Hd. destruct s as [[dh fh fn dt] dk cs]; simpl in *; subst.
  unfold Storage.openFile, bind, get_this, modify_this, getFileHandle, bound.
  simpl. fold (json_name f).
  destruct (dk !! (d, json_name f)); reflexivity.
Qed.

Lemma bound_content d name s :
  disk (bound d name s) !! (d, name) = Some (content (d, name) (disk s)).
Proof.
  unfold bound, content; cbn [disk].
  destruct (disk s !! (d, name)) eqn:E.
  - by rewrite E.
  - by rewrite lookup_insert_eq.
Qed.

Lemma connectFolder_run s d :
  DbJson.connectFolder (Some d) s = DbJson._loadFromFile (db_bound d s).
Proof.
  destruct s as [[dh fh fn dt] dk cs].
  unfold DbJson.connectFolder, bind, showDirectoryPicker, ret, modify_this,
    getFileHandle, db_bound. simpl.
  destruct (dk !! (d, "db.json"%string)); reflexivity.
Qed.

Lemma db_bound_content d s :
  disk (db_bound d s) !! (d, "db.json"%string)
  = Some (content (d, "db.json"%string) (disk s)).
Proof.
  unfold db_bound, content; cbn [disk].
  destruct (disk s !! (d, "db.json"%string)) eqn:E.
  - by rewrite E.
  - by rewrite lookup_insert_eq.
Qed.

Lemma obj_has_get k o :
  obj_has k o = match obj_get k o with Some _ => true | None => false end.
Proof. reflexivity. Qed.

(** [_loadFromFile] of the multi-file store assigns to [_data] only. *)
Lemma load_run s h t D :
  _fileHandle (this s) = Some h -> disk s !! h = Some t ->
  _data (this s) = Some D ->
  fst (Storage._loadFromFile s) = fst (load_result t D) /\
  this (snd (Storage._loadFromFile s))
  = set_data (Some (snd (load_result t D))) (this s) /\
  disk (snd (Storage._loadFromFile s)) = disk s.
Proof.
  intros Hh Ht HD.
  destruct s as [[dh fh fn dt] dk cs]; simpl in *; subst.
  destruct D as [ds da dm dd].
  unfold Storage._loadFromFile, load_result, bind, get_this, file_text. simpl.
  rewrite Ht. destruct (trim t) as [|c r] eqn:Htrim; [done|].
  destruct (JSON_parse (c :: r)) as [v| | |] eqn:Hp; try done.
  destruct v as [|b|n|str|l|o]; simpl; try done.
  - by destruct b.
  - by destruct (n =? 0).
  - by destruct (String.eqb str "").
  - unfold lift, recognised.
    destruct (obj_has "settings" o || obj_has "meetings" o
              || obj_has "attendees" o || obj_has "draft" o) eqn:Hrec;
      simpl; [|done].
    unfold merge_sections, with_this, set_data, when, assign_data, ret; simpl.
    rewrite !obj_has_get.
    destruct (obj_get "settings" o) as [vs|]; simpl;
      [destruct (truthy vs && typeof_object vs); simpl|];
      (destruct (obj_get "attendees" o) as [[]|]; simpl);
      (destruct (obj_get "meetings" o) as [[]|]; simpl);
      (destruct (obj_get "draft" o) as [vd|]; simpl); done.
Qed.

(** And so does [_loadFromFile] of the single-file store; what its
    [catch] swallows leaves no assignment behind. *)
Lemma db_load_run s h t D :
  _fileHandle (this s) = Some h -> disk s !! h = Some t ->
  _data (this s) = Some D ->
  fst (DbJson._loadFromFile s) = fst (db_load_result t D) /\
  this (snd (DbJson._loadFromFile s))
  = set_data (Some (snd (db_load_result t D))) (this s) /\
  disk (snd (DbJson._loadFromFile s)) = disk s.
Proof.
  intros Hh Ht HD.
  destruct s as [[dh fh fn dt] dk cs]; simpl in *; subst.
  destruct D as [ds da dm dd].
  unfold DbJson._loadFromFile, db_load_result, bind, get_this, file_text. simpl.
  rewrite Ht. destruct (trim t) as [|c r] eqn:Htrim; [done|].
  unfold try_catch.
  destruct (JSON_parse (c :: r)) as [v| | |] eqn:Hp; try done.
  destruct v as [|b|n|str|l|o]; simpl; try done.
  unfold overlay_sections, with_this, set_data, when, assign_data, ret, lift; simpl.
  rewrite !obj_has_get.
  destruct (obj_get "settings" o) as [vs|]; simpl;
    [destruct (truthy vs); simpl|];
    (destruct (obj_get "attendees" o) as [va|]; simpl;
      [destruct (truthy va); simpl|]);
    (destruct (obj_get "meetings" o) as [vm|]; simpl;
      [destruct (truthy vm); simpl|]);
    (destruct (obj_get "draft" o) as [vd|]; simpl); done.
Qed.

Lemma load_result_foreign t D :
  foreign_text t -> load_result t D = (Return tt, D).
Proof.
  unfold foreign_text, load_result.
  destruct (trim t) as [|c r]; [done|].
  intros [Hf|[Hf|[(v & Hv & Hno)|(o & Ho & Hrec)]]].
  - done.
  - by rewrite Hf.
  - rewrite Hv. destruct v; try done. by destruct (Hno o).
  - by rewrite Ho, Hrec.
Qed.

Lemma db_load_result_foreign t D :
  foreign_text t -> db_load_result t D = (Return tt, D).
Proof.
  unfold foreign_text, db_load_result.
  destruct (trim t) as [|c r]; [done|].
  intros [Hf|[Hf|[(v & Hv & Hno)|(o & Ho & Hrec)]]].
  - done.
  - by rewrite Hf.
  - rewrite Hv. destruct v; try done. by destruct (Hno o).
  - rewrite Ho. unfold recognised in Hrec. rewrite !obj_has_get in Hrec.
    unfold overlay_sections. destruct D as [ds da dm dd]; simpl.
    destruct (obj_get "settings" o); [done|].
    destruct (obj_get "meetings" o); [done|].
    destruct (obj_get "attendees" o); [done|].
    destruct (obj_get "draft" o); done.
Qed.

Lemma load_result_recognised t o D :
  recognised_text t o -> load_result t D = (Return tt, merge_sections o D).
Proof.
  intros (Hne & Ho & Hrec). unfold load_result.
  destruct (trim t) as [|c r]; [done|]. by rewrite Ho, Hrec.
Qed.

(** What [openFile] returns and leaves in memory. *)
Lemma openFile_result s d f :
  _dirHandle (this s) = Some d ->
  let r := load_result (content (d, json_name f) (disk s)) Storage._empty in
  fst (Storage.openFile f s) = fst r /\
  data_after (Storage.openFile f) s = Some (snd r).
Proof.
  intros Hd. unfold data_after. rewrite (openFile_run s d f Hd).
  destruct (load_run (bound d (json_name f) s) (d, json_name f)
              (content (d, json_name f) (disk s)) Storage._empty)
    as (Hout & Hthis & _); auto using bound_content.
  simpl. rewrite Hout, Hthis. done.
Qed.

(** What [connectFolder] of the single-file store returns and leaves. *)
Lemma connectFolder_result s d D :
  _data (this s) = Some D ->
  let r := db_load_result (content (d, "db.json"%string) (disk s)) D in
  fst (DbJson.connectFolder (Some d) s) = fst r /\
  data_after (DbJson.connectFolder (Some d)) s = Some (snd r).
Proof.
  intros HD. unfold data_after. rewrite (connectFolder_run s d).
  destruct (db_load_run (db_bound d s) (d, "db.json"%string)
              (content (d, "db.json"%string) (disk s)) D)
    as (Hout & Hthis & _); auto using db_bound_content.
  simpl. rewrite Hout, Hthis. done.
Qed.

(* ================================================================== *)
(** * Printing and parsing numbers *)
(* ================================================================== *)

Lemma digit_char_spec d :
  0 <= d < 10 ->
  is_digit (digit_char d) = true /\ digit_val (digit_char d) = d /\
  (digit_char d = "0"%char <-> d = 0).
Proof.
  intros H.
  assert (d = 0 \/ d = 1 \/ d = 2 \/ d = 3 \/ d = 4 \/ d = 5 \/ d = 6 \/ d = 7
          \/ d = 8 \/ d = 9) as Hd by lia.
  repeat (destruct Hd as [->|Hd]); try subst d; repeat split; intros; try done.
Qed.

Lemma scan_digits_app ds a rest :
  forallb is_digit ds = true ->
  scan_digits a (ds ++ rest) = scan_digits (fold_left step_digit ds a) rest.
Proof.
  revert a. induction ds as [|c ds IH]; intros a; simpl; [done|].
  intros [Hc Hds]%andb_true_iff. rewrite Hc. by apply IH.
Qed.

(** The text after a number in the output of [stringify]. *)
Lemma delimited_not_digit rest :
  delimited rest ->
  (forall a, scan_digits a rest = (a, rest)) /\ starts_fraction rest = false.
Proof.
  destruct rest as [|c r]; simpl; [done|]. by intros [->| ->].
Qed.

Lemma digits_fuel_spec fuel n acc :
  0 <= n -> (Z.to_nat n < fuel)%nat ->
  exists ds, digits_fuel fuel n acc = ds ++ acc /\
    forallb is_digit ds = true /\
    (forall a, fold_left step_digit ds a = a * 10 ^ Z.of_nat (length ds) + n) /\
    (n = 0 -> ds = ["0"%char]) /\
    (0 < n -> exists c r, ds = c :: r /\ c <> "0"%char).
Proof.
  revert n acc. induction fuel as [|fuel IH]; intros n acc Hn Hfuel; [lia|].
  simpl. assert (0 <= n mod 10 < 10) as Hmod by (apply Z.mod_pos_bound; lia).
  destruct (digit_char_spec (n mod 10) Hmod) as (Hdig & Hval & Hzero).
  destruct (Z.ltb_spec n 10) as [Hlt|Hge].
  - exists [digit_char (n mod 10)]. rewrite Z.mod_small in * by lia.
    repeat split.
    + simpl. by rewrite Hdig.
    + intros a. simpl. unfold step_digit. rewrite Hval. lia.
    + by intros ->.
    + intros Hpos. eexists _, _. split; [done|]. rewrite Hzero. lia.
  - assert (0 < n / 10) as Hq by (apply Z.div_str_pos; lia).
    assert (n / 10 < n) as Hq' by (apply Z.div_lt; lia).
    destruct (IH (n / 10) (digit_char (n mod 10) :: acc))
      as (ds & Hds & Hall & Hfold & _ & Hlead); [lia|lia|].
    exists (ds ++ [digit_char (n mod 10)]). repeat split.
    + by rewrite Hds, <- app_assoc.
    + rewrite forallb_app, Hall. simpl. by rewrite Hdig.
    + intros a. rewrite fold_left_app, Hfold. simpl. unfold step_digit.
      rewrite Hval, length_app. simpl.
      replace (Z.of_nat (length ds + 1)) with (Z.succ (Z.of_nat (length ds))) by lia.
      rewrite Z.pow_succ_r by lia.
      pose proof (Z.div_mod n 10 ltac:(lia)). lia.
    + lia.
    + intros _. destruct (Hlead Hq) as (c & r & -> & Hc). by exists c, (r ++ [digit_char (n mod 10)]).
Qed.

Lemma print_nat_spec n :
  0 <= n ->
  exists ds, print_nat n = ds /\
    forallb is_digit ds = true /\
    fold_left step_digit ds 0 = n /\
    (n = 0 -> ds = ["0"%char]) /\
    (0 < n -> exists c r, ds = c :: r /\ c <> "0"%char).
Proof.
  intros Hn. unfold print_nat.
  destruct (digits_fuel_spec (S (Z.to_nat n)) n [] Hn) as (ds & Hds & Hall & Hfold & H0 & Hpos);
    [lia|].
  exists ds. rewrite app_nil_r in Hds.
  split; [done|]. split; [done|]. split; [|done].
  rewrite Hfold. lia.
Qed.

(** Reading back the digits of a natural number. *)
Lemma parse_unsigned_print_nat neg n rest :
  0 <= n <= max_safe -> delimited rest ->
  parse_unsigned neg (print_nat n ++ rest)
  = POk (JNum (if neg then - n else n), rest) /\
  exists c r, print_nat n = c :: r /\ is_digit c = true.
Proof.
  intros [Hn Hsafe] Hrest.
  destruct (print_nat_spec n Hn) as (ds & -> & Hall & Hfold & H0 & Hpos).
  destruct (delimited_not_digit rest Hrest) as [Hscan Hfrac].
  destruct (Z.eq_dec n 0) as [->|Hnz].
  - rewrite (H0 eq_refl). simpl. unfold number_tail. rewrite Hfrac. simpl.
    split; [by destruct neg|]. by eexists _, _.
  - destruct Hpos as (c & r & -> & Hc); [lia|].
    simpl in Hall. apply andb_true_iff in Hall as [Hdc Hall].
    split; [|by eexists _, _].
    simpl. destruct (Ascii.eqb_spec c "0"%char) as [->|_]; [done|].
    rewrite Hdc, (scan_digits_app r _ rest Hall), Hscan.
    unfold number_tail. rewrite Hfrac.
    simpl in Hfold. change (step_digit 0 c) with (digit_val c) in Hfold.
    rewrite Hfold. destruct (Z.leb_spec n max_safe); [done|lia].
Qed.

Lemma is_digit_codes c :
  is_digit c = true ->
  (c =? "n")%char = false /\ (c =? "t")%char = false /\ (c =? "f")%char = false /\
  (c =? dquote)%char = false /\ (c =? "-")%char = false /\
  is_json_ws c = false.
Proof.
  destruct c as [[] [] [] [] [] [] [] []]; try discriminate; done.
Qed.

(** Reading back an integer. *)
Lemma parse_value_number fuel n rest :
  safe_int n = true -> delimited rest ->
  parse_value (S fuel) (print_Z n ++ rest) = POk (JNum n, rest).
Proof.
  unfold safe_int. intros [Hlo Hhi]%andb_true_iff Hrest.
  apply Z.leb_le in Hlo, Hhi. unfold print_Z.
  destruct (Z.ltb_spec n 0) as [Hneg|Hpos].
  - destruct (parse_unsigned_print_nat true (- n) rest) as [Hp _]; [lia|done|].
    simpl. rewrite Hp. f_equal. f_equal. f_equal. lia.
  - destruct (parse_unsigned_print_nat false n rest) as (Hp & c & r & Hc & Hd);
      [lia|done|].
    rewrite Hc in *. destruct (is_digit_codes c Hd) as (H1 & H2 & H3 & H4 & H5 & H6).
    simpl in Hp. rewrite Hd in Hp.
    simpl. rewrite H6, H1, H2, H3, H4, H5, Hd. exact Hp.
Qed.

(* ================================================================== *)
(** * Printing and parsing strings *)
(* ================================================================== *)

Lemma parse_chars_quote_char c t :
  parse_chars (quote_char c ++ t) = cons_char c (parse_chars t).
Proof.
  destruct c as [[] [] [] [] [] [] [] []]; reflexivity.
Qed.

Lemma parse_chars_quote s rest :
  parse_chars (quote_chars s ++ dquote :: rest) = POk (s, rest).
Proof.
  induction s as [|c s IH]; simpl; [done|].
  rewrite <- app_assoc, parse_chars_quote_char, IH. done.
Qed.

(* ================================================================== *)
(** * The layout of [stringify] *)
(* ================================================================== *)

Lemma skip_ws_spaces n t : skip_ws (repeat " "%char n ++ t) = skip_ws t.
Proof. induction n as [|n IH]; simpl; auto. Qed.

Lemma skip_ws_nl n t : skip_ws (nl n ++ t) = skip_ws t.
Proof. unfold nl. simpl. apply skip_ws_spaces. Qed.

Lemma skip_ws_start c r : starts_value c = true -> skip_ws (c :: r) = c :: r.
Proof.
  unfold starts_value. simpl. destruct (is_json_ws c); [discriminate|done].
Qed.

Lemma parse_value_nl fuel n t : parse_value fuel (nl n ++ t) = parse_value fuel t.
Proof. destruct fuel; simpl; [done|]. by rewrite skip_ws_spaces. Qed.

Lemma is_digit_starts_value c : is_digit c = true -> starts_value c = true.
Proof. destruct c as [[] [] [] [] [] [] [] []]; try discriminate; done. Qed.

Lemma print_array ind x xs :
  print ind (JArr (x :: xs))
  = "["%char :: nl (ind + 2) ++ print (ind + 2) x ++ more_elems ind xs.
Proof.
  simpl. repeat f_equal.
  induction xs as [|y ys IH]; simpl; [done|]. repeat f_equal. exact IH.
Qed.

Lemma print_object ind k x xs :
  print ind (JObj ((k, x) :: xs))
  = "{"%char :: nl (ind + 2) ++ quote k ++ lit ": " ++ print (ind + 2) x
    ++ more_members ind xs.
Proof.
  simpl. rewrite <- !app_assoc. simpl. repeat f_equal.
  induction xs as [|[k' y] ys IH]; simpl; [done|].
  rewrite <- !app_assoc. simpl. repeat f_equal. exact IH.
Qed.

Lemma print_head ind v :
  exists c r, print ind v = c :: r /\ starts_value c = true.
Proof.
  destruct v as [|[]|n|s|[|x xs]|[|[k x] xs]]; try (by eexists _, _).
  simpl. unfold print_Z. destruct (Z.ltb_spec n 0); [by eexists _, _|].
  destruct (print_nat_spec n) as (ds & -> & Hall & _ & H0 & Hpos); [done|].
  destruct (Z.eq_dec n 0) as [->|Hnz].
  - rewrite (H0 eq_refl). by eexists _, _.
  - destruct Hpos as (c & r & -> & _); [lia|]. simpl in Hall.
    apply andb_true_iff in Hall as [Hc _]. exists c, r.
    split; [done|]. by apply is_digit_starts_value.
Qed.

Lemma skip_ws_print ind v t :
  exists c r, skip_ws (print ind v ++ t) = c :: r /\ print ind v ++ t = c :: r
              /\ starts_value c = true.
Proof.
  destruct (print_head ind v) as (c & r & Hp & Hc). exists c, (r ++ t).
  rewrite Hp. simpl app. split; [by apply skip_ws_start|done].
Qed.

Lemma delimited_more_elems ind xs rest : delimited (more_elems ind xs ++ rest).
Proof. destruct xs; simpl; auto. Qed.

Lemma delimited_more_members ind xs rest : delimited (more_members ind xs ++ rest).
Proof. destruct xs as [|[k y] ys]; simpl; auto. Qed.

(* ================================================================== *)
(** * [JSON.parse] after [JSON.stringify] *)
(* ================================================================== *)

Lemma parse_elems_S f t :
  parse_elems (S f) t =
    match parse_value f t with
    | POk (v, r) =>
        match skip_ws r with
        | [] => PSyntaxError
        | c :: r' =>
            if (c =? ",")%char then pmap (cons v) (parse_elems f r')
            else if (c =? "]")%char then POk ([v], r')
            else PSyntaxError
        end
    | PSyntaxError => PSyntaxError
    | PUnmodelled => PUnmodelled
    | POutOfFuel => POutOfFuel
    end.
Proof. reflexivity. Qed.

Lemma parse_members_S f t :
  parse_members (S f) t =
    match skip_ws t with
    | [] => PSyntaxError
    | q :: r0 =>
        if (q =? dquote)%char then
          match parse_chars r0 with
          | POk (k, r1) =>
              match skip_ws r1 with
              | [] => PSyntaxError
              | c1 :: r2 =>
                  if (c1 =? ":")%char then
                    match parse_value f r2 with
                    | POk (v, r3) =>
                        match skip_ws r3 with
                        | [] => PSyntaxError
                        | c :: r4 =>
                            if (c =? ",")%char then
                              pmap (cons (k, v)) (parse_members f r4)
                            else if (c =? "}")%char then POk ([(k, v)], r4)
                            else PSyntaxError
                        end
                    | PSyntaxError => PSyntaxError
                    | PUnmodelled => PUnmodelled
                    | POutOfFuel => POutOfFuel
                    end
                  else PSyntaxError
              end
          | PSyntaxError => PSyntaxError
          | PUnmodelled => PUnmodelled
          | POutOfFuel => POutOfFuel
          end
        else PSyntaxError
    end.
Proof. reflexivity. Qed.

Lemma parse_value_array f t :
  parse_value (S f) ("["%char :: t) =
    match skip_ws t with
    | [] => PSyntaxError
    | c' :: r' =>
        if (c' =? "]")%char then POk (JArr [], r')
        else pmap JArr (parse_elems f t)
    end.
Proof. reflexivity. Qed.

Lemma parse_value_object f t :
  parse_value (S f) ("{"%char :: t) =
    match skip_ws t with
    | [] => PSyntaxError
    | c' :: r' =>
        if (c' =? "}")%char then POk (JObj [], r')
        else pmap (fun ps => JObj (obj_assign [] ps)) (parse_members f t)
    end.
Proof. reflexivity. Qed.

Lemma parse_value_string f t :
  parse_value (S f) (dquote :: t) = pmap JStr (parse_chars t).
Proof. reflexivity. Qed.

Lemma parse_value_space f t :
  parse_value f (" "%char :: t) = parse_value f t.
Proof. by destruct f. Qed.

Arguments parse_value : simpl never.
Arguments parse_elems : simpl never.
Arguments parse_members : simpl never.
Arguments print : simpl never.
Arguments nl : simpl never.

Lemma distinct_NoDup l : distinct l = true -> NoDup l.
Proof.
  induction l as [|k l IH]; simpl; [constructor|].
  intros [Hk Hl]%andb_true_iff. constructor; [|auto].
  intros Hin. apply negb_true_iff in Hk.
  assert (existsb (String.eqb k) l = true) as E; [|congruence].
  apply existsb_exists. exists k. split; [by apply list_elem_of_In|].
  apply String.eqb_refl.
Qed.

Arguments more_elems : simpl never.
Arguments more_members : simpl never.

Lemma more_elems_cons ind y ys :
  more_elems ind (y :: ys)
  = ","%char :: nl (ind + 2) ++ print (ind + 2) y ++ more_elems ind ys.
Proof. reflexivity. Qed.

Lemma more_members_cons ind k y ys :
  more_members ind ((k, y) :: ys)
  = ","%char :: nl (ind + 2) ++ quote k ++ lit ": " ++ print (ind + 2) y
    ++ more_members ind ys.
Proof. reflexivity. Qed.

Lemma skip_ws_close ind c rest :
  is_json_ws c = false -> skip_ws ((nl ind ++ [c]) ++ rest) = c :: rest.
Proof.
  intros Hc. rewrite <- app_assoc, skip_ws_nl. simpl. by rewrite Hc.
Qed.

Lemma parse_elems_print ind xs :
  Forall reads_back xs ->
  forall x fuel rest,
    reads_back x -> wf x = true -> forallb wf xs = true ->
    (fold_right (fun x n => S (need x + n)) O (x :: xs) <= fuel)%nat ->
    delimited rest ->
    parse_elems fuel (nl (ind + 2) ++ print (ind + 2) x ++ more_elems ind xs ++ rest)
    = POk (x :: xs, rest).
Proof.
  induction 1 as [|y ys Hy Hys IH]; intros x fuel rest Hx Hwx Hwxs Hfuel Hrest;
    (destruct fuel as [|f]; [simpl in Hfuel; lia|]); simpl in Hfuel, Hwxs;
    rewrite parse_elems_S, parse_value_nl,
      (Hx (ind + 2)%nat f _ Hwx ltac:(lia) (delimited_more_elems _ _ _)).
  - change (more_elems ind []) with (nl ind ++ ["]"%char]).
    by rewrite skip_ws_close.
  - apply andb_true_iff in Hwxs as [Hwy Hwys].
    rewrite more_elems_cons, <- app_comm_cons, <- !app_assoc.
    change (skip_ws (","%char :: ?t)) with (","%char :: t). cbv iota beta.
    change ("," =? ",")%char with true. cbv iota.
    by rewrite (IH y f rest Hy Hwy Hwys ltac:(simpl; lia) Hrest).
Qed.

Lemma parse_members_head f n k t :
  parse_members (S f) (nl n ++ quote k ++ lit ": " ++ t) =
    match parse_value f t with
    | POk (v, r3) =>
        match skip_ws r3 with
        | [] => PSyntaxError
        | c :: r4 =>
            if (c =? ",")%char then pmap (cons (k, v)) (parse_members f r4)
            else if (c =? "}")%char then POk ([(k, v)], r4)
            else PSyntaxError
        end
    | PSyntaxError => PSyntaxError
    | PUnmodelled => PUnmodelled
    | POutOfFuel => POutOfFuel
    end.
Proof.
  rewrite parse_members_S, skip_ws_nl. unfold quote. simpl.
  rewrite <- app_assoc. simpl. rewrite parse_chars_quote. simpl.
  by rewrite parse_value_space.
Qed.
Lemma parse_members_print ind xs :
  Forall (fun kv => reads_back (snd kv)) xs ->
  forall k x fuel rest,
    reads_back x -> wf x = true -> forallb (fun kv => wf (snd kv)) xs = true ->
    (fold_right (fun kv n => S (need (snd kv) + n)) O ((k, x) :: xs) <= fuel)%nat ->
    delimited rest ->
    parse_members fuel
      (nl (ind + 2) ++ quote k ++ lit ": " ++ print (ind + 2) x
       ++ more_members ind xs ++ rest)
    = POk ((k, x) :: xs, rest).
Proof.
  induction 1 as [|[k' y] ys Hy Hys IH]; intros k x fuel rest Hx Hwx Hwxs Hfuel Hrest;
    (destruct fuel as [|f]; [simpl in Hfuel; lia|]); simpl in Hfuel, Hwxs;
    rewrite parse_members_head,
      (Hx (ind + 2)%nat f _ Hwx ltac:(lia) (delimited_more_members _ _ _)).
  - change (more_members ind []) with (nl ind ++ ["}"%char]).
    by rewrite skip_ws_close.
  - apply andb_true_iff in Hwxs as [Hwy Hwys]. simpl in Hy.
    rewrite more_members_cons, <- app_comm_cons, <- !app_assoc.
    change (skip_ws (","%char :: ?t)) with (","%char :: t). cbv iota beta.
    change ("," =? ",")%char with true. cbv iota.
    by rewrite (IH k' y f rest Hy Hwy Hwys ltac:(simpl; lia) Hrest).
Qed.

Lemma skip_ws_quote k t : exists r, skip_ws (quote k ++ t) = dquote :: r.
Proof. unfold quote. simpl. eauto. Qed.

(** Every value reads back. *)
Lemma parse_print v : reads_back v.
Proof.
  induction v as [|b|n|s|l IH|o IH] using value_ind;
    intros ind fuel rest Hwf Hfuel Hrest;
    (destruct fuel as [|f]; [simpl in Hfuel; lia|]).
  - reflexivity.
  - by destruct b.
  - by apply parse_value_number.
  - change (print ind (JStr s)) with (quote s). unfold quote. simpl.
    rewrite parse_value_string, <- app_assoc. simpl.
    by rewrite parse_chars_quote.
  - destruct l as [|x xs]; [reflexivity|].
    rewrite print_array, <- app_comm_cons, <- !app_assoc.
    rewrite parse_value_array, skip_ws_nl.
    destruct (skip_ws_print (ind + 2) x (more_elems ind xs ++ rest))
      as (c & r & -> & _ & Hc).
    unfold starts_value in Hc.
    destruct (c =? "]")%char; [by rewrite andb_false_r in Hc|].
    inversion IH as [|? ? Hx Hxs]; subst.
    simpl in Hwf. apply andb_true_iff in Hwf as [Hwx Hwxs].
    rewrite (parse_elems_print ind xs Hxs x f rest Hx Hwx Hwxs); [done| |done].
    simpl in Hfuel |- *. lia.
  - destruct o as [|[k x] xs]; [reflexivity|].
    rewrite print_object, <- app_comm_cons, <- !app_assoc.
    rewrite parse_value_object, skip_ws_nl.
    destruct (skip_ws_quote k (lit ": " ++ print (ind + 2) x
                               ++ more_members ind xs ++ rest)) as [r ->].
    change (dquote =? "}")%char with false. cbv iota.
    inversion IH as [|? ? Hx Hxs]; subst. simpl in Hx.
    simpl in Hwf. apply andb_true_iff in Hwf as [Hdist [Hwx Hwxs]%andb_true_iff].
    rewrite (parse_members_print ind xs Hxs k x f rest Hx Hwx Hwxs); [| |done].
    + cbv beta iota delta [pmap]. rewrite obj_assign_nil_distinct; [done|].
      by apply (distinct_NoDup (k :: map fst xs)).
    + simpl in Hfuel |- *. lia.
Qed.

Lemma print_length ind v : (1 <= length (print ind v))%nat.
Proof.
  destruct (print_head ind v) as (c & r & -> & _). simpl. lia.
Qed.

(** Names the sizes in the goal, for linear arithmetic. *)
Ltac name_sizes :=
  repeat match goal with
    | |- context [@List.length ?A ?t] =>
        let n := fresh "n" in set (n := @List.length A t) in *; clearbody n
    | |- context [@fold_right ?A ?B ?f ?z ?l] =>
        let n := fresh "n" in set (n := @fold_right A B f z l) in *; clearbody n
    | |- context [need ?v] =>
        let n := fresh "n" in set (n := need v) in *; clearbody n
    end.

Lemma need_more_elems ind xs :
  Forall (fun v => forall ind, (need v + 1 <= 2 * length (print ind v))%nat) xs ->
  (fold_right (fun x n => S (need x + n)) O xs <= 2 * length (more_elems ind xs))%nat.
Proof.
  induction 1 as [|y ys Hy _ IH]; [simpl; lia|].
  rewrite more_elems_cons. simpl fold_right. simpl length.
  rewrite !length_app. specialize (Hy (ind + 2)%nat).
  name_sizes. lia.
Qed.

Lemma need_more_members ind xs :
  Forall (fun kv => forall ind, (need (snd kv) + 1 <= 2 * length (print ind (snd kv)))%nat) xs ->
  (fold_right (fun kv n => S (need (snd kv) + n)) O xs
   <= 2 * length (more_members ind xs))%nat.
Proof.
  induction 1 as [|[k y] ys Hy _ IH]; [simpl; lia|].
  rewrite more_members_cons. simpl fold_right. simpl length.
  unfold quote. repeat (rewrite length_app || (progress cbn [length app])).
  specialize (Hy (ind + 2)%nat). cbn [snd] in *. name_sizes. lia.
Qed.

(** The fuel [JSON_parse] gives itself is enough for what [stringify]
    wrote. *)
Lemma need_le_length v : forall ind, (need v + 1 <= 2 * length (print ind v))%nat.
Proof.
  induction v as [|b|n|s|l IH|o IH] using value_ind; intros ind;
    try (match goal with
         | |- context [print ind ?v] => pose proof (print_length ind v)
         end; simpl need; name_sizes; lia).
  - destruct l as [|x xs]; [simpl; lia|].
    inversion IH as [|? ? Hx Hxs]; subst.
    rewrite print_array. simpl need. simpl length. rewrite !length_app.
    pose proof (need_more_elems ind xs Hxs). specialize (Hx (ind + 2)%nat).
    name_sizes. lia.
  - destruct o as [|[k x] xs]; [simpl; lia|].
    inversion IH as [|? ? Hx Hxs]; subst.
    rewrite print_object. simpl need. unfold quote.
    repeat (rewrite length_app || (progress cbn [length app])).
    pose proof (need_more_members ind xs Hxs). specialize (Hx (ind + 2)%nat).
    cbn [snd] in *. name_sizes. lia.
Qed.

(** JSON.parse(JSON.stringify(v, null, 2)) is [v]. *)
Lemma JSON_parse_stringify v : wf v = true -> JSON_parse (stringify v) = POk v.
Proof.
  intros Hwf. unfold JSON_parse, stringify.
  pose proof (parse_print v 0%nat (2 * length (print 0 v) + 1)%nat [] Hwf) as E.
  rewrite app_nil_r in E. rewrite E; [done| |done].
  pose proof (need_le_length v 0%nat). lia.
Qed.

(* ================================================================== *)
(** * Trimming what [stringify] wrote *)
(* ================================================================== *)

Lemma trim_start_keep c t : is_js_ws c = false -> trim_start (c :: t) = c :: t.
Proof. simpl. by intros ->. Qed.

Lemma trim_keep c t c' :
  is_js_ws c = false -> is_js_ws c' = false ->
  trim (c :: t ++ [c']) = c :: t ++ [c'].
Proof.
  intros Hc Hc'. unfold trim. rewrite (trim_start_keep c _ Hc).
  change (c :: t ++ [c']) with ((c :: t) ++ [c']).
  rewrite rev_unit, (trim_start_keep c' _ Hc').
  change (rev (c' :: rev (c :: t))) with (rev (rev (c :: t)) ++ [c']).
  by rewrite rev_involutive.
Qed.

Lemma more_members_last ind xs : exists b, more_members ind xs = b ++ ["}"%char].
Proof.
  induction xs as [|[k y] ys [b IH]].
  - exists (nl ind). reflexivity.
  - rewrite more_members_cons, IH.
    exists (","%char :: nl (ind + 2) ++ quote k ++ lit ": " ++ print (ind + 2) y ++ b).
    by rewrite <- app_comm_cons, <- !app_assoc.
Qed.

Lemma trim_stringify_object k x xs :
  trim (stringify (JObj ((k, x) :: xs))) = stringify (JObj ((k, x) :: xs)).
Proof.
  unfold stringify. rewrite print_object.
  destruct (more_members_last 0 xs) as [b ->].
  rewrite !app_assoc. by apply trim_keep.
Qed.

(* ================================================================== *)
(** * [JSON_parse] never runs out of fuel *)
(* ================================================================== *)

Lemma parse_value_S f t :
  parse_value (S f) t =
    match skip_ws t with
    | [] => PSyntaxError
    | c :: r =>
        if (c =? "n")%char then literal "ull" JNull r
        else if (c =? "t")%char then literal "rue" (JBool true) r
        else if (c =? "f")%char then literal "alse" (JBool false) r
        else if (c =? dquote)%char then pmap JStr (parse_chars r)
        else if (c =? "-")%char then parse_unsigned true r
        else if is_digit c then parse_unsigned false (c :: r)
        else if (c =? "[")%char then
          match skip_ws r with
          | [] => PSyntaxError
          | c' :: r' =>
              if (c' =? "]")%char then POk (JArr [], r')
              else pmap JArr (parse_elems f r)
          end
        else if (c =? "{")%char then
          match skip_ws r with
          | [] => PSyntaxError
          | c' :: r' =>
              if (c' =? "}")%char then POk (JObj [], r')
              else pmap (fun ps => JObj (obj_assign [] ps)) (parse_members f r)
          end
        else PSyntaxError
    end.
Proof. reflexivity. Qed.

Lemma pmap_POk {A B} (g : A -> B) x b r :
  pmap g x = POk (b, r) -> exists a, x = POk (a, r) /\ b = g a.
Proof. destruct x as [[a r']| | |]; simpl; try discriminate. intros [= <- <-]. eauto. Qed.

Lemma pmap_fuel {A B} (g : A -> B) x : pmap g x = POutOfFuel -> x = POutOfFuel.
Proof. by destruct x as [[a r']| | |]. Qed.

Lemma skip_ws_length t : (length (skip_ws t) <= length t)%nat.
Proof.
  induction t as [|c t IH]; simpl; [lia|]. destruct (is_json_ws c); simpl; lia.
Qed.

Lemma skip_ws_cons t c r : skip_ws t = c :: r -> (length r < length t)%nat.
Proof. intros H. pose proof (skip_ws_length t) as L. rewrite H in L. simpl in L. lia. Qed.

Lemma strip_prefix_length p t r :
  strip_prefix p t = Some r -> (length r <= length t)%nat.
Proof.
  revert t. induction p as [|a p IH]; intros [|b t]; simpl; try discriminate.
  - intros [= <-]. simpl. lia.
  - intros [= <-]. simpl. lia.
  - destruct (a =? b)%char; [|discriminate]. intros H%IH. lia.
Qed.

Lemma literal_length s v t v' r :
  literal s v t = POk (v', r) -> (length r <= length t)%nat.
Proof.
  unfold literal. destruct (strip_prefix (lit s) t) eqn:E; [|discriminate].
  intros [= <- <-]. by eapply strip_prefix_length.
Qed.

Lemma scan_digits_spec a t n r :
  scan_digits a t = (n, r) -> 0 <= a -> (length r <= length t)%nat /\ 0 <= n.
Proof.
  revert a. induction t as [|c t IH]; intros a; simpl.
  - intros [= <- <-]. simpl. lia.
  - destruct (is_digit c) eqn:Hc.
    + intros H Ha. apply IH in H; [lia|].
      unfold is_digit in Hc. unfold digit_val. lia.
    + intros [= <- <-]. simpl. lia.
Qed.

Lemma number_tail_spec neg n r v r' :
  number_tail neg n r = POk (v, r') -> 0 <= n ->
  r' = r /\ exists m, v = JNum m /\ safe_int m = true.
Proof.
  unfold number_tail. destruct (starts_fraction r); [discriminate|].
  destruct (Z.leb_spec n max_safe); [|discriminate].
  intros [= <- <-] Hn. split; [done|]. eexists. split; [done|].
  unfold safe_int. destruct neg; lia.
Qed.

Lemma number_tail_fuel neg n r : number_tail neg n r <> POutOfFuel.
Proof.
  unfold number_tail. destruct (starts_fraction r); [done|].
  by destruct (n <=? max_safe).
Qed.

Lemma parse_unsigned_spec neg t v r :
  parse_unsigned neg t = POk (v, r) ->
  (length r < length t)%nat /\ exists m, v = JNum m /\ safe_int m = true.
Proof.
  destruct t as [|c t]; simpl; [discriminate|].
  destruct (c =? "0")%char.
  - intros (-> & Hm)%number_tail_spec; [|lia]. split; [lia|done].
  - destruct (is_digit c) eqn:Hc; [|discriminate].
    destruct (scan_digits (digit_val c) t) as [n r'] eqn:Hs.
    assert (0 <= digit_val c) as Hd
      by (unfold is_digit in Hc; unfold digit_val; lia).
    destruct (scan_digits_spec _ _ _ _ Hs Hd) as [Hlen Hn].
    intros (-> & Hm)%number_tail_spec; [|done]. split; [lia|done].
Qed.

Lemma parse_unsigned_fuel neg t : parse_unsigned neg t <> POutOfFuel.
Proof.
  destruct t as [|c t]; simpl; [done|].
  destruct (c =? "0")%char; [apply number_tail_fuel|].
  destruct (is_digit c); [|done].
  destruct (scan_digits (digit_val c) t). apply number_tail_fuel.
Qed.

Lemma literal_fuel s v t : literal s v t <> POutOfFuel.
Proof. unfold literal. by destruct (strip_prefix (lit s) t). Qed.

Lemma parse_chars_spec n :
  forall t, (length t <= n)%nat ->
    parse_chars t <> POutOfFuel /\
    forall s r, parse_chars t = POk (s, r) -> (length r < length t)%nat.
Proof.
  induction n as [|n IH]; intros [|c t] Hlen; simpl in *; try lia;
    try (split; [done|discriminate]).
  assert (forall t' c', (length t' <= n)%nat ->
            cons_char c' (parse_chars t') <> POutOfFuel /\
            forall s r, cons_char c' (parse_chars t') = POk (s, r) ->
                        (length r < length t')%nat) as Hrec.
  { intros t' c' Ht'. destruct (IH t' Ht') as [Hf Hl]. unfold cons_char. split.
    - by intros H%pmap_fuel.
    - intros s r (a & Ha & _)%pmap_POk. eauto. }
  destruct (c =? dquote)%char.
  { split; [done|]. intros s r [= <- <-]. lia. }
  destruct (c =? "\")%char.
  - destruct t as [|e r1]; [split; [done|discriminate]|].
    destruct (e =? "u")%char.
    + destruct r1 as [|h1 [|h2 [|h3 [|h4 r2]]]]; try (split; [done|discriminate]).
      destruct (hex4 h1 h2 h3 h4) as [m|]; [|split; [done|discriminate]].
      destruct (m <? 256)%N; [|split; [done|discriminate]].
      simpl in Hlen. destruct (Hrec r2 (ascii_of_N m)) as [Hf Hl]; [lia|].
      split; [done|]. intros s r H%Hl. simpl. lia.
    + destruct (unescape e) as [c'|]; [|split; [done|discriminate]].
      simpl in Hlen. destruct (Hrec r1 c') as [Hf Hl]; [lia|].
      split; [done|]. intros s r H%Hl. simpl. lia.
  - destruct (N_of_ascii c <? 32)%N; [split; [done|discriminate]|].
    destruct (Hrec t c) as [Hf Hl]; [lia|].
    split; [done|]. intros s r H%Hl. lia.
Qed.

Lemma parse_chars_length t s r :
  parse_chars t = POk (s, r) -> (length r < length t)%nat.
Proof. intros H. by eapply (parse_chars_spec (length t) t). Qed.

Lemma parse_chars_fuel t : parse_chars t <> POutOfFuel.
Proof. by eapply (parse_chars_spec (length t) t). Qed.

Lemma literal_value s v t v' r : literal s v t = POk (v', r) -> v' = v.
Proof.
  unfold literal. destruct (strip_prefix (lit s) t); [|discriminate]. by intros [= <- _].
Qed.

Lemma NoDup_distinct l : NoDup l -> distinct l = true.
Proof.
  induction 1 as [|k l Hk _ IH]; simpl; [done|]. rewrite IH, andb_true_r.
  apply negb_true_iff. destruct (existsb (String.eqb k) l) eqn:E; [|done].
  apply existsb_exists in E as (k' & Hin & ->%String.eqb_eq).
  by apply list_elem_of_In in Hin.
Qed.

Lemma obj_set_forallb (P : string * value -> bool) k v o :
  P (k, v) = true -> (forall k' , P (k, v) = true -> k' = k -> P (k', v) = true) ->
  forallb P o = true -> forallb P (obj_set k v o) = true.
Proof.
  intros Hv _. induction o as [|[k0 v0] o IH]; simpl; [by rewrite Hv|].
  intros [H0 Ho]%andb_true_iff.
  destruct (String.eqb_spec k k0) as [->|Hne]; simpl.
  - by rewrite Hv, Ho.
  - by rewrite H0, IH.
Qed.

Lemma obj_assign_wf o ps :
  forallb (fun kv => wf (snd kv)) o = true ->
  forallb (fun kv => wf (snd kv)) ps = true ->
  forallb (fun kv => wf (snd kv)) (obj_assign o ps) = true.
Proof.
  unfold obj_assign. revert o.
  induction ps as [|[k v] ps IH]; intros o Ho; simpl; [done|].
  intros [Hv Hps]%andb_true_iff. apply IH; [|done].
  by apply obj_set_forallb.
Qed.

Lemma parse_value_0 t : parse_value 0 t = POutOfFuel.
Proof. reflexivity. Qed.
Lemma parse_elems_0 t : parse_elems 0 t = POutOfFuel.
Proof. reflexivity. Qed.
Lemma parse_members_0 t : parse_members 0 t = POutOfFuel.
Proof. reflexivity. Qed.

(** What the parser accepts is shorter than what it was given, and what
    it returns is a value as JavaScript has it. *)
Lemma parse_spec f :
  (forall t v r, parse_value f t = POk (v, r) ->
     (length r < length t)%nat /\ wf v = true) /\
  (forall t vs r, parse_elems f t = POk (vs, r) ->
     (length r < length t)%nat /\ forallb wf vs = true) /\
  (forall t ps r, parse_members f t = POk (ps, r) ->
     (length r < length t)%nat /\ forallb (fun kv => wf (snd kv)) ps = true).
Proof.
  induction f as [|f (IHv & IHe & IHm)].
  { split; [|split]; intros t v r H;
      rewrite ?parse_value_0, ?parse_elems_0, ?parse_members_0 in H; discriminate. }
  split; [|split].
  - intros t v r. rewrite parse_value_S.
    destruct (skip_ws t) as [|c r0] eqn:Hs; [discriminate|].
    apply skip_ws_cons in Hs.
    destruct (c =? "n")%char.
    { intros H. pose proof (literal_length _ _ _ _ _ H).
      apply literal_value in H as ->. split; [lia|done]. }
    destruct (c =? "t")%char.
    { intros H. pose proof (literal_length _ _ _ _ _ H).
      apply literal_value in H as ->. split; [lia|done]. }
    destruct (c =? "f")%char.
    { intros H. pose proof (literal_length _ _ _ _ _ H).
      apply literal_value in H as ->. split; [lia|done]. }
    destruct (c =? dquote)%char.
    { intros (s & Hp%parse_chars_length & ->)%pmap_POk. split; [lia|done]. }
    destruct (c =? "-")%char.
    { intros (Hl & m & -> & Hm)%parse_unsigned_spec. split; [lia|done]. }
    destruct (is_digit c).
    { intros (Hl & m & -> & Hm)%parse_unsigned_spec. simpl in Hl. split; [lia|done]. }
    destruct (c =? "[")%char.
    { destruct (skip_ws r0) as [|c' r'] eqn:Hs'; [discriminate|].
      apply skip_ws_cons in Hs'.
      destruct (c' =? "]")%char.
      - intros [= <- <-]. split; [lia|done].
      - intros (vs & [Hl Hw]%IHe & ->)%pmap_POk. split; [lia|done]. }
    destruct (c =? "{")%char; [|discriminate].
    destruct (skip_ws r0) as [|c' r'] eqn:Hs'; [discriminate|].
    apply skip_ws_cons in Hs'.
    destruct (c' =? "}")%char.
    + intros [= <- <-]. split; [lia|done].
    + intros (ps & [Hl Hw]%IHm & ->)%pmap_POk. split; [lia|].
      change (wf (JObj ?o)) with
        (distinct (map fst o) && forallb (fun kv => wf (snd kv)) o).
      rewrite NoDup_distinct by (apply obj_assign_NoDup; constructor).
      by rewrite obj_assign_wf.
  - intros t vs r. rewrite parse_elems_S.
    destruct (parse_value f t) as [[v r0]| | |] eqn:Hv; try discriminate.
    apply IHv in Hv as [Hl Hw].
    destruct (skip_ws r0) as [|c r'] eqn:Hs; [discriminate|].
    apply skip_ws_cons in Hs.
    destruct (c =? ",")%char.
    + intros (vs' & [Hl' Hw']%IHe & ->)%pmap_POk. split; [lia|].
      simpl. by rewrite Hw, Hw'.
    + destruct (c =? "]")%char; [|discriminate].
      intros [= <- <-]. split; [lia|]. simpl. by rewrite Hw.
  - intros t ps r. rewrite parse_members_S.
    destruct (skip_ws t) as [|q r0] eqn:Hs; [discriminate|].
    apply skip_ws_cons in Hs.
    destruct (q =? dquote)%char; [|discriminate].
    destruct (parse_chars r0) as [[k r1]| | |] eqn:Hk; try discriminate.
    apply parse_chars_length in Hk.
    destruct (skip_ws r1) as [|c1 r2] eqn:Hs1; [discriminate|].
    apply skip_ws_cons in Hs1.
    destruct (c1 =? ":")%char; [|discriminate].
    destruct (parse_value f r2) as [[v r3]| | |] eqn:Hv; try discriminate.
    apply IHv in Hv as [Hl Hw].
    destruct (skip_ws r3) as [|c r4] eqn:Hs3; [discriminate|].
    apply skip_ws_cons in Hs3.
    destruct (c =? ",")%char.
    + intros (ps' & [Hl' Hw']%IHm & ->)%pmap_POk. split; [lia|].
      simpl. by rewrite Hw, Hw'.
    + destruct (c =? "}")%char; [|discriminate].
      intros [= <- <-]. split; [lia|]. simpl. by rewrite Hw.
Qed.

(** Twice the length of the text, and one more, is fuel enough. *)
Lemma parse_fuel f :
  (forall t, (2 * length t + 1 <= f)%nat -> parse_value f t <> POutOfFuel) /\
  (forall t, (2 * length t + 2 <= f)%nat -> parse_elems f t <> POutOfFuel) /\
  (forall t, (2 * length t + 2 <= f)%nat -> parse_members f t <> POutOfFuel).
Proof.
  induction f as [|f (IHv & IHe & IHm)]; [split; [|split]; intros; lia|].
  destruct (parse_spec f) as (Sv & Se & Sm).
  split; [|split].
  - intros t Hf. rewrite parse_value_S.
    destruct (skip_ws t) as [|c r0] eqn:Hs; [done|].
    apply skip_ws_cons in Hs.
    destruct (c =? "n")%char; [apply literal_fuel|].
    destruct (c =? "t")%char; [apply literal_fuel|].
    destruct (c =? "f")%char; [apply literal_fuel|].
    destruct (c =? dquote)%char.
    { intros H%pmap_fuel. by apply parse_chars_fuel in H. }
    destruct (c =? "-")%char; [apply parse_unsigned_fuel|].
    destruct (is_digit c); [apply parse_unsigned_fuel|].
    destruct (c =? "[")%char.
    { destruct (skip_ws r0) as [|c' r'] eqn:Hs'; [done|].
      destruct (c' =? "]")%char; [done|].
      intros H%pmap_fuel. revert H. apply IHe. lia. }
    destruct (c =? "{")%char; [|done].
    destruct (skip_ws r0) as [|c' r'] eqn:Hs'; [done|].
    destruct (c' =? "}")%char; [done|].
    intros H%pmap_fuel. revert H. apply IHm. lia.
  - intros t Hf. rewrite parse_elems_S.
    destruct (parse_value f t) as [[v r0]| | |] eqn:Hv; try done.
    + apply Sv in Hv as [Hl _].
      destruct (skip_ws r0) as [|c r'] eqn:Hs; [done|].
      apply skip_ws_cons in Hs.
      destruct (c =? ",")%char.
      * intros H%pmap_fuel. revert H. apply IHe. lia.
      * by destruct (c =? "]")%char.
    + exfalso. revert Hv. apply IHv. lia.
  - intros t Hf. rewrite parse_members_S.
    destruct (skip_ws t) as [|q r0] eqn:Hs; [done|].
    apply skip_ws_cons in Hs.
    destruct (q =? dquote)%char; [|done].
    destruct (parse_chars r0) as [[k r1]| | |] eqn:Hk; try done.
    + apply parse_chars_length in Hk.
      destruct (skip_ws r1) as [|c1 r2] eqn:Hs1; [done|].
      apply skip_ws_cons in Hs1.
      destruct (c1 =? ":")%char; [|done].
      destruct (parse_value f r2) as [[v r3]| | |] eqn:Hv; try done.
      * apply Sv in Hv as [Hl _].
        destruct (skip_ws r3) as [|c r4] eqn:Hs3; [done|].
        apply skip_ws_cons in Hs3.
        destruct (c =? ",")%char.
        -- intros H%pmap_fuel. revert H. apply IHm. lia.
        -- by destruct (c =? "}")%char.
      * exfalso. revert Hv. apply IHv. lia.
    + by apply parse_chars_fuel in Hk.
Qed.

(** [JSON_parse] is total: it returns a value, a syntax error, or the
    word that the text is outside the model. *)
Lemma JSON_parse_total t : JSON_parse t <> POutOfFuel.
Proof.
  unfold JSON_parse.
  destruct (parse_value (2 * length t + 1) t) as [[v r]| | |] eqn:H; try done.
  - by destruct (skip_ws r).
  - exfalso. revert H. by apply (parse_fuel (2 * length t + 1)).
Qed.

(** What [JSON_parse] returns has safe integers and, in every object,
    distinct property names. *)
Lemma JSON_parse_wf t v : JSON_parse t = POk v -> wf v = true.
Proof.
  unfold JSON_parse.
  destruct (parse_value (2 * length t + 1) t) as [[v' r]| | |] eqn:H; try done.
  destruct (skip_ws r); [|done]. intros [= <-].
  by apply (parse_spec (2 * length t + 1)) in H as [_ Hw].
Qed.

Lemma wf_obj_get k o v :
  wf (JObj o) = true -> obj_get k o = Some v -> wf v = true.
Proof.
  change (wf (JObj o)) with
    (distinct (map fst o) && forallb (fun kv => wf (snd kv)) o).
  intros [_ Hw]%andb_true_iff. induction o as [|[k0 v0] o IH]; simpl; [done|].
  simpl in Hw. apply andb_true_iff in Hw as [H0 Ho].
  destruct (String.eqb k k0); [by intros [= <-]|auto].
Qed.

Lemma wf_object_NoDup o : wf (JObj o) = true -> NoDup (map fst o).
Proof.
  change (wf (JObj o)) with
    (distinct (map fst o) && forallb (fun kv => wf (snd kv)) o).
  intros [Hd _]%andb_true_iff. by apply distinct_NoDup.
Qed.

(** Every text is blank, not JSON, foreign JSON, a recognised object, or
    outside the model. *)
Lemma text_cases t :
  foreign_text t \/ (exists o, recognised_text t o)
  \/ JSON_parse (trim t) = PUnmodelled.
Proof.
  unfold foreign_text, recognised_text.
  destruct (trim t) as [|c r] eqn:Htrim; [by left; left|].
  destruct (JSON_parse (c :: r)) as [v| | |] eqn:Hp.
  - destruct v as [| | | | |o];
      try (left; right; right; left; eexists; split; [reflexivity|done]).
    destruct (recognised o) eqn:Hrec.
    + right. left. by exists o.
    + left. right. right. right. by exists o.
  - left. right. by left.
  - right. by right.
  - by apply JSON_parse_total in Hp.
Qed.

(* ================================================================== *)
(** * What a bind reads *)
(* ================================================================== *)

(** C3.  When the file is blank, is not JSON, is JSON but not a plain
    object, or is an object with none of the four keys, [openFile]
    returns and the document is the default one; [connectFolder] of the
    single-file store returns and the document is the one it had. *)
Theorem foreign_file_keeps_defaults s d f :
  (_dirHandle (this s) = Some d ->
   foreign_text (content (d, json_name f) (disk s)) ->
   fst (Storage.openFile f s) = Return tt /\
   data_after (Storage.openFile f) s = Some Storage._empty) /\
  (forall D, _data (this s) = Some D ->
   foreign_text (content (d, "db.json"%string) (disk s)) ->
   fst (DbJson.connectFolder (Some d) s) = Return tt /\
   data_after (DbJson.connectFolder (Some d)) s = Some D).
Proof.
  split.
  - intros Hd Hf. destruct (openFile_result s d f Hd) as [Ho HD].
    rewrite Ho, HD. by rewrite load_result_foreign.
  - intros D HD Hf. destruct (connectFolder_result s d D HD) as [Ho HD'].
    rewrite Ho, HD'. by rewrite db_load_result_foreign.
Qed.

(** C4.  When the file holds an object with at least one of the four
    keys, [openFile] returns and, section by section: the settings are
    the defaults overridden property by property by the file's settings,
    when these are an object, and the defaults otherwise; attendees and
    meetings are the file's when they are lists and empty otherwise; the
    draft is the file's whenever the key is there, null included, and
    null otherwise.  [connectFolder] of the single-file store instead
    takes each of settings, attendees and meetings whole when the file's
    value is truthy, and otherwise keeps what is in memory; the draft it
    takes whenever the key is there. *)
Theorem recognised_file_merges_sections s d f o :
  (_dirHandle (this s) = Some d ->
   recognised_text (content (d, json_name f) (disk s)) o ->
   fst (Storage.openFile f s) = Return tt /\
   exists D', data_after (Storage.openFile f) s = Some D' /\
     (forall v, obj_get "settings" o = Some v ->
        truthy v && typeof_object v = true ->
        settings D' = JObj (spread [settings Storage._empty; v])) /\
     (forall po, obj_get "settings" o = Some (JObj po) ->
        exists so, settings D' = JObj so /\
          forall k, obj_get k so =
            match obj_get k po with
            | Some x => Some x
            | None => field k (settings Storage._empty)
            end) /\
     ((forall v, obj_get "settings" o = Some v ->
         truthy v && typeof_object v = false) ->
      settings D' = settings Storage._empty) /\
     (forall l, obj_get "attendees" o = Some (JArr l) -> attendees D' = JArr l) /\
     ((forall l, obj_get "attendees" o <> Some (JArr l)) -> attendees D' = JArr []) /\
     (forall l, obj_get "meetings" o = Some (JArr l) -> meetings D' = JArr l) /\
     ((forall l, obj_get "meetings" o <> Some (JArr l)) -> meetings D' = JArr []) /\
     (forall v, obj_get "draft" o = Some v -> draft D' = v) /\
     (obj_get "draft" o = None -> draft D' = JNull)) /\
  (forall D, _data (this s) = Some D ->
   trim (content (d, "db.json"%string) (disk s)) <> [] ->
   JSON_parse (trim (content (d, "db.json"%string) (disk s))) = POk (JObj o) ->
   fst (DbJson.connectFolder (Some d) s) = Return tt /\
   data_after (DbJson.connectFolder (Some d)) s = Some (overlay_sections o D)).
Proof.
  split.
  - intros Hd Hrec. destruct (openFile_result s d f Hd) as [Ho HD].
    rewrite Ho, HD, (load_result_recognised _ o _ Hrec). split; [done|].
    eexists. split; [reflexivity|]. simpl. repeat split.
    + intros v Hv Hobj. by rewrite Hv, Hobj.
    + intros po Hpo. rewrite Hpo. simpl. eexists. split; [reflexivity|].
      intros k. rewrite field_spread2, field_object; [done|].
      destruct Hrec as (_ & Hparse & _). apply JSON_parse_wf in Hparse.
      by eapply wf_object_NoDup, wf_obj_get.
    + intros Hnot. destruct (obj_get "settings" o) as [v|]; [|done].
      by rewrite (Hnot v eq_refl).
    + by intros l ->.
    + intros Hnot. destruct (obj_get "attendees" o) as [[]|]; try done.
      by destruct (Hnot l).
    + by intros l ->.
    + intros Hnot. destruct (obj_get "meetings" o) as [[]|]; try done.
      by destruct (Hnot l).
    + by intros v ->.
    + by intros ->.
  - intros D HD Hne Hp. destruct (connectFolder_result s d D HD) as [Ho HD'].
    rewrite Ho, HD'. unfold db_load_result.
    destruct (trim (content (d, "db.json"%string) (disk s))); [done|].
    by rewrite Hp.
Qed.

(** After [openFile], outcome and document are those of loading the
    file's text over the default document: two stores with the same
    folder and the same text in the file end with the same document,
    whatever they held before.  [connectFolder] of the single-file store
    loads db.json over the document in memory, which is kept as it is
    when the file is foreign. *)
Theorem openFile_forgets_previous_document s1 s2 d f :
  (_dirHandle (this s1) = Some d -> _dirHandle (this s2) = Some d ->
   content (d, json_name f) (disk s1) = content (d, json_name f) (disk s2) ->
   fst (Storage.openFile f s1) = fst (Storage.openFile f s2) /\
   data_after (Storage.openFile f) s1 = data_after (Storage.openFile f) s2 /\
   data_after (Storage.openFile f) s1
   = Some (snd (load_result (content (d, json_name f) (disk s1)) Storage._empty))) /\
  (forall D, _data (this s1) = Some D ->
   data_after (DbJson.connectFolder (Some d)) s1
   = Some (snd (db_load_result (content (d, "db.json"%string) (disk s1)) D)) /\
   (foreign_text (content (d, "db.json"%string) (disk s1)) ->
    data_after (DbJson.connectFolder (Some d)) s1 = Some D)).
Proof.
  split.
  - intros H1 H2 Hc.
    destruct (openFile_result s1 d f H1) as [Ho1 HD1].
    destruct (openFile_result s2 d f H2) as [Ho2 HD2].
    rewrite Ho1, Ho2, HD1, HD2, Hc. done.
  - intros D HD. destruct (connectFolder_result s1 d D HD) as [_ HD'].
    split; [done|]. intros Hf. by rewrite HD', db_load_result_foreign.
Qed.

(* ================================================================== *)
(** * The fixed ids of settings and draft *)
(* ================================================================== *)

Lemma id_of_forced v o : id_of (JObj (obj_set "id" v o)) = Some v.
Proof. unfold id_of; simpl. by rewrite obj_get_set. Qed.

Lemma saveSettings_data s D v :
  _data (this s) = Some D ->
  data_after (Storage.saveSettings v) s
  = Some (set_settings (JObj (obj_set "id" (JStr "app") (spread [v]))) D).
Proof.
  intros HD. run_store. rewrite HD; simpl.
  destruct (_fileHandle (this s)); reflexivity.
Qed.

Lemma saveDraft_data s D m :
  _data (this s) = Some D ->
  data_after (Storage.saveDraft m) s
  = Some (set_draft (JObj (obj_set "id" (JStr "current") (spread [m]))) D).
Proof.
  intros HD. run_store. rewrite HD; simpl.
  destruct (_fileHandle (this s)); reflexivity.
Qed.

Lemma clearDraft_data s D :
  _data (this s) = Some D ->
  data_after Storage.clearDraft s = Some (set_draft JNull D).
Proof.
  intros HD. run_store. rewrite HD; simpl.
  destruct (_fileHandle (this s)); reflexivity.
Qed.

(** An operation that leaves settings and draft alone keeps their ids. *)
Lemma ids_ok_frame {A} sec (m : M A) s D D' :
  touches_only sec m -> sec <> Settings -> sec <> Draft ->
  _data (this s) = Some D -> data_after m s = Some D' ->
  ids_ok D -> ids_ok D'.
Proof.
  intros Hm Hs Hd HD HD' [Hset Hdr]. specialize (Hm s).
  rewrite HD, HD' in Hm. simpl in Hm.
  pose proof (Hm Settings ltac:(congruence)) as E1.
  pose proof (Hm Draft ltac:(congruence)) as E2. simpl in E1, E2.
  unfold ids_ok, settings_id_ok, draft_id_ok. by rewrite <- E1, <- E2.
Qed.

(** C9.  [saveSettings] stores its argument with the id 'app' and
    [saveDraft] stores its argument with the id 'current', whatever id
    the argument has; the default document has these ids and every
    section operation preserves them.  A load takes the ids from the
    file: the settings' id is the file's when its settings have one, and
    'app' otherwise; the draft is the file's draft as it is. *)
Theorem ids_forced_on_save_copied_on_load s D :
  _data (this s) = Some D ->
  (forall v, exists D', data_after (Storage.saveSettings v) s = Some D' /\
     settings D' = JObj (obj_set "id" (JStr "app") (spread [v])) /\
     settings_id_ok D') /\
  (forall m, exists D', data_after (Storage.saveDraft m) s = Some D' /\
     draft D' = JObj (obj_set "id" (JStr "current") (spread [m])) /\
     id_of (draft D') = Some (JStr "current")) /\
  ids_ok Storage._empty /\
  (ids_ok D ->
   (forall v D', data_after (Storage.saveSettings v) s = Some D' -> ids_ok D') /\
   (forall m D', data_after (Storage.saveDraft m) s = Some D' -> ids_ok D') /\
   (forall D', data_after Storage.clearDraft s = Some D' -> ids_ok D') /\
   (forall m D', data_after (Storage.saveMeeting m) s = Some D' -> ids_ok D') /\
   (forall id D', data_after (Storage.deleteMeeting id) s = Some D' -> ids_ok D') /\
   (forall l D', data_after (Storage.saveAttendees l) s = Some D' -> ids_ok D')) /\
  (forall d f o, _dirHandle (this s) = Some d ->
     recognised_text (content (d, json_name f) (disk s)) o ->
     exists D', data_after (Storage.openFile f) s = Some D' /\
       (forall v, obj_get "settings" o = Some v ->
          truthy v && typeof_object v = true ->
          id_of (settings D') =
            match field "id" v with
            | Some x => Some x
            | None => Some (JStr "app")
            end) /\
       draft D' = default JNull (obj_get "draft" o)).
Proof.
  intros HD. split; [|split; [|split; [|split]]].
  - intros v. eexists. split; [by apply saveSettings_data|]. simpl.
    split; [done|]. apply id_of_forced.
  - intros m. eexists. split; [by apply saveDraft_data|]. simpl.
    split; [done|]. apply id_of_forced.
  - split; [done|by left].
  - intros [Hset Hdr]. split; [|split; [|split; [|split; [|split]]]].
    + intros v D'. rewrite (saveSettings_data s D v HD). intros [= <-].
      split; [apply id_of_forced|exact Hdr].
    + intros m D'. rewrite (saveDraft_data s D m HD). intros [= <-].
      split; [exact Hset|]. right. apply id_of_forced.
    + intros D'. rewrite (clearDraft_data s D HD). intros [= <-].
      split; [exact Hset|]. by left.
    + intros m D' HD'.
      by eapply (ids_ok_frame Meetings _ s D D' (saveMeeting_frame m)).
    + intros id D' HD'.
      by eapply (ids_ok_frame Meetings _ s D D' (deleteMeeting_frame id)).
    + intros l D' HD'.
      by eapply (ids_ok_frame Attendees _ s D D' (saveAttendees_frame l)).
  - intros d f o Hd Hrec. destruct (openFile_result s d f Hd) as [_ HD'].
    rewrite HD', (load_result_recognised _ o _ Hrec). eexists.
    split; [reflexivity|]. simpl. split.
    + intros v Hv Hobj. rewrite Hv, Hobj. unfold id_of; simpl.
      rewrite field_spread2. by destruct (field "id" v).
    + by destruct (obj_get "draft" o).
Qed.

(* ================================================================== *)
(** * A full settings record *)
(* ================================================================== *)

(** Merging a full settings record over the defaults changes no
    property. *)
Lemma merge_full_settings so k :
  NoDup (map fst so) ->
  forallb (fun k => obj_has k so) settings_fields = true ->
  obj_get k (spread [settings Storage._empty; JObj so]) = obj_get k so.
Proof.
  intros Hnd Hfull. rewrite field_spread2, (field_object k so Hnd).
  destruct (obj_get k so) as [v|] eqn:Hk; [done|].
  unfold field. simpl own_entries. rewrite obj_assign_nil_distinct.
  2:{ apply (distinct_NoDup settings_fields). reflexivity. }
  simpl in Hfull. rewrite !andb_true_iff in Hfull.
  destruct Hfull as (H1 & H2 & H3 & H4 & H5 & _).
  unfold obj_has in *. simpl.
  destruct (String.eqb_spec k "id") as [->|_]; [by rewrite Hk in H1|].
  destruct (String.eqb_spec k "dateMode") as [->|_]; [by rewrite Hk in H2|].
  destruct (String.eqb_spec k "logoDataUrl") as [->|_]; [by rewrite Hk in H3|].
  destruct (String.eqb_spec k "pdfAccentColor") as [->|_]; [by rewrite Hk in H4|].
  destruct (String.eqb_spec k "pdfBgColor") as [->|_]; [by rewrite Hk in H5|].
  done.
Qed.

(** When its first five properties are the five fields in the order of
    the defaults, the record comes back as it is. *)
Lemma merge_ordered_settings so :
  NoDup (map fst so) -> take 5 (map fst so) = settings_fields ->
  spread [settings Storage._empty; JObj so] = so.
Proof.
  intros Hnd Hkeys.
  destruct so as [|[k1 v1] [|[k2 v2] [|[k3 v3] [|[k4 v4] [|[k5 v5] extra]]]]];
    try discriminate.
  simpl in Hkeys. injection Hkeys as -> -> -> -> ->.
  unfold spread. simpl.
  change (fold_left _ extra ?o) with (obj_assign o extra).
  by rewrite obj_assign_distinct.
Qed.

(* ================================================================== *)
(** * Saving and loading back *)
(* ================================================================== *)

Lemma valid_doc_inv D :
  valid_doc D = true ->
  exists so la lm,
    settings D = JObj so /\ attendees D = JArr la /\ meetings D = JArr lm /\
    forallb (fun k => obj_has k so) settings_fields = true /\
    NoDup (map fst so) /\ wf (doc_value D) = true.
Proof.
  unfold valid_doc. rewrite !andb_true_iff.
  intros ((((((Hfull & Hws) & Hia) & Hwa) & Him) & Hwm) & Hwd).
  destruct (settings D) as [| | | | |so] eqn:Hs; try discriminate.
  destruct (attendees D) as [| | | |la|] eqn:Ha; try discriminate.
  destruct (meetings D) as [| | | |lm|] eqn:Hm; try discriminate.
  exists so, la, lm. repeat split; auto.
  - simpl in Hws. apply andb_true_iff in Hws as [Hd _]. by apply distinct_NoDup.
  - unfold doc_value. rewrite Hs, Ha, Hm.
    change (wf (JObj ?o)) with (distinct (map fst o) && forallb (fun kv => wf (snd kv)) o).
    cbn [map fst forallb snd]. rewrite Hws, Hwa, Hwm, Hwd. reflexivity.
Qed.

(** What the multi-file store reads from the text of a valid document. *)
Lemma load_result_stringify D D0 :
  valid_doc D = true ->
  exists D', load_result (stringify (doc_value D)) D0 = (Return tt, D') /\
             same_document D' D /\
             (forall so, settings D = JObj so ->
                take 5 (map fst so) = settings_fields -> D' = D).
Proof.
  intros Hv. destruct (valid_doc_inv D Hv) as (so & la & lm & Hs & Ha & Hm & Hfull & Hnd & Hwf).
  assert (recognised_text (stringify (doc_value D))
            [("settings"%string, settings D); ("attendees"%string, attendees D);
             ("meetings"%string, meetings D); ("draft"%string, draft D)]) as Hrec.
  { unfold recognised_text, doc_value. rewrite trim_stringify_object.
    split; [|split; [by apply JSON_parse_stringify|reflexivity]].
    unfold stringify. destruct (print_head 0 (doc_value D)) as (c & r & E & _).
    unfold doc_value in E. by rewrite E. }
  rewrite (load_result_recognised _ _ D0 Hrec). eexists. split; [reflexivity|].
  unfold same_document, merge_sections. cbn [obj_get String.eqb Ascii.eqb Bool.eqb
    settings attendees meetings draft].
  rewrite Hs, Ha, Hm. cbn [truthy typeof_object andb settings attendees meetings draft].
  split; [repeat split; auto|].
  - apply same_properties_Permutation; [apply spread_NoDup|done|].
    intros k. by apply merge_full_settings.
  - intros k. by apply merge_full_settings.
  - intros so' Hso' Hkeys. injection Hso' as <-.
    rewrite (merge_ordered_settings so Hnd Hkeys).
    destruct D as [ds da dm dd]. simpl in *. by subst.
Qed.

(** What the single-file store reads from it: the document itself. *)
Lemma db_load_result_stringify D D0 :
  valid_doc D = true ->
  db_load_result (stringify (doc_value D)) D0 = (Return tt, D).
Proof.
  intros Hv.
  destruct (valid_doc_inv D Hv) as (so & la & lm & Hs & Ha & Hm & _ & _ & Hwf).
  unfold db_load_result, doc_value. rewrite trim_stringify_object.
  destruct (print_head 0 (doc_value D)) as (c & r & E & _).
  unfold stringify at 1. unfold doc_value in E. rewrite E.
  rewrite JSON_parse_stringify by exact Hwf.
  unfold overlay_sections. cbn [obj_get String.eqb Ascii.eqb Bool.eqb].
  rewrite Hs, Ha, Hm. simpl. destruct D as [ds da dm dd]. simpl in *. by subst.
Qed.

(** The round trip of the single-file store, whatever document is in
    memory when db.json is read again. *)
Lemma DbJson_save_then_connect s d D :
  _fileHandle (this s) = Some (d, "db.json"%string) ->
  _data (this s) = Some D -> valid_doc D = true ->
  forall st, _data st <> None ->
    let reloaded := mkSys st (disk (snd (DbJson._save s))) [] in
    fst (DbJson.connectFolder (Some d) reloaded) = Return tt /\
    data_after (DbJson.connectFolder (Some d)) reloaded = Some D.
Proof.
  intros Hh HD Hv st Hst reloaded.
  destruct (_data st) as [D0|] eqn:HD0; [|done].
  destruct (connectFolder_result reloaded d D0 HD0) as [Ho HD'].
  assert (content (d, "db.json"%string) (disk reloaded) = stringify (doc_value D))
    as Hc.
  { unfold content, reloaded. simpl. rewrite DbJson_save_run, Hh. simpl.
    rewrite lookup_insert_eq. unfold stringify_data. by rewrite HD. }
  rewrite Hc, (db_load_result_stringify D D0 Hv) in Ho, HD'. done.
Qed.


(* ================================================================== *)
(** * The properties on sample data *)
(* ================================================================== *)

Import Sample.

(** The three meetings finalized at 5, 1 and 3 are listed as 5, 3, 1, and
    the store still holds them as they were saved. *)
Example getAllMeetings_5_1_3 :
  Storage.getAllMeetings (sys bound_store [])
  = (Return [meeting "m5" 5; meeting "m3" 3; meeting "m1" 1], sys bound_store []).
Proof. reflexivity. Qed.

(** A file with only a date mode: that field is taken, the others are
    the defaults. *)
Example openFile_date_mode_only :
  data_after (Storage.openFile "team") (sys unbound_store date_mode_file)
  = Some {| settings :=
              JObj [("id"%string, JStr "app"); ("dateMode"%string, JStr "calendarWeek");
                    ("logoDataUrl"%string, JNull);
                    ("pdfAccentColor"%string, JStr "#4b5563");
                    ("pdfBgColor"%string, JStr "#f3f4f6")];
            attendees := JArr []; meetings := JArr []; draft := JNull |}.
Proof. vm_compute. reflexivity. Qed.

(** An empty file, a text that is not JSON, an unrelated object. *)
Example openFile_blank_invalid_foreign :
  Storage.openFile "team" (sys unbound_store (lit "  "))
  = (Return tt, bound "minutes" "team.json" (sys unbound_store (lit "  "))) /\
  fst (Storage.openFile "team" (sys unbound_store (lit "{oops"))) = Return tt /\
  data_after (Storage.openFile "team") (sys unbound_store (lit "{oops"))
  = Some Storage._empty /\
  data_after (Storage.openFile "team") (sys unbound_store foreign_file)
  = Some Storage._empty.
Proof. vm_compute. repeat split. Qed.

Lemma sample_recognised :
  recognised_text (content ("minutes", json_name "team")%string
                     (disk (sys unbound_store date_mode_file)))
    [("settings"%string, JObj [("dateMode"%string, JStr "calendarWeek")])].
Proof.
  split; [|split]; [|vm_compute; reflexivity|reflexivity].
  intros H. vm_compute in H. discriminate.
Qed.


Lemma sample_comparable_with m :
  m <> JNull -> comparable_with m history.
Proof.
  intros Hm. unfold comparable_with, history.
  repeat constructor; unfold same_id; simpl; destruct m as [| | | | |o]; simpl;
    try done; try (by eexists);
    destruct (obj_get "id" o) as [[]|]; by eexists.
Qed.

Lemma sample_comparable id : comparable (Some (JStr id)) history.
Proof. unfold comparable, history. repeat constructor; by eexists. Qed.


Lemma openFile_forgets_previous_document_witness :
  content ("minutes", json_name "team")%string (disk (sys bound_store date_mode_file))
  = content ("minutes", json_name "team")%string (disk (sys unbound_store date_mode_file))
  /\ data_after (Storage.openFile "team") (sys bound_store date_mode_file)
     = data_after (Storage.openFile "team") (sys unbound_store date_mode_file).
Proof.
  split; [reflexivity|].
  destruct (openFile_forgets_previous_document (sys bound_store date_mode_file)
              (sys unbound_store date_mode_file) "minutes" "team") as [H _].
  destruct (H eq_refl eq_refl eq_refl) as (_ & E & _). exact E.
Defined.

Lemma foreign_file_keeps_defaults_witness :
  foreign_text (content ("minutes", json_name "team")%string
                  (disk (sys unbound_store foreign_file))) /\
  foreign_text (content ("minutes", "db.json")%string
                  (disk (sys unbound_store foreign_file))) /\
  (fst (Storage.openFile "team" (sys unbound_store foreign_file)) = Return tt /\
   data_after (Storage.openFile "team") (sys unbound_store foreign_file)
   = Some Storage._empty) /\
  (fst (DbJson.connectFolder (Some "minutes"%string) (sys unbound_store foreign_file))
   = Return tt /\
   data_after (DbJson.connectFolder (Some "minutes"%string))
     (sys unbound_store foreign_file) = Some doc).
Proof.
  assert (foreign_text (content ("minutes", json_name "team")%string
                          (disk (sys unbound_store foreign_file)))) as Hf.
  { right. right. right. exists [("foo"%string, JNum 1)].
    split; [vm_compute; reflexivity|reflexivity]. }
  assert (foreign_text (content ("minutes", "db.json")%string
                          (disk (sys unbound_store foreign_file)))) as Hg.
  { right. right. right. exists [("foo"%string, JNum 1)].
    split; [vm_compute; reflexivity|reflexivity]. }
  split; [exact Hf|]. split; [exact Hg|].
  destruct (foreign_file_keeps_defaults (sys unbound_store foreign_file) "minutes"
              "team") as [H1 H2].
  split; [exact (H1 eq_refl Hf)|exact (H2 doc eq_refl Hg)].
Defined.

Lemma recognised_file_merges_sections_witness :
  recognised_text (content ("minutes", json_name "team")%string
                     (disk (sys unbound_store date_mode_file)))
    [("settings"%string, JObj [("dateMode"%string, JStr "calendarWeek")])] /\
  fst (Storage.openFile "team" (sys unbound_store date_mode_file)) = Return tt /\
  data_after (DbJson.connectFolder (Some "minutes"%string))
    (sys unbound_store date_mode_file)
  = Some (overlay_sections
            [("settings"%string, JObj [("dateMode"%string, JStr "calendarWeek")])]
            doc).
Proof.
  split; [exact sample_recognised|].
  destruct (recognised_file_merges_sections (sys unbound_store date_mode_file)
              "minutes" "team"
              [("settings"%string, JObj [("dateMode"%string, JStr "calendarWeek")])])
    as [H1 H2].
  destruct (H1 eq_refl sample_recognised) as [E _]. split; [exact E|].
  destruct (H2 doc eq_refl) as [_ E2]; [| |exact E2].
  - intros H. vm_compute in H. discriminate.
  - vm_compute. reflexivity.
Defined.

Lemma sample_not_null : Forall (fun x => x <> JNull) history.
Proof. unfold history. repeat constructor; discriminate. Qed.

Lemma saveMeeting_upserts_deleteMeeting_filters_witness :
  Forall (fun x => x <> JNull) history /\
  meeting "m1" 9 <> JNull /\ plain_id (id_of (meeting "m1" 9)) /\
  primitive (JStr "m3") = true /\
  data_after (Storage.saveMeeting (meeting "m1" 9)) (sys bound_store [])
  = Some (set_meetings (JArr [meeting "m5" 5; meeting "m1" 9; meeting "m3" 3]) doc) /\
  data_after (Storage.deleteMeeting (JStr "m3")) (sys bound_store [])
  = Some (set_meetings (JArr [meeting "m5" 5; meeting "m1" 1]) doc).
Proof.
  assert (meeting "m1" 9 <> JNull) as Hm by discriminate.
  split; [exact sample_not_null|]. split; [exact Hm|].
  split; [reflexivity|]. split; [reflexivity|].
  destruct (saveMeeting_upserts_deleteMeeting_filters (sys bound_store []) doc
              history (meeting "m1" 9) (JStr "m3") eq_refl eq_refl
              sample_not_null Hm eq_refl eq_refl)
    as [(L' & HL' & Hrep & _) (K & keep & HK & Hkeep & HKeq & _)].
  split.
  - destruct Hrep as (i & x & Hi & Hx & _ & HLeq).
    { exists (meeting "m1" 1). split; [right; left|reflexivity]. }
    rewrite HL'. f_equal. f_equal. f_equal. rewrite HLeq.
    destruct i as [|[|[|i]]]; simpl in Hi; try discriminate;
      injection Hi as <-; try discriminate Hx.
    reflexivity.
  - rewrite HK. f_equal. f_equal. f_equal. rewrite HKeq.
    assert (keep (meeting "m5" 5) = true) as H5.
    { apply Hkeep; [left|discriminate]. }
    assert (keep (meeting "m1" 1) = true) as H1.
    { apply Hkeep; [right; left|discriminate]. }
    assert (keep (meeting "m3" 3) = false) as H3.
    { destruct (keep (meeting "m3" 3)) eqn:E; [|reflexivity].
      apply Hkeep in E; [|right; right; left]. by destruct E. }
    unfold history. cbn [List.filter]. rewrite H5, H1, H3. reflexivity.
Defined.

Lemma sample_dated : Forall dated history.
Proof. unfold history. repeat constructor; eexists; (split; [reflexivity|done]). Qed.

Lemma getAllMeetings_sorted_copy_witness :
  Forall dated history /\ (forall x, x ∈ history -> 0 <= timestamp x) /\
  exists R,
    Storage.getAllMeetings (sys bound_store []) = (Return R, sys bound_store []) /\
    R = [meeting "m5" 5; meeting "m3" 3; meeting "m1" 1] /\
    StronglySorted newest_first R /\
    (forall i j x y, R !! i = Some x -> R !! j = Some y -> (i <= j)%nat ->
                     timestamp x = 0 -> timestamp y = 0).
Proof.
  assert (forall x, x ∈ history -> 0 <= timestamp x) as Hpos.
  { intros x Hx. unfold history in Hx.
    repeat (apply elem_of_cons in Hx as [->|Hx]; [by vm_compute|]).
    by apply elem_of_nil in Hx. }
  split; [exact sample_dated|]. split; [exact Hpos|].
  destruct (getAllMeetings_sorted_copy (sys bound_store []) doc history
              eq_refl eq_refl sample_dated) as (R & HR & _ & _ & Hs & _ & _ & Hlast).
  exists R. split; [exact HR|]. split; [|split; [exact Hs|exact (Hlast Hpos)]].
  pose proof getAllMeetings_5_1_3 as E. rewrite HR in E.
  injection E as E. exact E.
Defined.



Lemma ids_forced_on_save_copied_on_load_witness :
  _data (this (sys bound_store [])) = Some doc /\ ids_ok doc /\
  (exists D', data_after (Storage.saveSettings (JObj [("id"%string, JStr "mine")]))
                (sys bound_store []) = Some D' /\ settings_id_ok D') /\
  (forall D', data_after (Storage.saveMeeting (meeting "m9" 9)) (sys bound_store [])
              = Some D' -> ids_ok D').
Proof.
  assert (ids_ok doc) as Hok by (split; [reflexivity|by right]).
  split; [reflexivity|]. split; [exact Hok|].
  destruct (ids_forced_on_save_copied_on_load (sys bound_store []) doc eq_refl)
    as (H & _ & _ & Hkeep & _).
  split.
  - destruct (H (JObj [("id"%string, JStr "mine")])) as (D' & HD' & _ & Hid).
    by exists D'.
  - destruct (Hkeep Hok) as (_ & _ & _ & Hm & _). exact (Hm (meeting "m9" 9)).
Defined.

(* ================================================================== *)
(** * Where the single-file store and the load go their own way *)
(* ================================================================== *)

(** C2.  The bind of the single-file store does not reset the document.
    A fresh store binds the folder archive, whose db.json holds a
    document, and then the folder minutes, whose db.json is empty: both
    binds return and the document of archive is still in memory, where a
    fresh store that binds minutes has the default document.  ([openFile]
    of the multi-file store does reset it, see
    [openFile_forgets_previous_document].) *)
Lemma connectFolder_keeps_previous_document :
  let fresh := mkSys DbJson.initial two_folders [] in
  let loaded := snd (DbJson.connectFolder (Some "archive"%string) fresh) in
  fst (DbJson.connectFolder (Some "archive"%string) fresh) = Return tt /\
  _data (this loaded) = Some doc /\
  disk loaded = disk fresh /\
  fst (DbJson.connectFolder (Some "minutes"%string) loaded) = Return tt /\
  data_after (DbJson.connectFolder (Some "minutes"%string)) loaded = Some doc /\
  data_after (DbJson.connectFolder (Some "minutes"%string)) fresh
  = Some DbJson.defaults /\
  doc <> DbJson.defaults.
Proof.
  vm_compute. repeat split. discriminate.
Qed.

(** The single-file store takes the file's settings as they are: no
    field of the defaults is inherited (the counterexample to C4 as it is
    stated for both stores). *)
Lemma connectFolder_does_not_merge_settings :
  exists D',
    data_after (DbJson.connectFolder (Some "minutes"%string))
      (mkSys DbJson.initial (files date_mode_file) []) = Some D' /\
    settings D' = JObj [("dateMode"%string, JStr "calendarWeek")] /\
    field "pdfBgColor" (settings D') = None /\
    field "pdfBgColor" (settings DbJson.defaults) = Some (JStr "#f3f4f6") /\
    ~ (forall k, field k (settings D') =
                 match field k (JObj [("dateMode"%string, JStr "calendarWeek")]) with
                 | Some x => Some x
                 | None => field k (settings DbJson.defaults)
                 end).
Proof.
  eexists. split; [vm_compute; reflexivity|]. repeat split.
  intros H. specialize (H "pdfBgColor"%string). vm_compute in H. discriminate.
Qed.

(** A load takes the ids it finds in the file (the counterexample to C9
    as it is stated for every store operation). *)
Lemma openFile_copies_ids_of_file :
  exists D',
    data_after (Storage.openFile "team") (sys unbound_store other_ids_file) = Some D' /\
    id_of (settings D') = Some (JStr "other") /\
    id_of (draft D') = Some (JStr "d7") /\
    ~ settings_id_ok D' /\ ~ draft_id_ok D'.
Proof.
  eexists. split; [vm_compute; reflexivity|]. repeat split.
  - intros H. vm_compute in H. discriminate.
  - intros [H|H]; vm_compute in H; discriminate.
Qed.


(** A meeting whose timestamp is zero does not come last when another
    has a negative one: it counts as 0 and 0 is the greater (the
    counterexample to C6 as it is stated for every meeting list). *)
Lemma getAllMeetings_zero_before_negative :
  let stored := [meeting "old" (-3); meeting "unset" 0] in
  let s := mkSys (mkStore None None None (Some (set_meetings (JArr stored) doc))) ∅ [] in
  Storage.getAllMeetings s = (Return [meeting "unset" 0; meeting "old" (-3)], s) /\
  DbJson.getAllMeetings s = (Return [meeting "unset" 0; meeting "old" (-3)], s) /\
  timestamp (meeting "unset" 0) = 0 /\ timestamp (meeting "old" (-3)) = -3.
Proof. repeat split. Qed.

(* ================================================================== *)
(** * File names *)
(* ================================================================== *)

Lemma length_toLowerCase s : String.length (toLowerCase s) = String.length s.
Proof. induction s as [|c s IH]; simpl; [done|by rewrite IH]. Qed.

Lemma append_nil (b : string) : String.append EmptyString b = b.
Proof. reflexivity. Qed.

Lemma append_cons c (a b : string) :
  String.append (String c a) b = String c (String.append a b).
Proof. reflexivity. Qed.

Lemma toLowerCase_app a b :
  toLowerCase (a ++ b) = (toLowerCase a ++ toLowerCase b)%string.
Proof.
  induction a as [|c a IH]; [done|].
  rewrite append_cons. simpl. by rewrite IH.
Qed.

Lemma substring_all b : String.substring 0 (String.length b) b = b.
Proof. induction b as [|c b IH]; simpl; [done|by rewrite IH]. Qed.

Lemma substring_app_suffix a b :
  String.substring (String.length a) (String.length b) (a ++ b) = b.
Proof.
  induction a as [|c a IH].
  - rewrite append_nil. apply substring_all.
  - rewrite append_cons. simpl. exact IH.
Qed.

Lemma length_append (a b : string) :
  String.length (a ++ b) = (String.length a + String.length b)%nat.
Proof.
  induction a as [|c a IH]; [done|]. rewrite append_cons. simpl. by rewrite IH.
Qed.

Lemma endsWith_app a b : endsWith (a ++ b) b = true.
Proof.
  unfold endsWith. rewrite length_append.
  replace (String.length a + String.length b - String.length b)%nat
    with (String.length a) by lia.
  rewrite substring_app_suffix, String.eqb_refl.
  apply andb_true_iff; split; [apply Nat.leb_le; lia|done].
Qed.

Lemma json_name_is_json f : is_json_name (json_name f) = true.
Proof.
  unfold json_name, is_json_name.
  destruct (endsWith (toLowerCase f) ".json") eqn:E; simpl; [done|].
  rewrite toLowerCase_app. apply endsWith_app.
Qed.

Lemma json_name_fixed f : is_json_name f = true -> json_name f = f.
Proof. unfold json_name, is_json_name. by intros ->. Qed.

(* ================================================================== *)
(** * The binding: folder, file and file name *)
(* ================================================================== *)

Ltac binding_op :=
  unfold keeps_binding; intros s; destruct s as [[dh fh fn [D|]] dk cs];
  unfold Storage.init, Storage.listJsonFiles, Storage.loadDraft,
    Storage.loadSettings, Storage.loadAttendees, Storage.getMeeting,
    Storage.getAllMeetings, entries, modify_this;
  run_store; repeat (destruct_inner; simpl); auto.

Lemma coherent_kept {A : Type} (m : M A) s :
  keeps_binding m -> coherent (this s) -> coherent (this (snd (m s))).
Proof.
  intros Hk. destruct (Hk s) as (Hd & Hf & Hn). unfold coherent.
  by rewrite Hd, Hf, Hn.
Qed.

Lemma mutators_keep_binding :
  (forall m, keeps_binding (Storage.saveDraft m)) /\
  keeps_binding Storage.clearDraft /\
  (forall m, keeps_binding (Storage.saveMeeting m)) /\
  (forall id, keeps_binding (Storage.deleteMeeting id)) /\
  (forall v, keeps_binding (Storage.saveSettings v)) /\
  (forall l, keeps_binding (Storage.saveAttendees l)).
Proof.
  repeat match goal with |- _ /\ _ => split end; intros; binding_op.
Qed.

Lemma readers_keep_binding :
  keeps_binding Storage.init /\
  (forall cmp, keeps_binding (Storage.listJsonFiles cmp)) /\
  keeps_binding Storage.loadDraft /\
  (forall id, keeps_binding (Storage.getMeeting id)) /\
  keeps_binding Storage.getAllMeetings /\
  keeps_binding Storage.loadSettings /\
  keeps_binding Storage.loadAttendees.
Proof.
  repeat match goal with |- _ /\ _ => split end; intros; binding_op.
Qed.

(** The handles after [openFile], whatever the file holds. *)
Lemma openFile_this s d f :
  _dirHandle (this s) = Some d ->
  exists D,
    this (snd (Storage.openFile f s))
    = mkStore (Some d) (Some (d, json_name f)) (Some (json_name f)) (Some D).
Proof.
  intros Hd. rewrite (openFile_run s d f Hd).
  destruct (load_run (bound d (json_name f) s) (d, json_name f)
              (content (d, json_name f) (disk s)) Storage._empty)
    as (_ & Hthis & _); auto using bound_content.
  rewrite Hthis. eexists. reflexivity.
Qed.

Lemma openFile_disk s d f :
  _dirHandle (this s) = Some d ->
  disk (snd (Storage.openFile f s)) = disk (bound d (json_name f) s).
Proof.
  intros Hd. rewrite (openFile_run s d f Hd).
  destruct (load_run (bound d (json_name f) s) (d, json_name f)
              (content (d, json_name f) (disk s)) Storage._empty)
    as (_ & _ & Hdisk); auto using bound_content.
Qed.

Lemma openFile_unbound s f :
  _dirHandle (this s) = None ->
  Storage.openFile f s = (Throw (Error NoFolderConnected), s).
Proof.
  intros Hd. unfold Storage.openFile, bind, get_this, throw. simpl.
  by rewrite Hd.
Qed.

Lemma in_picked_folder_kept {A : Type} (m : M A) s :
  keeps_binding m -> in_picked_folder (this s) ->
  in_picked_folder (this (snd (m s))).
Proof.
  intros Hk. destruct (Hk s) as (Hd & Hf & Hn). unfold in_picked_folder.
  by rewrite Hd, Hf.
Qed.

(** X1.  The binding of the multi-file store.  A bound file is always a
    .json file of the folder that is picked: this holds when the page
    starts and after every operation ([init], [connectFolder] with a
    folder picked or the picker dismissed, [openFile], [listJsonFiles],
    the six section operations).  After an [openFile] that returns,
    [_filename] is moreover the name of the bound file, and [init],
    [connectFolder], [listJsonFiles] and the section operations keep
    that: with no file bound there is then no [_filename]. *)
Theorem binding_stays_coherent :
  (in_picked_folder Storage.initial /\ coherent Storage.initial) /\
  (forall s, in_picked_folder (this s) ->
     in_picked_folder (this (snd (Storage.init s))) /\
     (forall picked, in_picked_folder (this (snd (Storage.connectFolder picked s)))) /\
     (forall f, in_picked_folder (this (snd (Storage.openFile f s)))) /\
     (forall cmp, in_picked_folder (this (snd (Storage.listJsonFiles cmp s)))) /\
     (forall m, in_picked_folder (this (snd (Storage.saveDraft m s)))) /\
     in_picked_folder (this (snd (Storage.clearDraft s))) /\
     (forall m, in_picked_folder (this (snd (Storage.saveMeeting m s)))) /\
     (forall id, in_picked_folder (this (snd (Storage.deleteMeeting id s)))) /\
     (forall v, in_picked_folder (this (snd (Storage.saveSettings v s)))) /\
     (forall l, in_picked_folder (this (snd (Storage.saveAttendees l s))))) /\
  (forall s f, fst (Storage.openFile f s) = Return tt ->
     coherent (this (snd (Storage.openFile f s)))) /\
  (forall s, coherent (this s) ->
     coherent (this (snd (Storage.init s))) /\
     (forall picked, coherent (this (snd (Storage.connectFolder picked s)))) /\
     (forall cmp, coherent (this (snd (Storage.listJsonFiles cmp s)))) /\
     (forall m, coherent (this (snd (Storage.saveDraft m s)))) /\
     coherent (this (snd (Storage.clearDraft s))) /\
     (forall m, coherent (this (snd (Storage.saveMeeting m s)))) /\
     (forall id, coherent (this (snd (Storage.deleteMeeting id s)))) /\
     (forall v, coherent (this (snd (Storage.saveSettings v s)))) /\
     (forall l, coherent (this (snd (Storage.saveAttendees l s))))).
Proof.
  destruct mutators_keep_binding as (M1 & M2 & M3 & M4 & M5 & M6).
  destruct readers_keep_binding as (R1 & R2 & _).
  split; [split; reflexivity|]. split; [|split].
  - intros s Hs.
    split; [by apply in_picked_folder_kept|].
    split.
    { intros [d|]; [|exact Hs]. reflexivity. }
    split.
    { intros f. destruct (_dirHandle (this s)) as [d|] eqn:Hd.
      - destruct (openFile_this s d f Hd) as [D ->]. unfold in_picked_folder; simpl.
        auto using json_name_is_json.
      - by rewrite (openFile_unbound s f Hd). }
    split; [intros cmp; by apply in_picked_folder_kept|].
    split; [intros m; by apply in_picked_folder_kept|].
    split; [by apply in_picked_folder_kept|].
    split; [intros m; by apply in_picked_folder_kept|].
    split; [intros m; by apply in_picked_folder_kept|].
    split; [intros m; by apply in_picked_folder_kept|].
    intros m; by apply in_picked_folder_kept.
  - intros s f Hret. destruct (_dirHandle (this s)) as [d|] eqn:Hd.
    + destruct (openFile_this s d f Hd) as [D ->]. unfold coherent; simpl.
      auto using json_name_is_json.
    + rewrite (openFile_unbound s f Hd) in Hret. discriminate.
  - intros s Hs.
    split; [by apply coherent_kept|].
    split.
    { intros [d|]; [|exact Hs]. reflexivity. }
    split; [intros cmp; by apply coherent_kept|].
    split; [intros m; by apply coherent_kept|].
    split; [by apply coherent_kept|].
    split; [intros m; by apply coherent_kept|].
    split; [intros m; by apply coherent_kept|].
    split; [intros m; by apply coherent_kept|].
    intros m; by apply coherent_kept.
Qed.


(** X2.  Picking a folder in the multi-file store unbinds the file and
    keeps the document: after [connectFolder] the store has the new
    folder, no file and no file name; the document, the disk and the
    console are as before; and [saveDraft], [clearDraft], [saveSettings]
    and [saveAttendees] throw 'No file open' without writing.  A
    dismissed picker throws AbortError and changes nothing. *)
Theorem connectFolder_unbinds_the_file s d D :
  _data (this s) = Some D ->
  let s' := snd (Storage.connectFolder (Some d) s) in
  fst (Storage.connectFolder (Some d) s) = Return tt /\
  this s' = mkStore (Some d) None None (Some D) /\
  disk s' = disk s /\ console s' = console s /\
  Storage.connectFolder None s = (Throw AbortError, s) /\
  (forall m, fst (Storage.saveDraft m s') = Throw (Error NoFileOpen) /\
             disk (snd (Storage.saveDraft m s')) = disk s) /\
  (fst (Storage.clearDraft s') = Throw (Error NoFileOpen) /\
   disk (snd (Storage.clearDraft s')) = disk s) /\
  (forall v, fst (Storage.saveSettings v s') = Throw (Error NoFileOpen) /\
             disk (snd (Storage.saveSettings v s')) = disk s) /\
  (forall l, fst (Storage.saveAttendees l s') = Throw (Error NoFileOpen) /\
             disk (snd (Storage.saveAttendees l s')) = disk s).
Proof.
  intros HD. destruct s as [[dh fh fn dt] dk cs]; simpl in *; subst.
  repeat split.
Qed.

(** X3.  With a folder picked, [openFile f] makes [json_name f] the
    active file name: [f] as given when its lower-case form ends in
    .json, [f] with .json appended otherwise.  When it returns, the
    file it has bound is the file of that name in the picked folder.
    The name always ends in .json, and opening a file by that name is
    the same operation as opening it by [f]. *)
Theorem openFile_appends_json_once s d f :
  _dirHandle (this s) = Some d ->
  let s' := snd (Storage.openFile f s) in
  _dirHandle (this s') = Some d /\
  Storage.activeFile (this s') = Some (json_name f) /\
  (fst (Storage.openFile f s) = Return tt ->
   _fileHandle (this s') = Some (d, json_name f)) /\
  is_json_name (json_name f) = true /\
  (is_json_name f = true -> json_name f = f) /\
  (is_json_name f = false -> json_name f = (f ++ ".json")%string) /\
  Storage.openFile (json_name f) s = Storage.openFile f s.
Proof.
  intros Hd. destruct (openFile_this s d f Hd) as [D HD]. cbn zeta.
  rewrite HD. unfold Storage.activeFile. simpl.
  split; [done|]. split; [done|]. split; [done|].
  split; [apply json_name_is_json|].
  split; [apply json_name_fixed|].
  split.
  - unfold json_name, is_json_name. by intros ->.
  - rewrite !(openFile_run _ d) by done.
    by rewrite (json_name_fixed _ (json_name_is_json f)).
Qed.

(** X4.  Binding writes no file that is there: after [openFile] of the
    multi-file store, and after [connectFolder] of the single-file
    store, the disk is the one before with the target file added, empty,
    when it was absent; every file that existed holds the text it held. *)
Theorem binding_creates_but_never_rewrites s d f D :
  _data (this s) = Some D ->
  (_dirHandle (this s) = Some d ->
   disk (snd (Storage.openFile f s))
   = match disk s !! (d, json_name f) with
     | Some _ => disk s
     | None => <[(d, json_name f) := []]> (disk s)
     end /\
   forall h t, disk s !! h = Some t ->
               disk (snd (Storage.openFile f s)) !! h = Some t) /\
  (disk (snd (DbJson.connectFolder (Some d) s))
   = match disk s !! (d, "db.json"%string) with
     | Some _ => disk s
     | None => <[(d, "db.json"%string) := []]> (disk s)
     end /\
   forall h t, disk s !! h = Some t ->
               disk (snd (DbJson.connectFolder (Some d) s)) !! h = Some t).
Proof.
  intros HD. split.
  - intros Hd. rewrite (openFile_disk s d f Hd). unfold bound; cbn [disk].
    split; [done|]. intros h t Hh.
    destruct (disk s !! (d, json_name f)) eqn:E; [done|].
    rewrite lookup_insert_ne; [done|]. intros <-. congruence.
  - rewrite (connectFolder_run s d).
    destruct (db_load_run (db_bound d s) (d, "db.json"%string)
                (content (d, "db.json"%string) (disk s)) D)
      as (_ & _ & Hdisk); auto using db_bound_content.
    rewrite Hdisk. unfold db_bound; cbn [disk].
    split; [done|]. intros h t Hh.
    destruct (disk s !! (d, "db.json"%string)) eqn:E; [done|].
    rewrite lookup_insert_ne; [done|]. intros <-. congruence.
Qed.

(** What [_loadFromFile] of the multi-file store writes to the console. *)
Lemma load_console s h t D :
  _fileHandle (this s) = Some h -> disk s !! h = Some t ->
  _data (this s) = Some D ->
  console (snd (Storage._loadFromFile s)) =
    console s ++
    match trim t with
    | [] => []
    | _ :: _ =>
        match JSON_parse (trim t) with
        | PSyntaxError => [WarnInvalidJson (_filename (this s))]
        | POk (JObj o) =>
            if recognised o then [] else [WarnNoRecognisedKeys (_filename (this s))]
        | POk _ => [WarnUnexpectedRoot (_filename (this s))]
        | PUnmodelled | POutOfFuel => []
        end
    end.
Proof.
  intros Hh Ht HD.
  destruct s as [[dh fh fn dt] dk cs]; simpl in *; subst.
  destruct D as [ds da dm dd].
  unfold Storage._loadFromFile, bind, get_this, file_text. simpl.
  rewrite Ht. destruct (trim t) as [|c r] eqn:Htrim; [by rewrite app_nil_r|].
  destruct (JSON_parse (c :: r)) as [v| | |] eqn:Hp; simpl;
    try by rewrite ?app_nil_r.
  destruct v as [|b|n|str|l|o]; simpl; try done.
  - by destruct b.
  - by destruct (n =? 0).
  - by destruct (String.eqb str "").
  - unfold lift, recognised.
    destruct (obj_has "settings" o || obj_has "meetings" o
              || obj_has "attendees" o || obj_has "draft" o) eqn:Hrec;
      simpl; [|done].
    unfold with_this, when, assign_data, ret; simpl.
    rewrite !obj_has_get.
    destruct (obj_get "settings" o) as [vs|]; simpl;
      [destruct (truthy vs && typeof_object vs); simpl|];
      (destruct (obj_get "attendees" o) as [[]|]; simpl);
      (destruct (obj_get "meetings" o) as [[]|]; simpl);
      (destruct (obj_get "draft" o) as [vd|]; simpl); by rewrite app_nil_r.
Qed.

(** X5.  What [openFile] writes to the console, from the trimmed text of
    the bound file: nothing for a blank text and for an object with a
    recognised key; otherwise one warning that names the bound file:
    invalid JSON, unexpected root type (a root that is no plain object),
    or no recognised keys. *)
Theorem openFile_warns_once_on_foreign_content s d f :
  _dirHandle (this s) = Some d ->
  let t := trim (content (d, json_name f) (disk s)) in
  let after := console (snd (Storage.openFile f s)) in
  let name := Some (json_name f) in
  (t = [] -> after = console s) /\
  (t <> [] -> JSON_parse t = PSyntaxError ->
   after = console s ++ [WarnInvalidJson name]) /\
  (forall v, t <> [] -> JSON_parse t = POk v -> (forall o, v <> JObj o) ->
   after = console s ++ [WarnUnexpectedRoot name]) /\
  (forall o, t <> [] -> JSON_parse t = POk (JObj o) -> recognised o = false ->
   after = console s ++ [WarnNoRecognisedKeys name]) /\
  (forall o, t <> [] -> JSON_parse t = POk (JObj o) -> recognised o = true ->
   after = console s).
Proof.
  intros Hd. cbn zeta. rewrite (openFile_run s d f Hd).
  rewrite (load_console (bound d (json_name f) s) (d, json_name f)
             (content (d, json_name f) (disk s)) Storage._empty)
    by auto using bound_content.
  cbn [bound this console _filename].
  destruct (trim (content (d, json_name f) (disk s))) as [|c r] eqn:Ht.
  { rewrite app_nil_r. repeat match goal with |- _ /\ _ => split end;
      intros; congruence. }
  split; [discriminate|].
  split; [by intros _ ->|].
  split.
  { intros v _ -> Hv. destruct v; try done. by destruct (Hv o). }
  split.
  { by intros o _ -> ->. }
  intros o _ -> ->. by rewrite app_nil_r.
Qed.


(** What [_loadFromFile] of the single-file store writes to the console:
    its [catch] takes the SyntaxError of [JSON.parse] and the TypeError
    of reading a root that is null or not an object. *)
Lemma db_load_console s h t D :
  _fileHandle (this s) = Some h -> disk s !! h = Some t ->
  _data (this s) = Some D ->
  console (snd (DbJson._loadFromFile s)) =
    console s ++
    match trim t with
    | [] => []
    | _ :: _ =>
        match JSON_parse (trim t) with
        | PSyntaxError => [WarnDbParseError]
        | POk v => if primitive v then [WarnDbParseError] else []
        | PUnmodelled | POutOfFuel => []
        end
    end.
Proof.
  intros Hh Ht HD.
  destruct s as [[dh fh fn dt] dk cs]; simpl in *; subst.
  destruct D as [ds da dm dd].
  unfold DbJson._loadFromFile, bind, get_this, file_text. simpl.
  rewrite Ht. destruct (trim t) as [|c r] eqn:Htrim; [by rewrite app_nil_r|].
  unfold try_catch.
  destruct (JSON_parse (c :: r)) as [v| | |] eqn:Hp; simpl;
    try by rewrite ?app_nil_r.
  destruct v as [|b|n|str|l|o]; simpl; try done; try by rewrite app_nil_r.
  unfold with_this, when, assign_data, ret, lift; simpl.
  rewrite !obj_has_get.
  destruct (obj_get "settings" o) as [vs|]; simpl;
    [destruct (truthy vs); simpl|];
    (destruct (obj_get "attendees" o) as [va|]; simpl;
      [destruct (truthy va); simpl|]);
    (destruct (obj_get "meetings" o) as [vm|]; simpl;
      [destruct (truthy vm); simpl|]);
    (destruct (obj_get "draft" o) as [vd|]; simpl); by rewrite app_nil_r.
Qed.

(** X6.  What [connectFolder] of the single-file store writes to the
    console: one parse-error warning when db.json is not JSON, and also
    when its root is null, a boolean, a number or a string (the
    TypeError of reading such a root is caught, and the document stays
    as it was); nothing for a blank text, for an array and for any
    object, recognised or not. *)
Theorem connectFolder_warns_only_on_unreadable_root s d D :
  _data (this s) = Some D ->
  let t := trim (content (d, "db.json"%string) (disk s)) in
  let after := console (snd (DbJson.connectFolder (Some d) s)) in
  (t = [] -> after = console s) /\
  (t <> [] -> JSON_parse t = PSyntaxError ->
   after = console s ++ [WarnDbParseError]) /\
  (forall v, t <> [] -> JSON_parse t = POk v -> primitive v = true ->
   after = console s ++ [WarnDbParseError] /\
   data_after (DbJson.connectFolder (Some d)) s = Some D) /\
  (forall v, t <> [] -> JSON_parse t = POk v -> primitive v = false ->
   after = console s).
Proof.
  intros HD. cbn zeta.
  destruct (connectFolder_result s d D HD) as [_ Hdata]. cbn zeta in Hdata.
  rewrite Hdata. clear Hdata.
  rewrite (connectFolder_run s d).
  rewrite (db_load_console (db_bound d s) (d, "db.json"%string)
             (content (d, "db.json"%string) (disk s)) D)
    by auto using db_bound_content.
  cbn [db_bound console]. unfold db_load_result.
  destruct (trim (content (d, "db.json"%string) (disk s))) as [|c r] eqn:Ht.
  { rewrite app_nil_r. repeat match goal with |- _ /\ _ => split end;
      intros; congruence. }
  split; [discriminate|].
  split; [by intros _ ->|].
  split.
  - intros v _ -> Hv. rewrite Hv. by destruct v.
  - intros v _ -> ->. by rewrite app_nil_r.
Qed.

(* ================================================================== *)
(** * Reading from memory *)
(* ================================================================== *)

Ltac reader_op :=
  match goal with s : Sys |- _ => destruct s as [[dh fh fn [D'|]] dk cs] end;
  unfold Storage.loadDraft, Storage.loadSettings, Storage.loadAttendees,
    Storage.getMeeting, Storage.getAllMeetings,
    DbJson.loadDraft, DbJson.loadSettings, DbJson.loadAttendees,
    DbJson.getMeeting, DbJson.getAllMeetings,
    bind, read_data, lift, ret;
  simpl in *; try discriminate;
  repeat (destruct_inner; simpl); eauto.

(** X7.  The readers of both stores ([loadDraft], [loadSettings],
    [loadAttendees], [getMeeting], [getAllMeetings]) leave the store,
    the disk and the console as they were, whatever they return or
    throw; [loadDraft], [loadSettings] and [loadAttendees] return
    whenever there is a document, with or without a bound file.  What
    they return is guarded: [loadAttendees] returns a list, [loadDraft]
    null or a truthy value, [loadSettings] of the single-file store a
    truthy value. *)
Theorem readers_answer_from_memory :
  (read_only Storage.loadDraft /\ read_only Storage.loadSettings /\
   read_only Storage.loadAttendees /\ (forall id, read_only (Storage.getMeeting id)) /\
   read_only Storage.getAllMeetings) /\
  (read_only DbJson.loadDraft /\ read_only DbJson.loadSettings /\
   read_only DbJson.loadAttendees /\ (forall id, read_only (DbJson.getMeeting id)) /\
   read_only DbJson.getAllMeetings) /\
  (answers Storage.loadDraft /\ answers Storage.loadSettings /\
   answers Storage.loadAttendees) /\
  (answers DbJson.loadDraft /\ answers DbJson.loadSettings /\
   answers DbJson.loadAttendees) /\
  (forall s v,
     (fst (Storage.loadAttendees s) = Return v -> isArray v = true) /\
     (fst (DbJson.loadAttendees s) = Return v -> isArray v = true) /\
     (fst (Storage.loadDraft s) = Return v -> v = JNull \/ truthy v = true) /\
     (fst (DbJson.loadDraft s) = Return v -> v = JNull \/ truthy v = true) /\
     (fst (DbJson.loadSettings s) = Return v -> truthy v = true)).
Proof.
  unfold read_only, answers.
  repeat match goal with |- _ /\ _ => split end;
    try (intros; reader_op; fail).
  intros s v.
  destruct s as [[dh fh fn [D|]] dk cs];
    unfold Storage.loadDraft, Storage.loadAttendees,
      DbJson.loadDraft, DbJson.loadSettings, DbJson.loadAttendees,
      bind, read_data, ret; simpl;
    repeat match goal with |- _ /\ _ => split end; try discriminate.
  - destruct (isArray (attendees D)) eqn:E; intros [= <-]; done.
  - destruct (isArray (attendees D)) eqn:E; intros [= <-]; done.
  - destruct (truthy (draft D)) eqn:E; intros [= <-]; auto.
  - destruct (truthy (draft D)) eqn:E; intros [= <-]; auto.
  - destruct (truthy (settings D)) eqn:E; intros [= <-]; done.
Qed.

(* ================================================================== *)
(** * Looking a meeting up *)
(* ================================================================== *)

Lemma find_total p l :
  Forall (fun x => exists b, p x = Return b) l ->
  find p l =
    Return (List.find (fun x => match p x with Return b => b | _ => false end) l).
Proof.
  induction 1 as [|x l [b Hb] _ IH]; simpl; [done|].
  rewrite Hb; simpl. by destruct b.
Qed.

Lemma has_id_object id x : has_id (Some id) x = true -> exists o, x = JObj o.
Proof.
  unfold has_id, id_is. destruct x; simpl; try discriminate; eauto.
Qed.

Lemma find_has_id id l :
  comparable (Some id) l ->
  find (id_is (Some id)) l = Return (List.find (has_id (Some id)) l).
Proof.
  intros Hc. rewrite (find_total _ _ Hc). f_equal.
  induction l as [|x l IH]; simpl; [done|].
  inversion Hc as [|? ? [b Hb] Hl]; subst.
  unfold has_id at 1. rewrite Hb. destruct b; [done|]. by apply IH.
Qed.

Lemma getMeeting_run s D l id :
  _data (this s) = Some D -> meetings D = JArr l -> comparable (Some id) l ->
  Storage.getMeeting id s
  = (Return (default JNull (List.find (has_id (Some id)) l)), s).
Proof.
  intros HD HL Hc. unfold Storage.getMeeting, bind, read_data, lift, ret.
  rewrite HD; simpl. rewrite HL; simpl. rewrite (find_has_id _ _ Hc); simpl.
  destruct (List.find (has_id (Some id)) l) as [m|] eqn:Hf; [|done].
  apply List.find_some in Hf as [_ Hm].
  destruct (has_id_object _ _ Hm) as [o ->]. done.
Qed.

Lemma find_first (f : value -> bool) l i x :
  l !! i = Some x -> f x = true ->
  (forall j y, (j < i)%nat -> l !! j = Some y -> f y = false) ->
  List.find f l = Some x.
Proof.
  revert i. induction l as [|z l IH]; intros [|i] Hi Hx Hbefore; simpl in *;
    try discriminate.
  - injection Hi as ->. by rewrite Hx.
  - rewrite (Hbefore O z) by (done || lia).
    apply (IH i); auto. intros j y Hj Hy. apply (Hbefore (S j)); [lia|done].
Qed.

Lemma find_no_match (f : value -> bool) l :
  Forall (fun x => f x = false) l -> List.find f l = None.
Proof. induction 1 as [|x l Hx _ IH]; simpl; [done|]. by rewrite Hx. Qed.

(** X8.  On a meeting list whose ids can be compared with [id],
    [getMeeting id] returns null when no entry has that id, and
    otherwise the first entry that has it. *)
Theorem getMeeting_first_match_or_null s D l id :
  _data (this s) = Some D -> meetings D = JArr l -> comparable (Some id) l ->
  ((forall x, x ∈ l -> has_id (Some id) x = false) ->
   fst (Storage.getMeeting id s) = Return JNull /\
   fst (DbJson.getMeeting id s) = Return JNull) /\
  (forall i x, l !! i = Some x -> has_id (Some id) x = true ->
     (forall j y, (j < i)%nat -> l !! j = Some y -> has_id (Some id) y = false) ->
     fst (Storage.getMeeting id s) = Return x /\
     fst (DbJson.getMeeting id s) = Return x).
Proof.
  intros HD HL Hc. pose proof (getMeeting_run s D l id HD HL Hc) as Hrun.
  change (DbJson.getMeeting id) with (Storage.getMeeting id).
  rewrite Hrun. cbn [fst].
  split.
  - intros Hno. rewrite find_no_match; [done|]. by apply Forall_forall.
  - intros i x Hi Hx Hbefore. by rewrite (find_first _ l i x).
Qed.

(* ================================================================== *)
(** * Saving, finding and deleting a meeting *)
(* ================================================================== *)

Lemma same_id_object o idv x :
  obj_get "id" o = Some idv -> same_id (JObj o) x = id_is (Some idv) x.
Proof.
  intros H. unfold same_id, id_is.
  destruct (get_prop "id" x); simpl; [by rewrite H|done|done].
Qed.

Lemma strict_eq_refl v : primitive v = true -> strict_eq (Some v) (Some v) = Return true.
Proof.
  destruct v as [|b|n|str|l|o]; simpl; try done.
  - by destruct b.
  - by rewrite Z.eqb_refl.
  - by rewrite String.eqb_refl.
Qed.

Lemma id_is_self o idv :
  obj_get "id" o = Some idv -> primitive idv = true ->
  id_is (Some idv) (JObj o) = Return true.
Proof. intros H Hp. unfold id_is; simpl. rewrite H. by apply strict_eq_refl. Qed.

Lemma findIndex_first p l i x :
  l !! i = Some x -> p x = Return true ->
  (forall j y, (j < i)%nat -> l !! j = Some y -> p y = Return false) ->
  findIndex p l = Return (Some i).
Proof.
  revert i. induction l as [|z l IH]; intros [|i] Hi Hx Hbefore; simpl in *;
    try discriminate.
  - injection Hi as ->. by rewrite Hx.
  - rewrite (Hbefore O z) by (done || lia). simpl.
    rewrite (IH i); auto. intros j y Hj Hy. apply (Hbefore (S j)); [lia|done].
Qed.

(** The list [saveMeeting] leaves, from the index [findIndex] found. *)
Lemma saveMeeting_explicit dh fh fn D dk cs L m r :
  meetings D = JArr L -> findIndex (same_id m) L = Return r ->
  Storage.saveMeeting m (mkSys (mkStore dh fh fn (Some D)) dk cs) =
    let D' := set_meetings
                (JArr (match r with Some i => <[i := m]> L | None => L ++ [m] end)) D in
    match fh with
    | Some h => (Return tt, mkSys (mkStore dh (Some h) fn (Some D'))
                              (<[h := stringify (doc_value D')]> dk) cs)
    | None => (Throw (Error NoFileOpen), mkSys (mkStore dh None fn (Some D')) dk cs)
    end.
Proof.
  intros HL Hr. run_store. rewrite HL; simpl. rewrite Hr; simpl.
  destruct r; simpl; destruct fh; reflexivity.
Qed.

Lemma deleteMeeting_explicit dh fh fn D dk cs L id :
  meetings D = JArr L -> comparable (Some id) L ->
  Storage.deleteMeeting id (mkSys (mkStore dh fh fn (Some D)) dk cs) =
    let D' := set_meetings
                (JArr (List.filter (fun x => negb (has_id (Some id) x)) L)) D in
    match fh with
    | Some h => (Return tt, mkSys (mkStore dh (Some h) fn (Some D'))
                              (<[h := stringify (doc_value D')]> dk) cs)
    | None => (Throw (Error NoFileOpen), mkSys (mkStore dh None fn (Some D')) dk cs)
    end.
Proof.
  intros HL Hc. run_store. rewrite HL; simpl.
  rewrite (filterM_total (id_is_not id) L).
  - simpl.
    replace (List.filter _ L)
      with (List.filter (fun x => negb (has_id (Some id) x)) L).
    + destruct fh; reflexivity.
    + apply List.filter_ext_in. intros x Hx.
      unfold comparable in Hc. rewrite List.Forall_forall in Hc.
      destruct (Hc x Hx) as [b Hb]. unfold has_id, id_is_not.
      rewrite Hb; simpl. by destruct b.
  - eapply Forall_impl; [exact Hc|]. intros x [b Hb]. unfold id_is_not.
    rewrite Hb; simpl; eauto.
Qed.

(** The two stores differ in the message of the error only. *)
Lemma DbJson_saveMeeting_state m s :
  snd (DbJson.saveMeeting m s) = snd (Storage.saveMeeting m s).
Proof.
  destruct s as [[dh fh fn [D|]] dk cs]; run_store;
    repeat (destruct_inner; simpl); auto.
Qed.

Lemma DbJson_deleteMeeting_state id s :
  snd (DbJson.deleteMeeting id s) = snd (Storage.deleteMeeting id s).
Proof.
  destruct s as [[dh fh fn [D|]] dk cs]; run_store;
    repeat (destruct_inner; simpl); auto.
Qed.

(** Where the saved meeting is in the list that [saveMeeting] leaves. *)
Lemma upsert_first p L m r :
  findIndex p L = Return r -> p m = Return true ->
  let L' := match r with Some i => <[i := m]> L | None => L ++ [m] end in
  exists i, L' !! i = Some m /\
    (forall j y, (j < i)%nat -> L' !! j = Some y -> p y = Return false) /\
    <[i := m]> L' = L'.
Proof.
  intros Hr Hm. destruct r as [i|]; cbn zeta.
  - destruct (findIndex_Some p L i Hr) as (x & Hx & _ & Hbefore).
    assert (i < length L)%nat as Hi by (eapply lookup_lt_Some; eauto).
    exists i. split; [by apply list_lookup_insert_eq|]. split.
    + intros j y Hj Hy. rewrite list_lookup_insert_ne in Hy by lia. eauto.
    + apply list_insert_insert_eq.
  - pose proof (findIndex_None p L Hr) as Hno. rewrite Forall_forall in Hno.
    exists (length L). split; [by apply list_lookup_middle|]. split.
    + intros j y Hj Hy. rewrite lookup_app_l in Hy by done.
      apply Hno. eapply list_elem_of_lookup_2; eauto.
    + replace (length L) with (length L + 0)%nat at 1 by lia.
      by rewrite insert_app_r.
Qed.

Lemma upsert_comparable (P : value -> Prop) L m (r : option nat) :
  Forall P L -> P m ->
  Forall P (match r with Some i => <[i := m]> L | None => L ++ [m] end).
Proof.
  intros HL Hm. destruct r as [i|].
  - by apply Forall_insert.
  - apply Forall_app; split; [done|]. by constructor.
Qed.

(** X9.  A meeting that was saved is found: after [saveMeeting] of an
    object with a primitive id, [getMeeting] of that id returns the
    object, whether it replaced an entry or was appended, and whether or
    not a file is bound. *)
Theorem getMeeting_returns_saved_meeting s D L o idv :
  _data (this s) = Some D -> meetings D = JArr L ->
  obj_get "id" o = Some idv -> primitive idv = true ->
  comparable (Some idv) L ->
  fst (Storage.getMeeting idv (snd (Storage.saveMeeting (JObj o) s))) = Return (JObj o) /\
  fst (DbJson.getMeeting idv (snd (DbJson.saveMeeting (JObj o) s))) = Return (JObj o).
Proof.
  intros HD HL Hid Hp Hc.
  change (DbJson.getMeeting idv) with (Storage.getMeeting idv).
  rewrite DbJson_saveMeeting_state.
  cut (fst (Storage.getMeeting idv (snd (Storage.saveMeeting (JObj o) s)))
       = Return (JObj o)); [done|].
  assert (Forall (fun x => exists b, same_id (JObj o) x = Return b) L) as Hc'.
  { eapply Forall_impl; [exact Hc|]. intros x. by rewrite (same_id_object o idv). }
  destruct (findIndex_total _ _ Hc') as [r Hr].
  pose proof (saveMeeting_data s D L (JObj o) r HD HL Hr) as Hdata.
  unfold data_after in Hdata.
  assert (same_id (JObj o) (JObj o) = Return true) as Hself.
  { rewrite (same_id_object o idv) by done. by apply id_is_self. }
  destruct (upsert_first _ L (JObj o) r Hr Hself) as (i & Hi & Hbefore & _).
  rewrite (getMeeting_run _ _ _ idv Hdata eq_refl).
  - cbn [fst]. rewrite (find_first _ _ i (JObj o)); auto.
    + unfold has_id. by rewrite (id_is_self o idv).
    + intros j y Hj Hy. unfold has_id.
      rewrite <- (same_id_object o idv) by done. by rewrite (Hbefore j y).
  - apply upsert_comparable; [done|]. exists true. by apply id_is_self.
Qed.

Lemma filter_has_id_none id L :
  List.find (has_id (Some id))
    (List.filter (fun x => negb (has_id (Some id) x)) L) = None.
Proof.
  apply find_no_match, Forall_forall. intros x Hx.
  apply list_elem_of_In, List.filter_In in Hx as [_ Hx].
  by apply negb_true_iff.
Qed.

Lemma comparable_filter id (f : value -> bool) L :
  comparable id L -> comparable id (List.filter f L).
Proof.
  unfold comparable. rewrite !List.Forall_forall. intros H x Hx.
  apply List.filter_In in Hx as [Hx _]. auto.
Qed.

(** X10.  A meeting that was deleted is not found: after [deleteMeeting id],
    [getMeeting id] returns null. *)
Theorem getMeeting_null_after_deleteMeeting s D L id :
  _data (this s) = Some D -> meetings D = JArr L ->
  comparable (Some id) L ->
  fst (Storage.getMeeting id (snd (Storage.deleteMeeting id s))) = Return JNull /\
  fst (DbJson.getMeeting id (snd (DbJson.deleteMeeting id s))) = Return JNull.
Proof.
  intros HD HL Hc.
  change (DbJson.getMeeting id) with (Storage.getMeeting id).
  rewrite DbJson_deleteMeeting_state.
  cut (fst (Storage.getMeeting id (snd (Storage.deleteMeeting id s)))
       = Return JNull); [done|].
  pose proof (deleteMeeting_data s D L id HD HL Hc) as Hdata.
  unfold data_after in Hdata.
  rewrite (getMeeting_run _ _ _ id Hdata eq_refl).
  - cbn [fst]. by rewrite filter_has_id_none.
  - by apply comparable_filter.
Qed.


Lemma set_meetings_twice a b D : set_meetings a (set_meetings b D) = set_meetings a D.
Proof. reflexivity. Qed.

(** X11.  Saving the same meeting twice in a row is the same as saving it
    once: the second [saveMeeting] has the outcome of the first and
    leaves the document, the files and the console as the first left
    them.  For a meeting whose id equals itself and a list whose ids can
    be compared with it; both stores. *)
Theorem saveMeeting_twice_is_once s D L m :
  _data (this s) = Some D -> meetings D = JArr L ->
  comparable_with m L -> same_id m m = Return true ->
  Storage.saveMeeting m (snd (Storage.saveMeeting m s)) = Storage.saveMeeting m s /\
  DbJson.saveMeeting m (snd (DbJson.saveMeeting m s)) = DbJson.saveMeeting m s.
Proof.
  intros HD HL Hc Hself.
  destruct (findIndex_total _ _ Hc) as [r Hr].
  destruct (upsert_first _ L m r Hr Hself) as (i & Hi & Hbefore & Hfix).
  pose proof (findIndex_first _ _ i m Hi Hself Hbefore) as Hr'.
  destruct s as [[dh fh fn dt] dk cs]; simpl in *; subst.
  split.
  - rewrite (saveMeeting_explicit dh fh fn D dk cs L m r HL Hr). cbn zeta.
    set (L' := match r with Some i => <[i := m]> L | None => L ++ [m] end) in *.
    destruct fh as [h|]; cbn [snd].
    + rewrite (saveMeeting_explicit dh (Some h) fn (set_meetings (JArr L') D)
                 _ cs L' m (Some i) eq_refl Hr').
      cbn zeta. rewrite Hfix, set_meetings_twice, insert_insert_eq. done.
    + rewrite (saveMeeting_explicit dh None fn (set_meetings (JArr L') D)
                 _ cs L' m (Some i) eq_refl Hr').
      cbn zeta. rewrite Hfix, set_meetings_twice. done.
  - run_store. rewrite HL; simpl. rewrite Hr; simpl.
    destruct r as [k|]; simpl; destruct fh as [h|]; simpl; rewrite Hr'; simpl;
      rewrite Hfix, ?insert_insert_eq; reflexivity.
Qed.

Lemma filter_idem (f : value -> bool) L :
  List.filter f (List.filter f L) = List.filter f L.
Proof.
  induction L as [|x L IH]; simpl; [done|].
  destruct (f x) eqn:E; simpl; [|done]. by rewrite E, IH.
Qed.

(** X12.  Deleting the same id twice in a row is the same as deleting it
    once: outcome, document, files and console. *)
Theorem deleteMeeting_twice_is_once s D L id :
  _data (this s) = Some D -> meetings D = JArr L ->
  comparable (Some id) L ->
  Storage.deleteMeeting id (snd (Storage.deleteMeeting id s))
  = Storage.deleteMeeting id s.
Proof.
  intros HD HL Hc.
  destruct s as [[dh fh fn dt] dk cs]; simpl in *; subst.
  rewrite (deleteMeeting_explicit dh fh fn D dk cs L id HL Hc). cbn zeta.
  set (K := List.filter (fun x => negb (has_id (Some id) x)) L).
  destruct fh as [h|]; cbn [snd];
    rewrite (deleteMeeting_explicit dh _ fn (set_meetings (JArr K) D) _ cs K id
               eq_refl (comparable_filter _ _ _ Hc));
    cbn zeta; unfold K; rewrite filter_idem, set_meetings_twice, ?insert_insert_eq;
    done.
Qed.

Lemma filter_upsert (f : value -> bool) L m i x :
  L !! i = Some x -> f x = false -> f m = false ->
  List.filter f (<[i := m]> L) = List.filter f L.
Proof.
  revert i. induction L as [|z L IH]; intros [|i] Hi Hx Hm; simpl in *;
    try discriminate.
  - injection Hi as ->. by rewrite Hx, Hm.
  - by rewrite (IH i).
Qed.

(** X13.  [deleteMeeting] of the id of a meeting that was just saved
    leaves the document that deleting that id from the original list
    leaves; when no entry had the id, that is the document as it was
    before the save. *)
Theorem deleteMeeting_undoes_saveMeeting s D L o idv :
  _data (this s) = Some D -> meetings D = JArr L ->
  obj_get "id" o = Some idv -> primitive idv = true ->
  comparable (Some idv) L ->
  data_after (Storage.deleteMeeting idv) (snd (Storage.saveMeeting (JObj o) s))
  = data_after (Storage.deleteMeeting idv) s /\
  ((forall x, x ∈ L -> has_id (Some idv) x = false) ->
   data_after (Storage.deleteMeeting idv) (snd (Storage.saveMeeting (JObj o) s))
   = Some D).
Proof.
  intros HD HL Hid Hp Hc.
  assert (Forall (fun x => exists b, same_id (JObj o) x = Return b) L) as Hc'.
  { eapply Forall_impl; [exact Hc|]. intros x. by rewrite (same_id_object o idv). }
  destruct (findIndex_total _ _ Hc') as [r Hr].
  pose proof (saveMeeting_data s D L (JObj o) r HD HL Hr) as Hdata.
  unfold data_after in Hdata.
  assert (id_is (Some idv) (JObj o) = Return true) as Hself
    by by apply id_is_self.
  assert (has_id (Some idv) (JObj o) = true) as Hm
    by (unfold has_id; by rewrite Hself).
  rewrite (deleteMeeting_data _ _ _ idv Hdata eq_refl)
    by (apply upsert_comparable; eauto).
  rewrite (deleteMeeting_data s D L idv HD HL Hc).
  rewrite set_meetings_twice.
  assert (List.filter (fun x => negb (has_id (Some idv) x))
            match r with Some i => <[i := JObj o]> L | None => L ++ [JObj o] end
          = List.filter (fun x => negb (has_id (Some idv) x)) L) as ->.
  { destruct r as [i|].
    - destruct (findIndex_Some _ L i Hr) as (x & Hx & Hpx & _).
      apply (filter_upsert _ L (JObj o) i x Hx); [|by rewrite Hm].
      unfold has_id. rewrite <- (same_id_object o idv) by done. by rewrite Hpx.
    - rewrite List.filter_app; simpl. rewrite Hm; simpl. by rewrite app_nil_r. }
  split; [done|]. intros Hno.
  assert (List.filter (fun x => negb (has_id (Some idv) x)) L = L) as ->.
  { clear -Hno. induction L as [|x L IH]; simpl; [done|].
    rewrite (Hno x) by constructor. simpl. rewrite IH; [done|].
    intros y Hy. apply Hno. by constructor. }
  destruct D; simpl in *; by subst.
Qed.

(* ================================================================== *)
(** * Ids stay unique; ties keep their order *)
(* ================================================================== *)

Lemma map_insert_same (g : value -> option value) L i x m :
  L !! i = Some x -> g x = g m -> map g (<[i := m]> L) = map g L.
Proof.
  revert i. induction L as [|z L IH]; intros [|i] Hi Hg; simpl in *;
    try discriminate.
  - injection Hi as ->. by rewrite Hg.
  - by rewrite (IH i).
Qed.

Lemma NoDup_map_filter (g : value -> option value) (f : value -> bool) L :
  NoDup (map g L) -> NoDup (map g (List.filter f L)).
Proof.
  induction L as [|x L IH]; simpl; [done|].
  intros [Hx HL]%NoDup_cons. destruct (f x); simpl; [|auto].
  apply NoDup_cons. split; [|auto].
  intros Hin. apply Hx. apply list_elem_of_In in Hin. apply list_elem_of_In.
  apply List.in_map_iff in Hin as (y & <- & Hy).
  apply List.in_map. apply List.filter_In in Hy as [Hy _]. done.
Qed.

(** X14.  When no two entries of the meeting list have the same id,
    [saveMeeting] and [deleteMeeting] leave a list of which that still
    holds. *)
Theorem meeting_ids_stay_unique s D L m id :
  _data (this s) = Some D -> meetings D = JArr L ->
  comparable_with m L -> comparable (Some id) L ->
  unique_ids L ->
  (exists L', section_after Meetings (Storage.saveMeeting m) s = Some (JArr L') /\
              unique_ids L') /\
  (exists L', section_after Meetings (Storage.deleteMeeting id) s = Some (JArr L') /\
              unique_ids L').
Proof.
  intros HD HL Hcm Hci Hu. unfold section_after, unique_ids in *. split.
  - destruct (findIndex_total _ _ Hcm) as [r Hr].
    rewrite (saveMeeting_data s D L m r HD HL Hr). simpl.
    eexists; split; [reflexivity|]. destruct r as [i|].
    + destruct (findIndex_Some _ L i Hr) as (x & Hx & Hpx & _).
      rewrite (map_insert_same _ L i x m Hx); [done|].
      by apply same_id_true.
    + rewrite List.map_app. apply NoDup_app. split; [done|]. split.
      * pose proof (findIndex_None _ L Hr) as Hno.
        rewrite List.Forall_forall in Hno.
        intros k Hk Hk'. apply list_elem_of_In in Hk.
        apply List.in_map_iff in Hk as (y & <- & Hy).
        simpl in Hk'. apply list_elem_of_singleton in Hk'.
        by apply (same_id_false m y (Hno y Hy)).
      * simpl. apply NoDup_singleton.
  - rewrite (deleteMeeting_data s D L id HD HL Hci). simpl.
    eexists; split; [reflexivity|]. by apply NoDup_map_filter.
Qed.

Lemma insert_sorted_stamped n x l r :
  timed x -> Forall timed l ->
  insert_sorted by_finalizedAt x l = Return r ->
  stamped n r = stamped n (x :: l).
Proof.
  intros Hx Hl. revert r. induction Hl as [|y l Hy Hl IH]; intros r; simpl.
  - by intros [= <-].
  - rewrite (by_finalizedAt_stamp x y Hx Hy); simpl.
    destruct (Z.leb_spec (stamp y - stamp x) 0) as [Hle|Hgt].
    + by intros [= <-].
    + destruct (insert_sorted by_finalizedAt x l) as [r'| |]; simpl;
        try discriminate.
      intros [= <-]. unfold stamped in *; simpl in *.
      rewrite (IH r' eq_refl).
      destruct (Z.eqb_spec (stamp y) n), (Z.eqb_spec (stamp x) n); try done. lia.
Qed.

Lemma sort_stamped n l r :
  Forall timed l -> sort by_finalizedAt l = Return r ->
  stamped n r = stamped n l.
Proof.
  intros Hl. revert r. induction Hl as [|x l Hx Hl IH]; intros r; simpl.
  - by intros [= <-].
  - destruct (sort_spec l Hl) as (r' & Hr' & Hperm & _). rewrite Hr'; simpl.
    intros Hins. rewrite (insert_sorted_stamped n x r' r Hx); [|by rewrite Hperm|done].
    unfold stamped in *; simpl. by rewrite (IH r' Hr').
Qed.

(** X15.  [getAllMeetings] keeps entries with the same timestamp in the
    order in which they are stored: for every [n], the entries of the
    result whose timestamp counts as [n] are those of the stored list,
    in the same order.  In particular meetings without a timestamp are
    listed in the order they were saved. *)
Theorem getAllMeetings_keeps_order_of_ties s D L :
  _data (this s) = Some D -> meetings D = JArr L ->
  Forall timed L ->
  exists R,
    fst (Storage.getAllMeetings s) = Return R /\
    fst (DbJson.getAllMeetings s) = Return R /\
    forall n, stamped n R = stamped n L.
Proof.
  intros HD HL Ht.
  destruct (sort_spec L Ht) as (R & HR & _).
  exists R. rewrite DbJson_getAllMeetings, (getAllMeetings_run s D L HD HL), HR.
  repeat split. intros n. by apply sort_stamped.
Qed.

(* ================================================================== *)
(** * Switching files, foreign files, reloading the page *)
(* ================================================================== *)

(** X16.  Opening another file of the folder and then the first one again
    brings the saved document back: [openFile] of another name leaves
    the first file as [_save] wrote it, and opening the first file
    again returns with the same document in memory. *)
Theorem switching_files_loses_nothing s d f g D :
  _dirHandle (this s) = Some d ->
  _fileHandle (this s) = Some (d, json_name f) ->
  _data (this s) = Some D ->
  valid_doc D = true ->
  json_name g <> json_name f ->
  let saved := snd (Storage._save s) in
  let switched := snd (Storage.openFile g saved) in
  _fileHandle (this switched) = Some (d, json_name g) /\
  disk switched !! (d, json_name f) = Some (stringify (doc_value D)) /\
  fst (Storage.openFile f switched) = Return tt /\
  exists D', data_after (Storage.openFile f) switched = Some D' /\
             same_document D' D.
Proof.
  intros Hd Hh HD Hv Hne saved switched.
  assert (_dirHandle (this saved) = Some d) as Hd1.
  { unfold saved. rewrite Storage_save_run, Hh. done. }
  assert (disk saved !! (d, json_name f) = Some (stringify (doc_value D))) as Hf.
  { unfold saved. rewrite Storage_save_run, Hh. simpl.
    rewrite lookup_insert_eq. unfold stringify_data. by rewrite HD. }
  destruct (openFile_this saved d g Hd1) as [D1 Hthis].
  fold switched in Hthis.
  assert (disk switched !! (d, json_name f) = Some (stringify (doc_value D))) as Hf'.
  { unfold switched. rewrite (openFile_disk saved d g Hd1). unfold bound; cbn [disk].
    destruct (disk saved !! (d, json_name g)); [done|].
    rewrite lookup_insert_ne; [done|]. congruence. }
  split; [by rewrite Hthis|]. split; [done|].
  assert (_dirHandle (this switched) = Some d) as Hd2 by by rewrite Hthis.
  destruct (openFile_result switched d f Hd2) as [Ho HD'].
  assert (content (d, json_name f) (disk switched) = stringify (doc_value D)) as Hc.
  { unfold content. by rewrite Hf'. }
  rewrite Hc in Ho, HD'.
  destruct (load_result_stringify D Storage._empty Hv) as (D' & Hload & Hsame & _).
  rewrite Hload in Ho, HD'. split; [done|]. by exists D'.
Qed.

(** X17.  A foreign file survives the bind but not the first save: after
    [openFile] the file still holds its text while the document is the
    default one, and the next [clearDraft] or [saveDraft] returns and
    leaves in the file the serialisation of the default document (with
    the draft that was saved), nothing of the text it held. *)
Theorem first_save_replaces_foreign_content s d f :
  _dirHandle (this s) = Some d ->
  foreign_text (content (d, json_name f) (disk s)) ->
  let opened := snd (Storage.openFile f s) in
  disk opened !! (d, json_name f) = Some (content (d, json_name f) (disk s)) /\
  fst (Storage.clearDraft opened) = Return tt /\
  disk (snd (Storage.clearDraft opened)) !! (d, json_name f)
  = Some (stringify (doc_value Storage._empty)) /\
  forall m,
    fst (Storage.saveDraft m opened) = Return tt /\
    disk (snd (Storage.saveDraft m opened)) !! (d, json_name f)
    = Some (stringify
              (doc_value
                 (set_draft (JObj (obj_set "id" (JStr "current") (spread [m])))
                    Storage._empty))).
Proof.
  intros Hd Hf opened.
  destruct (openFile_result s d f Hd) as [_ HD]. cbn zeta in HD.
  rewrite (load_result_foreign _ _ Hf) in HD. unfold data_after in HD.
  fold opened in HD. cbn [snd] in HD.
  destruct (openFile_this s d f Hd) as [D1 Hthis]. fold opened in Hthis.
  rewrite Hthis in HD. cbn [_data] in HD. injection HD as ->.
  assert (disk opened !! (d, json_name f)
          = Some (content (d, json_name f) (disk s))) as Hdisk.
  { unfold opened. rewrite (openFile_disk s d f Hd). apply bound_content. }
  split; [done|].
  clearbody opened. destruct opened as [st dk cs]. simpl in Hthis. subst st.
  run_store. rewrite !lookup_insert_eq.
  split; [done|]. split; [done|]. intros m. by rewrite lookup_insert_eq.
Qed.

(** X18.  The single-file store across a reload of the page: a valid
    document written by [_save] and read by [connectFolder] of a fresh
    store is, exactly, the document that was written, and nothing is
    logged. *)
Theorem db_json_survives_a_reload s d D :
  _fileHandle (this s) = Some (d, "db.json"%string) ->
  _data (this s) = Some D -> valid_doc D = true ->
  let reloaded := mkSys DbJson.initial (disk (snd (DbJson._save s))) [] in
  fst (DbJson._save s) = Return tt /\
  fst (DbJson.connectFolder (Some d) reloaded) = Return tt /\
  data_after (DbJson.connectFolder (Some d)) reloaded = Some D /\
  console (snd (DbJson.connectFolder (Some d) reloaded)) = [].
Proof.
  intros Hh HD Hv reloaded.
  split; [by rewrite DbJson_save_run, Hh|].
  destruct (DbJson_save_then_connect s d D Hh HD Hv DbJson.initial) as [Ho Hd];
    [done|].
  split; [done|]. split; [done|].
  rewrite (connectFolder_run reloaded d).
  rewrite (db_load_console (db_bound d reloaded) (d, "db.json"%string)
             (content (d, "db.json"%string) (disk reloaded)) DbJson.defaults)
    by auto using db_bound_content.
  assert (content (d, "db.json"%string) (disk reloaded) = stringify (doc_value D))
    as ->.
  { unfold content, reloaded. simpl. rewrite DbJson_save_run, Hh. simpl.
    rewrite lookup_insert_eq. unfold stringify_data. by rewrite HD. }
  destruct (valid_doc_inv D Hv) as (so & la & lm & _ & _ & _ & _ & _ & Hwf).
  pose proof (JSON_parse_stringify (doc_value D) Hwf) as Hparse.
  unfold doc_value in *. rewrite trim_stringify_object.
  destruct (print_head 0 (doc_value D)) as (c & r & E & _).
  unfold doc_value in E. unfold stringify in *. rewrite E in *.
  rewrite Hparse. done.
Qed.

(* ================================================================== *)
(** * The shape of a loaded document *)
(* ================================================================== *)

Lemma obj_has_assign k o ps : obj_has k o = true -> obj_has k (obj_assign o ps) = true.
Proof.
  unfold obj_has. rewrite obj_get_assign.
  destruct (obj_get k (obj_assign [] ps)); [done|]. by destruct (obj_get k o).
Qed.

Lemma shaped_empty : shaped Storage._empty.
Proof.
  split; [|done]. eexists; split; [reflexivity|].
  intros k Hk. unfold settings_fields in Hk.
  repeat (apply elem_of_cons in Hk as [->|Hk]; [reflexivity|]).
  by apply elem_of_nil in Hk.
Qed.

Lemma shaped_merge o : shaped (merge_sections o Storage._empty).
Proof.
  destruct shaped_empty as ((so & Hso & Hfields) & Ha & Hm).
  unfold shaped, merge_sections; cbn [settings attendees meetings].
  split; [|split].
  - destruct (obj_get "settings" o) as [v|]; [|by exists so].
    destruct (truthy v && typeof_object v); [|by exists so].
    eexists; split; [reflexivity|]. intros k Hk.
    unfold spread; simpl fold_left. apply obj_has_assign.
    unfold settings_fields in Hk.
    repeat (apply elem_of_cons in Hk as [->|Hk]; [reflexivity|]).
    by apply elem_of_nil in Hk.
  - by destruct (obj_get "attendees" o) as [[]|].
  - by destruct (obj_get "meetings" o) as [[]|].
Qed.

(** X19.  Whatever the bound file holds, [openFile] leaves a document of
    the shape the operations work on: settings that are an object with
    the five fields, a list of attendees and a list of meetings. *)
Theorem openFile_leaves_shaped_document s d f :
  _dirHandle (this s) = Some d ->
  exists D, data_after (Storage.openFile f) s = Some D /\ shaped D /\
    exists la lm, fst (Storage.loadAttendees (snd (Storage.openFile f s))) = Return (JArr la) /\
                  meetings D = JArr lm.
Proof.
  intros Hd. destruct (openFile_result s d f Hd) as [_ HD]. cbn zeta in HD.
  assert (shaped (snd (load_result (content (d, json_name f) (disk s))
                         Storage._empty))) as Hs.
  { unfold load_result.
    destruct (trim _); [apply shaped_empty|].
    destruct (JSON_parse _) as [[| | | | |o]| | |]; try apply shaped_empty.
    simpl. destruct (recognised o); [apply shaped_merge|apply shaped_empty]. }
  eexists. split; [exact HD|]. split; [exact Hs|].
  destruct Hs as (_ & Ha & Hm).
  unfold data_after in HD. unfold Storage.loadAttendees, bind, read_data, ret.
  rewrite HD. simpl. rewrite Ha.
  destruct (attendees _) as [| | | |la|]; try discriminate.
  destruct (meetings _) as [| | | |lm|]; try discriminate.
  by exists la, lm.
Qed.

(** X20.  The load of the single-file store does not check types: a
    db.json whose meetings are truthy and not a list is loaded, the
    bind returns, and from then on [saveMeeting], [deleteMeeting] and
    [getMeeting] throw a TypeError and leave everything as it is. *)
Theorem connectFolder_takes_meetings_of_any_type s d D o v :
  _data (this s) = Some D ->
  recognised_text (content (d, "db.json"%string) (disk s)) o ->
  obj_get "meetings" o = Some v -> truthy v = true -> isArray v = false ->
  let s' := snd (DbJson.connectFolder (Some d) s) in
  fst (DbJson.connectFolder (Some d) s) = Return tt /\
  section_after Meetings (DbJson.connectFolder (Some d)) s = Some v /\
  (forall m, DbJson.saveMeeting m s' = (Throw TypeError, s')) /\
  (forall id, DbJson.deleteMeeting id s' = (Throw TypeError, s')) /\
  (forall id, DbJson.getMeeting id s' = (Throw TypeError, s')).
Proof.
  intros HD (Hne & Ho & _) Hv Ht Ha s'.
  destruct (connectFolder_result s d D HD) as [Hout Hdata]. cbn zeta in *.
  unfold db_load_result in Hout, Hdata.
  destruct (trim (content (d, "db.json"%string) (disk s))) as [|c r]; [done|].
  rewrite Ho in Hout, Hdata. cbn [fst snd] in Hout, Hdata.
  split; [done|]. unfold section_after. rewrite Hdata. cbn.
  rewrite Hv, Ht. split; [done|].
  unfold data_after in Hdata. fold s' in Hdata. clearbody s'.
  destruct s' as [[dh fh fn dt] dk cs]. simpl in Hdata. subst dt.
  unfold DbJson.saveMeeting, DbJson.deleteMeeting, DbJson.getMeeting,
    bind, read_data, lift. cbn. rewrite Hv, Ht.
  destruct v; try discriminate; done.
Qed.

(** X21.  The multi-file store before [init]: with no document in memory
    each of the six section operations and of the five readers throws
    a TypeError and changes nothing; [init] puts the default document
    in memory and leaves the handles and the disk alone. *)
Theorem nothing_works_before_init s :
  _data (this s) = None ->
  (forall m, Storage.saveDraft m s = (Throw TypeError, s)) /\
  Storage.clearDraft s = (Throw TypeError, s) /\
  (forall m, Storage.saveMeeting m s = (Throw TypeError, s)) /\
  (forall id, Storage.deleteMeeting id s = (Throw TypeError, s)) /\
  (forall v, Storage.saveSettings v s = (Throw TypeError, s)) /\
  (forall l, Storage.saveAttendees l s = (Throw TypeError, s)) /\
  Storage.loadDraft s = (Throw TypeError, s) /\
  (forall id, Storage.getMeeting id s = (Throw TypeError, s)) /\
  Storage.getAllMeetings s = (Throw TypeError, s) /\
  Storage.loadSettings s = (Throw TypeError, s) /\
  Storage.loadAttendees s = (Throw TypeError, s) /\
  this (snd (Storage.init s))
  = mkStore (_dirHandle (this s)) (_fileHandle (this s)) (_filename (this s))
            (Some Storage._empty) /\
  disk (snd (Storage.init s)) = disk s.
Proof.
  intros HD. destruct s as [[dh fh fn dt] dk cs]; simpl in *; subst.
  repeat split.
Qed.

(* ================================================================== *)
(** * The settings of the single-file store *)
(* ================================================================== *)

Lemma has_settings_assign (f : Document -> Document) (save : M unit) s :
  (forall D, settings (f D) = settings D \/ truthy (settings (f D)) = true) ->
  (forall s', this (snd (save s')) = this s') ->
  has_settings s -> has_settings (snd (bind (assign_data f) (fun _ => save) s)).
Proof.
  intros Hf Hsave (D & HD & Ht). unfold bind, assign_data. rewrite HD.
  unfold has_settings. rewrite Hsave. simpl. exists (f D). split; [done|].
  destruct (Hf D) as [->|]; done.
Qed.

Lemma DbJson_save_this s : this (snd (DbJson._save s)) = this s.
Proof. rewrite DbJson_save_run. by destruct (_fileHandle (this s)). Qed.

(** X22.  In the single-file store the settings are truthy when the page
    starts and stay so under [connectFolder] and the six section
    operations; so [loadSettings] returns the settings in memory and
    never the defaults it has for a fallback. *)
Theorem DbJson_settings_stay_truthy :
  (forall dk cs, has_settings (mkSys DbJson.initial dk cs)) /\
  forall s, has_settings s ->
    (forall picked, has_settings (snd (DbJson.connectFolder picked s))) /\
    (forall m, has_settings (snd (DbJson.saveDraft m s))) /\
    has_settings (snd (DbJson.clearDraft s)) /\
    (forall m, has_settings (snd (DbJson.saveMeeting m s))) /\
    (forall id, has_settings (snd (DbJson.deleteMeeting id s))) /\
    (forall v, has_settings (snd (DbJson.saveSettings v s))) /\
    (forall l, has_settings (snd (DbJson.saveAttendees l s))) /\
    (exists D, _data (this s) = Some D /\
               DbJson.loadSettings s = (Return (settings D), s)).
Proof.
  split; [intros dk cs; by exists DbJson.defaults|].
  intros s Hs. pose proof Hs as (D & HD & Ht).
  split.
  { intros [d|]; [|exact Hs].
    rewrite (connectFolder_run s d).
    destruct (db_load_run (db_bound d s) (d, "db.json"%string)
                (content (d, "db.json"%string) (disk s)) D)
      as (_ & Hthis & _); auto using db_bound_content.
    unfold has_settings. rewrite Hthis. simpl. eexists; split; [reflexivity|].
    unfold db_load_result.
    destruct (trim _); [done|].
    destruct (JSON_parse _) as [[| | | | |o]| | |]; try done.
    simpl. destruct (obj_get "settings" o) as [v|]; [|done].
    by destruct (truthy v) eqn:E. }
  split.
  { intros m. apply has_settings_assign; auto using DbJson_save_this. }
  split.
  { apply has_settings_assign; auto using DbJson_save_this. }
  split.
  { intros m. unfold has_settings.
    destruct s as [[dh fh fn dt] dk cs]; simpl in *; subst.
    run_store. repeat (destruct_inner; simpl); eauto. }
  split.
  { intros id. unfold has_settings.
    destruct s as [[dh fh fn dt] dk cs]; simpl in *; subst.
    run_store. repeat (destruct_inner; simpl); eauto. }
  split.
  { intros v. apply has_settings_assign; auto using DbJson_save_this. }
  split.
  { intros l. apply has_settings_assign; auto using DbJson_save_this. }
  exists D. split; [done|].
  unfold DbJson.loadSettings, bind, read_data, ret. by rewrite HD, Ht.
Qed.

(* ================================================================== *)
(** * Listing the folder *)
(* ================================================================== *)

Lemma insert_sorted_perm cmp x l :
  (forall y, y ∈ l -> exists c, cmp x y = Return c) ->
  exists r, insert_sorted cmp x l = Return r /\ r ≡ₚ x :: l.
Proof.
  induction l as [|y l IH]; intros Hc; simpl; [by exists [x]|].
  destruct (Hc y) as [c ->]; [left|]. simpl.
  destruct (c <=? 0); [by eexists|].
  destruct IH as (r & -> & Hr); [intros z Hz; apply Hc; by right|].
  simpl. exists (y :: r). split; [done|]. rewrite Hr. apply Permutation_swap.
Qed.

Lemma sort_perm cmp l :
  (forall x y, x ∈ l -> y ∈ l -> exists c, cmp x y = Return c) ->
  exists r, sort cmp l = Return r /\ r ≡ₚ l.
Proof.
  induction l as [|x l IH]; intros Hc; simpl; [by exists []|].
  destruct IH as (r & -> & Hr); [intros y z Hy Hz; apply Hc; by right|].
  simpl. destruct (insert_sorted_perm cmp x r) as (r' & -> & Hr').
  - intros y Hy. apply Hc; [left|]. right. by rewrite <- Hr.
  - exists r'. split; [done|]. by rewrite Hr', Hr.
Qed.

Lemma insert_sorted_locale cmp x l r :
  consistent cmp ->
  Forall (fun v => exists n, v = JStr n) (x :: l) ->
  StronglySorted (in_locale_order cmp) l ->
  insert_sorted (by_localeCompare cmp) x l = Return r ->
  StronglySorted (in_locale_order cmp) r /\ r ≡ₚ x :: l.
Proof.
  intros [Hsym Htrans] Hn Hs. revert r.
  inversion Hn as [|? ? [nx ->] Hl]; subst. clear Hn.
  induction Hs as [|y l Hs IH Hy]; intros r; simpl.
  - intros [= <-]. split; [|done]. repeat constructor.
  - inversion Hl as [|? ? [ny ->] Hl']; subst. simpl.
    destruct (Z.leb_spec (cmp nx ny) 0) as [Hle|Hgt].
    + intros [= <-]. split; [|done]. constructor; [by constructor|].
      constructor; [done|].
      rewrite List.Forall_forall in Hy, Hl'. apply List.Forall_forall.
      intros z Hz. destruct (Hl' z Hz) as [nz ->]. specialize (Hy _ Hz).
      simpl in *. eauto.
    + destruct (insert_sorted (by_localeCompare cmp) (JStr nx) l) as [r'| |]
        eqn:Hr'; simpl; try discriminate.
      intros [= <-]. destruct (IH Hl' r' eq_refl) as [Hs' Hp].
      split; [|rewrite Hp; apply Permutation_swap].
      constructor; [done|]. rewrite Hp. constructor; [|done].
      simpl. apply Hsym in Hgt. lia.
Qed.

Lemma sort_locale cmp l r :
  consistent cmp ->
  Forall (fun v => exists n, v = JStr n) l ->
  sort (by_localeCompare cmp) l = Return r ->
  StronglySorted (in_locale_order cmp) r /\ r ≡ₚ l.
Proof.
  intros Hc Hl. revert r. induction Hl as [|x l Hx Hl IH]; intros r; simpl.
  - intros [= <-]. split; [constructor|done].
  - destruct (sort (by_localeCompare cmp) l) as [r'| |]; simpl; try discriminate.
    destruct (IH r' eq_refl) as [Hs Hp]. intros Hr.
    destruct (insert_sorted_locale cmp x r' r Hc) as [Hs' Hp']; auto.
    + constructor; [done|]. by rewrite Hp.
    + split; [done|]. by rewrite Hp', Hp.
Qed.

(** The names of the folder [d], as [entries] yields them. *)
Lemma entries_spec (d : string) (dk : gmap (string * string) text) (name : string) :
  In name (map (fun kv => snd (fst kv))
             (List.filter (fun kv => String.eqb (fst (fst kv)) d) (map_to_list dk)))
  <-> is_Some (dk !! (d, name)).
Proof.
  rewrite List.in_map_iff. split.
  - intros ([[d' n] t] & <- & Hin). apply List.filter_In in Hin as [Hin Hd].
    simpl in *. apply String.eqb_eq in Hd as ->.
    apply list_elem_of_In, elem_of_map_to_list in Hin. eauto.
  - intros [t Ht]. exists ((d, name), t). split; [done|].
    apply List.filter_In. split.
    + by apply list_elem_of_In, elem_of_map_to_list.
    + simpl. apply String.eqb_refl.
Qed.

Lemma entries_NoDup (d : string) (l : list ((string * string) * text)) :
  NoDup (map fst l) ->
  NoDup (map (fun kv => snd (fst kv))
           (List.filter (fun kv => String.eqb (fst (fst kv)) d) l)).
Proof.
  induction l as [|[[d' n] t] l IH]; simpl; [intros _; constructor|].
  intros [Hx Hl]%NoDup_cons.
  destruct (String.eqb_spec d' d) as [->|Hne]; simpl; [|auto].
  apply NoDup_cons. split; [|auto].
  intros Hin. apply Hx. apply list_elem_of_In in Hin. apply list_elem_of_In.
  apply List.in_map_iff in Hin as ([[d'' n'] t'] & Hn & Hin).
  apply List.filter_In in Hin as [Hin Hd]. simpl in *.
  apply String.eqb_eq in Hd as ->. subst n'.
  apply List.in_map_iff. by exists ((d, n), t').
Qed.

Lemma NoDup_filter_names (f : string -> bool) l :
  NoDup l -> NoDup (map JStr (List.filter f l)).
Proof.
  induction l as [|x l IH]; simpl; [intros _; constructor|].
  intros [Hx Hl]%NoDup_cons. destruct (f x); simpl; [|auto].
  apply NoDup_cons. split; [|auto].
  intros Hin. apply Hx. apply list_elem_of_In in Hin.
  apply List.in_map_iff in Hin as (y & [= ->] & Hy).
  apply List.filter_In in Hy as [Hy _]. by apply list_elem_of_In.
Qed.

Lemma listJsonFiles_run localeCompare s d :
  _dirHandle (this s) = Some d ->
  exists R,
    Storage.listJsonFiles localeCompare s = (Return R, s) /\
    NoDup R /\
    (forall v, v ∈ R <->
       exists name, v = JStr name /\ is_json_name name = true /\
                    is_Some (disk s !! (d, name))) /\
    (consistent localeCompare -> StronglySorted (in_locale_order localeCompare) R).
Proof.
  intros Hd. unfold Storage.listJsonFiles, bind, get_this, entries, lift.
  rewrite Hd.
  set (names := map (fun kv => snd (fst kv)) _).
  set (files := List.filter _ names).
  destruct (sort_perm (by_localeCompare localeCompare) (map JStr files))
    as (R & HR & Hperm).
  { intros x y Hx Hy. apply list_elem_of_In, List.in_map_iff in Hx as (a & <- & _).
    apply list_elem_of_In, List.in_map_iff in Hy as (b & <- & _). simpl. eauto. }
  exists R. rewrite HR. split; [done|]. split; [|split].
  - rewrite Hperm. apply NoDup_filter_names, entries_NoDup.
    apply NoDup_fst_map_to_list.
  - intros v. rewrite Hperm, list_elem_of_In, List.in_map_iff. split.
    + intros (name & <- & Hin). apply List.filter_In in Hin as [Hin Hj].
      exists name. split; [done|]. split; [done|]. by apply entries_spec.
    + intros (name & -> & Hj & Hin). exists name. split; [done|].
      apply List.filter_In. split; [by apply entries_spec|done].
  - intros Hc. apply (sort_locale localeCompare (map JStr files) R Hc); [|done].
    apply List.Forall_forall. intros v Hv.
    apply List.in_map_iff in Hv as (n & <- & _). eauto.
Qed.

(** X23.  [listJsonFiles] throws 'No folder connected.' when no folder is
    picked.  With a folder it changes nothing and returns, each once,
    exactly the names of the files of that folder whose lower-case form
    ends in .json; for a consistent collation the result is in its
    order. *)
Theorem listJsonFiles_lists_the_json_files localeCompare s :
  (_dirHandle (this s) = None ->
   Storage.listJsonFiles localeCompare s = (Throw (Error NoFolderConnected), s)) /\
  (forall d, _dirHandle (this s) = Some d ->
     exists R,
       Storage.listJsonFiles localeCompare s = (Return R, s) /\
       NoDup R /\
       (forall v, v ∈ R <->
          exists name, v = JStr name /\ is_json_name name = true /\
                       is_Some (disk s !! (d, name))) /\
       (consistent localeCompare ->
        StronglySorted (in_locale_order localeCompare) R)).
Proof.
  split.
  - intros Hd. unfold Storage.listJsonFiles, bind, get_this, throw. by rewrite Hd.
  - intros d Hd. by apply listJsonFiles_run.
Qed.

(** X24.  After an [openFile f] that returns, the file it bound is in
    the listing of the folder, with every .json file that was there
    before. *)
Theorem opened_file_is_listed localeCompare s d f :
  _dirHandle (this s) = Some d ->
  fst (Storage.openFile f s) = Return tt ->
  exists R,
    fst (Storage.listJsonFiles localeCompare (snd (Storage.openFile f s))) = Return R /\
    JStr (json_name f) ∈ R /\
    forall name, is_json_name name = true -> is_Some (disk s !! (d, name)) ->
                 JStr name ∈ R.
Proof.
  intros Hd _. destruct (openFile_this s d f Hd) as [D Hthis].
  destruct (listJsonFiles_run localeCompare (snd (Storage.openFile f s)) d)
    as (R & HR & _ & Hin & _); [by rewrite Hthis|].
  exists R. rewrite HR. split; [done|].
  rewrite (openFile_disk s d f Hd) in Hin. split.
  - apply Hin. exists (json_name f). split; [done|].
    split; [apply json_name_is_json|]. rewrite bound_content. eauto.
  - intros name Hj [t Ht]. apply Hin. exists name. split; [done|]. split; [done|].
    unfold bound; cbn [disk]. destruct (disk s !! (d, json_name f)) eqn:E; [eauto|].
    destruct (decide ((d, json_name f) = (d, name))) as [Heq|Hne].
    + rewrite Heq. rewrite lookup_insert_eq. eauto.
    + rewrite lookup_insert_ne by done. eauto.
Qed.

(* ================================================================== *)
(** * Draft, settings and attendees read back as saved *)
(* ================================================================== *)

Lemma forced_id_fields v m :
  obj_get "id" (obj_set "id" v (spread [m])) = Some v /\
  forall k, k <> "id"%string -> obj_get k (obj_set "id" v (spread [m])) = field k m.
Proof.
  split; [by rewrite obj_get_set|].
  intros k Hk. rewrite obj_get_set.
  destruct (String.eqb_spec k "id"); [done|]. reflexivity.
Qed.

(** X25.  What is saved is read back: [loadDraft] after [saveDraft m]
    returns an object with the id 'current' and every other own
    property of [m] as [m] has it, and null after [clearDraft];
    [loadSettings] after [saveSettings v] returns an object with the id
    'app' and every other own property of [v], with no default filled
    in; [loadAttendees] after [saveAttendees l] returns [l] when it is a
    list and the empty list otherwise, while [l] itself is what is kept
    in memory.  With or without a bound file; both stores. *)
Theorem singletons_read_back_as_saved s D :
  _data (this s) = Some D ->
  (forall m, exists d,
     fst (Storage.loadDraft (snd (Storage.saveDraft m s))) = Return (JObj d) /\
     fst (DbJson.loadDraft (snd (DbJson.saveDraft m s))) = Return (JObj d) /\
     obj_get "id" d = Some (JStr "current") /\
     forall k, k <> "id"%string -> obj_get k d = field k m) /\
  (fst (Storage.loadDraft (snd (Storage.clearDraft s))) = Return JNull /\
   fst (DbJson.loadDraft (snd (DbJson.clearDraft s))) = Return JNull) /\
  (forall v, exists d,
     fst (Storage.loadSettings (snd (Storage.saveSettings v s))) = Return (JObj d) /\
     fst (DbJson.loadSettings (snd (DbJson.saveSettings v s))) = Return (JObj d) /\
     obj_get "id" d = Some (JStr "app") /\
     forall k, k <> "id"%string -> obj_get k d = field k v) /\
  (forall l,
     fst (Storage.loadAttendees (snd (Storage.saveAttendees l s)))
     = Return (if isArray l then l else JArr []) /\
     fst (DbJson.loadAttendees (snd (DbJson.saveAttendees l s)))
     = Return (if isArray l then l else JArr []) /\
     section_after Attendees (Storage.saveAttendees l) s = Some l /\
     section_after Attendees (DbJson.saveAttendees l) s = Some l).
Proof.
  intros HD. destruct s as [[dh fh fn dt] dk cs]; simpl in *; subst.
  split; [|split; [|split]].
  - intros m. exists (obj_set "id" (JStr "current") (spread [m])).
    destruct (forced_id_fields (JStr "current") m) as [Hid Hk].
    split; [by destruct fh|]. split; [by destruct fh|]. done.
  - by destruct fh.
  - intros v. exists (obj_set "id" (JStr "app") (spread [v])).
    destruct (forced_id_fields (JStr "app") v) as [Hid Hk].
    split; [by destruct fh|]. split; [by destruct fh|]. done.
  - intros l. unfold section_after, data_after. by destruct fh.
Qed.

(* ================================================================== *)
(** * The name of the IndexedDB database *)
(* ================================================================== *)

Import Idb.

Lemma to_int32_mod n : to_int32 n mod 4294967296 = n mod 4294967296.
Proof.
  unfold to_int32. rewrite Zminus_mod_idemp_l. f_equal. lia.
Qed.

Lemma to_int32_cong a b :
  a mod 4294967296 = b mod 4294967296 -> to_int32 a = to_int32 b.
Proof.
  intros H. unfold to_int32.
  rewrite (Zplus_mod a), (Zplus_mod b), H. done.
Qed.

Lemma to_int32_range n : -2147483648 <= to_int32 n <= 2147483647.
Proof.
  unfold to_int32.
  pose proof (Z.mod_pos_bound (n + 2147483648) 4294967296 ltac:(lia)). lia.
Qed.

Lemma polynomial_cong s h1 h2 :
  h1 mod 4294967296 = h2 mod 4294967296 ->
  polynomial h1 s mod 4294967296 = polynomial h2 s mod 4294967296.
Proof.
  revert h1 h2. induction s as [|c s IH]; intros h1 h2 H; simpl; [done|].
  apply IH. rewrite (Zplus_mod (31 * h1)), (Zplus_mod (31 * h2)).
  rewrite (Zmult_mod 31 h1), (Zmult_mod 31 h2), H. done.
Qed.

Lemma hash_from_polynomial s h :
  hash_from (to_int32 h) s = to_int32 (polynomial h s).
Proof.
  revert h. induction s as [|c s IH]; intros h; simpl; [done|].
  rewrite IH. apply to_int32_cong, polynomial_cong.
  unfold imul. rewrite Zplus_mod, to_int32_mod, <- Zplus_mod.
  rewrite (Zplus_mod (31 * to_int32 h)), (Zplus_mod (31 * h)).
  rewrite (Zmult_mod 31 (to_int32 h)), (Zmult_mod 31 h), to_int32_mod. done.
Qed.

Lemma lastIndexOf_bound c s : -1 <= lastIndexOf c s < Z.of_nat (String.length s).
Proof.
  induction s as [|x s IH]; simpl; [lia|].
  destruct (Z.leb_spec 0 (lastIndexOf c s)); [lia|].
  destruct (Ascii.eqb x c); lia.
Qed.

Lemma lastIndexOf_app c a file :
  lastIndexOf c file = -1 ->
  lastIndexOf c (a ++ String c file) = Z.of_nat (String.length a).
Proof.
  intros Hf. induction a as [|x a IH].
  - rewrite append_nil. simpl. rewrite Hf. simpl. by rewrite Ascii.eqb_refl.
  - rewrite append_cons. simpl. rewrite IH.
    destruct (Z.leb_spec 0 (Z.of_nat (String.length a))); lia.
Qed.

Lemma substring_prefix a b :
  String.substring 0 (String.length a) (a ++ b) = a.
Proof.
  induction a as [|x a IH].
  - rewrite append_nil. by destruct b.
  - rewrite append_cons. simpl. by rewrite IH.
Qed.

Lemma append_assoc (a b c : string) : ((a ++ b) ++ c = a ++ (b ++ c))%string.
Proof.
  induction a as [|x a IH]; [done|]. rewrite !append_cons. by rewrite IH.
Qed.

Lemma directory_of_file dir file :
  lastIndexOf "/" file = -1 ->
  directory (dir ++ String "/" file) = (dir ++ "/")%string.
Proof.
  intros Hf. unfold directory. rewrite (lastIndexOf_app _ dir file Hf).
  replace (Z.to_nat (Z.of_nat (String.length dir) + 1))
    with (String.length (dir ++ "/")) by (rewrite length_append; simpl; lia).
  replace (dir ++ String "/" file)%string with ((dir ++ "/") ++ file)%string
    by (by rewrite append_assoc).
  apply substring_prefix.
Qed.

Lemma directory_no_slash path :
  lastIndexOf "/" path = -1 -> directory path = EmptyString.
Proof. intros H. unfold directory. rewrite H. simpl. by destruct path. Qed.

(** X26.  The name of the IndexedDB database depends on the folder of
    the page only: the directory of a path is the path up to its last
    slash, two pages of one folder have the same database name, and a
    path without a slash has the name 'MM_0'. *)
Theorem DB_NAME_is_the_same_for_one_folder dir file file' :
  Idb.lastIndexOf "/" file = -1 ->
  Idb.lastIndexOf "/" file' = -1 ->
  Idb.directory (dir ++ String "/" file) = (dir ++ "/")%string /\
  Idb.DB_NAME (Some (dir ++ String "/" file)%string)
  = Idb.DB_NAME (Some (dir ++ String "/" file')%string) /\
  Idb.DB_NAME (Some file) = "MM_0"%string.
Proof.
  intros Hf Hf'. split; [by apply directory_of_file|]. split.
  - unfold Idb.DB_NAME. cbn zeta. by rewrite !directory_of_file.
  - unfold Idb.DB_NAME. cbn zeta. by rewrite directory_no_slash.
Qed.

(** X27.  The hash behind the database name is the polynomial in 31 of
    the code units of the directory, wrapped once to 32 bits: wrapping
    at every step of the loop loses nothing.  It is a 32-bit integer,
    and its magnitude is at most 2^31. *)
Theorem DB_NAME_hash_is_the_wrapped_polynomial dir :
  Idb.hash_from 0 dir = Idb.to_int32 (Idb.polynomial 0 dir) /\
  -2147483648 <= Idb.hash_from 0 dir <= 2147483647 /\
  Z.abs (Idb.hash_from 0 dir) <= 2147483648.
Proof.
  pose proof (hash_from_polynomial dir 0) as H.
  change (to_int32 0) with 0 in H. rewrite H.
  pose proof (to_int32_range (polynomial 0 dir)). split; [done|].
  split; [done|]. lia.
Qed.


Lemma digit36_code d :
  0 <= d < 36 ->
  Z.of_N (N_of_ascii (digit36 d)) = if d <? 10 then 48 + d else 87 + d.
Proof.
  intros Hd. unfold digit36.
  destruct (Z.ltb_spec d 10); rewrite N_ascii_embedding by lia; lia.
Qed.

Lemma value36_digit36 d : 0 <= d < 36 -> value36 (digit36 d) = d.
Proof.
  intros Hd. unfold value36. rewrite (digit36_code d Hd).
  destruct (Z.ltb_spec d 10).
  - destruct (Z.ltb_spec (48 + d) 58); lia.
  - destruct (Z.ltb_spec (87 + d) 58); lia.
Qed.

Lemma is_digit36_digit36 d : 0 <= d < 36 -> is_digit36 (digit36 d) = true.
Proof.
  intros Hd. unfold is_digit36. pose proof (digit36_code d Hd) as Hc.
  destruct (Z.ltb_spec d 10).
  - apply orb_true_iff; left. apply andb_true_iff; split; apply N.leb_le; lia.
  - apply orb_true_iff; right. apply andb_true_iff; split; apply N.leb_le; lia.
Qed.

Lemma all_digit36_app a b :
  all_digit36 (a ++ b) = all_digit36 a && all_digit36 b.
Proof.
  induction a as [|x a IH]; [done|]. rewrite append_cons. simpl.
  by rewrite IH, andb_assoc.
Qed.

Lemma number36_app a w rest :
  number36 a (w ++ rest) = number36 (number36 a w) rest.
Proof.
  revert a. induction w as [|x w IH]; intros a; [done|].
  rewrite append_cons. simpl. apply IH.
Qed.

Lemma radix36_S fuel n acc :
  radix36 (S fuel) n acc =
    if n <? 36 then String (digit36 (n mod 36)) acc
    else radix36 fuel (n / 36) (String (digit36 (n mod 36)) acc).
Proof. reflexivity. Qed.

(** The numeral of [n]: its digits, most significant first, in front of
    [acc]. *)
Lemma radix36_spec f n acc :
  0 <= n < 2 ^ Z.of_nat (S f) ->
  exists w,
    radix36 (S f) n acc = (w ++ acc)%string /\
    all_digit36 w = true /\
    (forall a, number36 a w = a * 36 ^ Z.of_nat (String.length w) + n) /\
    (1 <= String.length w)%nat /\
    (String.length w = 1%nat \/ 36 ^ (Z.of_nat (String.length w) - 1) <= n).
Proof.
  revert n acc. induction f as [|f IH]; intros n acc Hn.
  - assert (n < 36) as Hlt by (simpl in Hn; lia).
    rewrite radix36_S. destruct (Z.ltb_spec n 36); [|lia].
    exists (String (digit36 (n mod 36)) EmptyString).
    rewrite Z.mod_small by lia.
    split; [done|]. split; [simpl; by rewrite is_digit36_digit36 by lia|].
    split; [|split; [done|by left]].
    intros a. simpl. rewrite value36_digit36 by lia. lia.
  - rewrite radix36_S. destruct (Z.ltb_spec n 36) as [Hlt|Hge].
    + exists (String (digit36 (n mod 36)) EmptyString).
      rewrite Z.mod_small by lia.
      split; [done|]. split; [simpl; by rewrite is_digit36_digit36 by lia|].
      split; [|split; [done|by left]].
      intros a. simpl. rewrite value36_digit36 by lia. lia.
    + assert (0 <= n / 36 < 2 ^ Z.of_nat (S f)) as Hq.
      { split; [apply Z.div_pos; lia|].
        apply Z.div_lt_upper_bound; [lia|].
        rewrite (Nat2Z.inj_succ (S f)), Z.pow_succ_r in Hn by lia. lia. }
      destruct (IH (n / 36) (String (digit36 (n mod 36)) acc) Hq)
        as (w & Hw & Hall & Hnum & Hpos & Hlen).
      exists (w ++ String (digit36 (n mod 36)) EmptyString)%string.
      pose proof (Z.mod_pos_bound n 36 ltac:(lia)) as Hm.
      split; [by rewrite Hw, append_assoc|].
      split.
      { rewrite all_digit36_app, Hall. simpl. by rewrite is_digit36_digit36. }
      rewrite length_append. simpl String.length.
      replace (Z.of_nat (String.length w + 1)) with (Z.succ (Z.of_nat (String.length w)))
        by lia.
      split.
      * intros a. rewrite number36_app, Hnum. simpl.
        rewrite value36_digit36 by done. rewrite Z.pow_succ_r by lia.
        pose proof (Z.div_mod n 36 ltac:(lia)). lia.
      * split; [lia|].
        right. replace (Z.succ (Z.of_nat (String.length w)) - 1)
          with (Z.of_nat (String.length w)) by lia.
        assert (1 <= n / 36) by (apply Z.div_le_lower_bound; lia).
        pose proof (Z.div_mod n 36 ltac:(lia)) as Hdm.
        destruct Hlen as [H1|Hle].
        -- rewrite H1. simpl. lia.
        -- replace (Z.of_nat (String.length w))
             with (Z.succ (Z.of_nat (String.length w) - 1)) by lia.
           rewrite Z.pow_succ_r by lia. lia.
Qed.

Lemma toString36_spec n :
  0 <= n ->
  all_digit36 (toString36 n) = true /\
  number36 0 (toString36 n) = n /\
  (1 <= String.length (toString36 n))%nat /\
  (String.length (toString36 n) = 1%nat \/
   36 ^ (Z.of_nat (String.length (toString36 n)) - 1) <= n).
Proof.
  intros Hn. unfold toString36.
  destruct (radix36_spec (Z.to_nat (Z.log2 n)) n EmptyString)
    as (w & Hw & Hall & Hnum & Hpos & Hlen).
  { split; [done|]. rewrite Nat2Z.inj_succ, Z2Nat.id by apply Z.log2_nonneg.
    destruct (Z.eq_dec n 0) as [->|]; [done|].
    apply Z.log2_spec. lia. }
  rewrite Hw. assert ((w ++ "")%string = w) as ->.
  { clear. induction w as [|x w IH]; [done|]. rewrite append_cons. by rewrite IH. }
  split; [done|]. split; [|done]. rewrite Hnum. lia.
Qed.

Lemma hash_from_bound dir : Z.abs (hash_from 0 dir) <= 2147483648.
Proof.
  pose proof (hash_from_polynomial dir 0) as H.
  change (to_int32 0) with 0 in H. rewrite H.
  pose proof (to_int32_range (polynomial 0 dir)). lia.
Qed.

(** X28.  The database name is 'MM_' followed by one to six digits of
    base 36 (0-9, a-z) that read back as the magnitude of the hash; so
    two pages have the same database exactly when the hashes of their
    directories have the same magnitude.  When the path cannot be read
    the name is 'MeetingMinutesDB'. *)
Theorem DB_NAME_is_a_base36_numeral path :
  (exists w,
     DB_NAME (Some path) = String "M" (String "M" (String "_" w)) /\
     (1 <= String.length w <= 6)%nat /\
     all_digit36 w = true /\
     number36 0 w = Z.abs (hash_from 0 (directory path))) /\
  (forall path',
     DB_NAME (Some path) = DB_NAME (Some path') <->
     Z.abs (hash_from 0 (directory path)) = Z.abs (hash_from 0 (directory path'))) /\
  DB_NAME None = "MeetingMinutesDB"%string.
Proof.
  split; [|split; [|done]].
  - exists (toString36 (Z.abs (hash_from 0 (directory path)))).
    split; [done|].
    destruct (toString36_spec (Z.abs (hash_from 0 (directory path))))
      as (Hall & Hnum & Hpos & Hlen); [lia|].
    split; [|done].
    pose proof (hash_from_bound (directory path)) as Hb.
    set (w := toString36 _) in *. clearbody w.
    split; [done|].
    destruct Hlen as [->|Hle]; [lia|].
    destruct (le_lt_dec (String.length w) 6) as [|Hbig]; [done|]. exfalso.
    assert (36 ^ 6 <= 36 ^ (Z.of_nat (String.length w) - 1))
      by (apply Z.pow_le_mono_r; lia).
    change (36 ^ 6) with 2176782336 in *. lia.
  - intros path'. unfold DB_NAME. cbn zeta. split.
    + intros H. injection H as H. rewrite !append_nil in H.
      destruct (toString36_spec (Z.abs (hash_from 0 (directory path))))
        as (_ & <- & _); [lia|].
      destruct (toString36_spec (Z.abs (hash_from 0 (directory path'))))
        as (_ & <- & _); [lia|].
      by rewrite H.
    + by intros ->.
Qed.

(* ================================================================== *)
(** * The further properties on sample data *)
(* ================================================================== *)

Import Sample.

Lemma code_unit_order_consistent : consistent code_unit_order.
Proof.
  split.
  - intros a. induction a as [|x a IH]; intros [|y b]; simpl; try lia.
    destruct (N.ltb_spec (N_of_ascii x) (N_of_ascii y)),
             (N.ltb_spec (N_of_ascii y) (N_of_ascii x)); try lia. apply IH.
  - intros a. induction a as [|x a IH]; intros [|y b] [|z c]; simpl; try lia.
    destruct (N.ltb_spec (N_of_ascii x) (N_of_ascii y)),
             (N.ltb_spec (N_of_ascii y) (N_of_ascii x)),
             (N.ltb_spec (N_of_ascii y) (N_of_ascii z)),
             (N.ltb_spec (N_of_ascii z) (N_of_ascii y)),
             (N.ltb_spec (N_of_ascii x) (N_of_ascii z)),
             (N.ltb_spec (N_of_ascii z) (N_of_ascii x)); try lia. apply IH.
Qed.

(** The folder minutes holds Board.JSON, notes.txt and team.json: the
    two documents are listed, in the order of the collation. *)
Example listJsonFiles_mixed_folder :
  fst (Storage.listJsonFiles code_unit_order
         (mkSys unbound_store mixed_folder []))
  = Return [JStr "Board.JSON"; JStr "team.json"].
Proof. vm_compute. reflexivity. Qed.

(** The name of the database of the pages of two folders. *)
Example DB_NAME_minutes :
  Idb.DB_NAME (Some "/minutes/index.html"%string) = "MM_6lfjxd"%string /\
  Idb.hash_from 0 "/minutes/" = -398794657 /\
  Idb.DB_NAME (Some "/a/very/long/path/to/the/meeting-minutes/folder/index.html"%string)
  = "MM_ucqdr4"%string.
Proof. vm_compute. repeat split. Qed.


Lemma sample_unique_ids : unique_ids history.
Proof.
  unfold unique_ids, history. simpl.
  repeat (apply NoDup_cons; split;
          [rewrite ?elem_of_cons, elem_of_nil; intuition discriminate|]).
  constructor.
Qed.

Lemma sample_timed : Forall timed history.
Proof. repeat constructor; by eexists. Qed.

Lemma sample_foreign :
  foreign_text (content ("minutes", json_name "team")%string
                  (disk (sys unbound_store foreign_file))).
Proof.
  right. right. right. exists [("foo"%string, JNum 1)].
  split; [vm_compute; reflexivity|reflexivity].
Qed.

Lemma binding_stays_coherent_witness :
  in_picked_folder (this (sys bound_store [])) /\
  fst (Storage.openFile "notes" (sys bound_store [])) = Return tt /\
  in_picked_folder (this (snd (Storage.connectFolder (Some "archive"%string)
                                 (sys bound_store [])))) /\
  coherent (this (snd (Storage.openFile "notes" (sys bound_store [])))).
Proof.
  assert (in_picked_folder (this (sys bound_store []))) as H by (repeat split).
  assert (fst (Storage.openFile "notes" (sys bound_store [])) = Return tt) as Hret
    by reflexivity.
  split; [exact H|]. split; [exact Hret|].
  destruct binding_stays_coherent as (_ & Hk & Ho & _).
  destruct (Hk (sys bound_store []) H) as (_ & Hc & _).
  split; [exact (Hc (Some "archive"%string))|].
  exact (Ho (sys bound_store []) "notes"%string Hret).
Defined.

Lemma connectFolder_unbinds_the_file_witness :
  _data (this (sys bound_store [])) = Some doc /\
  fst (Storage.clearDraft
         (snd (Storage.connectFolder (Some "archive"%string) (sys bound_store []))))
  = Throw (Error NoFileOpen).
Proof.
  split; [reflexivity|].
  destruct (connectFolder_unbinds_the_file (sys bound_store []) "archive" doc eq_refl)
    as (_ & _ & _ & _ & _ & _ & [H _] & _).
  exact H.
Defined.

Lemma openFile_appends_json_once_witness :
  _dirHandle (this (sys unbound_store [])) = Some "minutes"%string /\
  fst (Storage.openFile "team" (sys unbound_store [])) = Return tt /\
  Storage.activeFile (this (snd (Storage.openFile "team" (sys unbound_store []))))
  = Some (json_name "team") /\
  _fileHandle (this (snd (Storage.openFile "team" (sys unbound_store []))))
  = Some ("minutes"%string, json_name "team").
Proof.
  assert (fst (Storage.openFile "team" (sys unbound_store [])) = Return tt) as Hret
    by reflexivity.
  split; [reflexivity|]. split; [exact Hret|].
  destruct (openFile_appends_json_once (sys unbound_store []) "minutes" "team" eq_refl)
    as (_ & H & Hb & _).
  split; [exact H|exact (Hb Hret)].
Defined.

Lemma binding_creates_but_never_rewrites_witness :
  _data (this (sys unbound_store foreign_file)) = Some doc /\
  disk (snd (Storage.openFile "notes" (sys unbound_store foreign_file)))
    !! ("minutes", "team.json")%string = Some foreign_file.
Proof.
  split; [reflexivity|].
  destruct (binding_creates_but_never_rewrites (sys unbound_store foreign_file)
              "minutes" "notes" doc eq_refl) as [H _].
  destruct (H eq_refl) as [_ Hkeep].
  apply Hkeep. reflexivity.
Defined.

Lemma openFile_warns_once_on_foreign_content_witness :
  _dirHandle (this (sys unbound_store foreign_file)) = Some "minutes"%string /\
  console (snd (Storage.openFile "team" (sys unbound_store foreign_file)))
  = [WarnNoRecognisedKeys (Some (json_name "team"))].
Proof.
  split; [reflexivity|].
  destruct (openFile_warns_once_on_foreign_content (sys unbound_store foreign_file)
              "minutes" "team" eq_refl) as (_ & _ & _ & H & _).
  apply (H [("foo"%string, JNum 1)]).
  - intros E. vm_compute in E. discriminate.
  - vm_compute. reflexivity.
  - reflexivity.
Defined.

Lemma connectFolder_warns_only_on_unreadable_root_witness :
  _data (this (sys unbound_store (lit "7"))) = Some doc /\
  console (snd (DbJson.connectFolder (Some "minutes"%string)
                  (sys unbound_store (lit "7"))))
  = [WarnDbParseError].
Proof.
  split; [reflexivity|].
  destruct (connectFolder_warns_only_on_unreadable_root (sys unbound_store (lit "7"))
              "minutes" doc eq_refl) as (_ & _ & H & _).
  destruct (H (JNum 7)) as [E _]; [| |reflexivity|exact E].
  - intros E. vm_compute in E. discriminate.
  - vm_compute. reflexivity.
Defined.

Lemma readers_answer_from_memory_witness :
  fst (Storage.loadAttendees (sys unbound_store [])) = Return (JArr [attendee]) /\
  isArray (JArr [attendee]) = true.
Proof.
  split; [reflexivity|].
  destruct readers_answer_from_memory as (_ & _ & _ & _ & H).
  destruct (H (sys unbound_store []) (JArr [attendee])) as (Ha & _).
  apply Ha. reflexivity.
Defined.

Lemma getMeeting_first_match_or_null_witness :
  comparable (Some (JStr "m3")) history /\
  fst (Storage.getMeeting (JStr "m3") (sys bound_store [])) = Return (meeting "m3" 3).
Proof.
  split; [apply sample_comparable|].
  destruct (getMeeting_first_match_or_null (sys bound_store []) doc history (JStr "m3")
              eq_refl eq_refl (sample_comparable "m3")) as [_ H].
  destruct (H 2%nat (meeting "m3" 3) eq_refl eq_refl) as [E _]; [|exact E].
  intros [|[|j]] y Hj Hy; try lia; injection Hy as <-; reflexivity.
Defined.

Lemma getMeeting_returns_saved_meeting_witness :
  comparable (Some (JStr "m1")) history /\
  fst (Storage.getMeeting (JStr "m1")
         (snd (Storage.saveMeeting (meeting "m1" 9) (sys bound_store []))))
  = Return (meeting "m1" 9).
Proof.
  split; [apply sample_comparable|].
  destruct (getMeeting_returns_saved_meeting (sys bound_store []) doc history
              [("id"%string, JStr "m1"); ("finalizedAt"%string, JNum 9);
               ("date"%string, JStr "2024-03-04"); ("agendaPoints"%string, JArr []);
               ("attendees"%string, JArr [JNum 0])]
              (JStr "m1") eq_refl eq_refl eq_refl eq_refl (sample_comparable "m1"))
    as [E _].
  exact E.
Defined.

Lemma getMeeting_null_after_deleteMeeting_witness :
  comparable (Some (JStr "m3")) history /\
  fst (Storage.getMeeting (JStr "m3")
         (snd (Storage.deleteMeeting (JStr "m3") (sys bound_store []))))
  = Return JNull.
Proof.
  split; [apply sample_comparable|].
  destruct (getMeeting_null_after_deleteMeeting (sys bound_store []) doc history
              (JStr "m3") eq_refl eq_refl (sample_comparable "m3")) as [E _].
  exact E.
Defined.

Lemma saveMeeting_twice_is_once_witness :
  comparable_with (meeting "m9" 9) history /\
  same_id (meeting "m9" 9) (meeting "m9" 9) = Return true /\
  Storage.saveMeeting (meeting "m9" 9)
    (snd (Storage.saveMeeting (meeting "m9" 9) (sys bound_store [])))
  = Storage.saveMeeting (meeting "m9" 9) (sys bound_store []).
Proof.
  assert (comparable_with (meeting "m9" 9) history) as H1
    by (by apply sample_comparable_with).
  split; [exact H1|]. split; [reflexivity|].
  destruct (saveMeeting_twice_is_once (sys bound_store []) doc history
              (meeting "m9" 9) eq_refl eq_refl H1 eq_refl) as [E _].
  exact E.
Defined.

Lemma deleteMeeting_twice_is_once_witness :
  comparable (Some (JStr "m1")) history /\
  Storage.deleteMeeting (JStr "m1")
    (snd (Storage.deleteMeeting (JStr "m1") (sys bound_store [])))
  = Storage.deleteMeeting (JStr "m1") (sys bound_store []).
Proof.
  split; [apply sample_comparable|].
  exact (deleteMeeting_twice_is_once (sys bound_store []) doc history (JStr "m1")
           eq_refl eq_refl (sample_comparable "m1")).
Defined.

Lemma deleteMeeting_undoes_saveMeeting_witness :
  comparable (Some (JStr "m9")) history /\
  (forall x, x ∈ history -> has_id (Some (JStr "m9")) x = false) /\
  data_after (Storage.deleteMeeting (JStr "m9"))
    (snd (Storage.saveMeeting (meeting "m9" 9) (sys bound_store [])))
  = Some doc.
Proof.
  assert (forall x, x ∈ history -> has_id (Some (JStr "m9")) x = false) as Hno.
  { intros x Hx. unfold history in Hx.
    repeat (apply elem_of_cons in Hx as [->|Hx]; [reflexivity|]).
    by apply elem_of_nil in Hx. }
  split; [apply sample_comparable|]. split; [exact Hno|].
  destruct (deleteMeeting_undoes_saveMeeting (sys bound_store []) doc history
              [("id"%string, JStr "m9"); ("finalizedAt"%string, JNum 9);
               ("date"%string, JStr "2024-03-04"); ("agendaPoints"%string, JArr []);
               ("attendees"%string, JArr [JNum 0])]
              (JStr "m9") eq_refl eq_refl eq_refl eq_refl (sample_comparable "m9"))
    as [_ H].
  exact (H Hno).
Defined.

Lemma meeting_ids_stay_unique_witness :
  comparable_with (meeting "m1" 9) history /\
  comparable (Some (JStr "m3")) history /\
  unique_ids history /\
  exists L', section_after Meetings (Storage.saveMeeting (meeting "m1" 9))
               (sys bound_store []) = Some (JArr L') /\ unique_ids L'.
Proof.
  assert (comparable_with (meeting "m1" 9) history) as H1
    by (by apply sample_comparable_with).
  split; [exact H1|]. split; [apply sample_comparable|].
  split; [exact sample_unique_ids|].
  destruct (meeting_ids_stay_unique (sys bound_store []) doc history
              (meeting "m1" 9) (JStr "m3") eq_refl eq_refl H1
              (sample_comparable "m3") sample_unique_ids) as [H _].
  exact H.
Defined.

Lemma getAllMeetings_keeps_order_of_ties_witness :
  Forall timed history /\
  exists R, fst (Storage.getAllMeetings (sys bound_store [])) = Return R /\
            forall n, stamped n R = stamped n history.
Proof.
  split; [exact sample_timed|].
  destruct (getAllMeetings_keeps_order_of_ties (sys bound_store []) doc history
              eq_refl eq_refl sample_timed) as (R & HR & _ & Hs).
  exists R. split; [exact HR|exact Hs].
Defined.

Lemma switching_files_loses_nothing_witness :
  valid_doc doc = true /\ json_name "board" <> json_name "team" /\
  exists D',
    data_after (Storage.openFile "team")
      (snd (Storage.openFile "board" (snd (Storage._save (sys bound_store [])))))
    = Some D' /\ same_document D' doc.
Proof.
  assert (json_name "board" <> json_name "team") as Hne by discriminate.
  split; [reflexivity|]. split; [exact Hne|].
  destruct (switching_files_loses_nothing (sys bound_store []) "minutes" "team"
              "board" doc eq_refl eq_refl eq_refl eq_refl Hne)
    as (_ & _ & _ & H).
  exact H.
Defined.

Lemma first_save_replaces_foreign_content_witness :
  foreign_text (content ("minutes", json_name "team")%string
                  (disk (sys unbound_store foreign_file))) /\
  disk (snd (Storage.clearDraft
               (snd (Storage.openFile "team" (sys unbound_store foreign_file)))))
    !! ("minutes", json_name "team")%string
  = Some (stringify (doc_value Storage._empty)).
Proof.
  split; [exact sample_foreign|].
  destruct (first_save_replaces_foreign_content (sys unbound_store foreign_file)
              "minutes" "team" eq_refl sample_foreign) as (_ & _ & H & _).
  exact H.
Defined.

Lemma db_json_survives_a_reload_witness :
  valid_doc doc = true /\
  data_after (DbJson.connectFolder (Some "minutes"%string))
    (mkSys DbJson.initial
       (disk (snd (DbJson._save
                     (mkSys (mkStore (Some "minutes"%string)
                               (Some ("minutes"%string, "db.json"%string)) None
                               (Some doc)) ∅ []))))
       [])
  = Some doc.
Proof.
  split; [reflexivity|].
  destruct (db_json_survives_a_reload
              (mkSys (mkStore (Some "minutes"%string)
                        (Some ("minutes"%string, "db.json"%string)) None
                        (Some doc)) ∅ [])
              "minutes" doc eq_refl eq_refl eq_refl) as (_ & _ & H & _).
  exact H.
Defined.

Lemma openFile_leaves_shaped_document_witness :
  _dirHandle (this (sys unbound_store date_mode_file)) = Some "minutes"%string /\
  exists D, data_after (Storage.openFile "team") (sys unbound_store date_mode_file)
            = Some D /\ shaped D.
Proof.
  split; [reflexivity|].
  destruct (openFile_leaves_shaped_document (sys unbound_store date_mode_file)
              "minutes" "team" eq_refl) as (D & HD & Hs & _).
  exists D. split; [exact HD|exact Hs].
Defined.

Lemma connectFolder_takes_meetings_of_any_type_witness :
  recognised_text
    (content ("minutes", "db.json")%string
       (disk (sys unbound_store
                (stringify (JObj [("meetings"%string, JObj [])])))))
    [("meetings"%string, JObj [])] /\
  fst (DbJson.saveMeeting (meeting "m9" 9)
         (snd (DbJson.connectFolder (Some "minutes"%string)
                 (sys unbound_store
                    (stringify (JObj [("meetings"%string, JObj [])]))))))
  = Throw TypeError.
Proof.
  assert (recognised_text
            (content ("minutes", "db.json")%string
               (disk (sys unbound_store
                        (stringify (JObj [("meetings"%string, JObj [])])))))
            [("meetings"%string, JObj [])]) as Hrec.
  { split; [|split]; [|vm_compute; reflexivity|reflexivity].
    intros H. vm_compute in H. discriminate. }
  split; [exact Hrec|].
  destruct (connectFolder_takes_meetings_of_any_type
              (sys unbound_store (stringify (JObj [("meetings"%string, JObj [])])))
              "minutes" doc [("meetings"%string, JObj [])] (JObj [])
              eq_refl Hrec eq_refl eq_refl eq_refl) as (_ & _ & H & _).
  exact (f_equal fst (H (meeting "m9" 9))).
Defined.

Lemma nothing_works_before_init_witness :
  _data (this (mkSys Storage.initial ∅ [])) = None /\
  Storage.loadSettings (mkSys Storage.initial ∅ [])
  = (Throw TypeError, mkSys Storage.initial ∅ []).
Proof.
  split; [reflexivity|].
  destruct (nothing_works_before_init (mkSys Storage.initial ∅ []) eq_refl)
    as (_ & _ & _ & _ & _ & _ & _ & _ & _ & H & _).
  exact H.
Defined.

Lemma DbJson_settings_stay_truthy_witness :
  has_settings (mkSys DbJson.initial two_folders []) /\
  has_settings (snd (DbJson.connectFolder (Some "archive"%string)
                       (mkSys DbJson.initial two_folders []))).
Proof.
  destruct DbJson_settings_stay_truthy as [H0 Hk].
  split; [apply H0|].
  destruct (Hk (mkSys DbJson.initial two_folders []) (H0 two_folders []))
    as (Hc & _).
  exact (Hc (Some "archive"%string)).
Defined.

Lemma listJsonFiles_lists_the_json_files_witness :
  _dirHandle (this (mkSys unbound_store mixed_folder [])) = Some "minutes"%string /\
  consistent code_unit_order /\
  exists R,
    Storage.listJsonFiles code_unit_order (mkSys unbound_store mixed_folder [])
    = (Return R, mkSys unbound_store mixed_folder []) /\
    StronglySorted (in_locale_order code_unit_order) R.
Proof.
  split; [reflexivity|]. split; [exact code_unit_order_consistent|].
  destruct (listJsonFiles_lists_the_json_files code_unit_order
              (mkSys unbound_store mixed_folder [])) as [_ H].
  destruct (H "minutes"%string eq_refl) as (R & HR & _ & _ & Hs).
  exists R. split; [exact HR|]. exact (Hs code_unit_order_consistent).
Defined.

Lemma opened_file_is_listed_witness :
  _dirHandle (this (mkSys unbound_store mixed_folder [])) = Some "minutes"%string /\
  fst (Storage.openFile "agenda" (mkSys unbound_store mixed_folder [])) = Return tt /\
  exists R,
    fst (Storage.listJsonFiles code_unit_order
           (snd (Storage.openFile "agenda" (mkSys unbound_store mixed_folder []))))
    = Return R /\ JStr (json_name "agenda") ∈ R.
Proof.
  assert (fst (Storage.openFile "agenda" (mkSys unbound_store mixed_folder []))
          = Return tt) as Hret by reflexivity.
  split; [reflexivity|]. split; [exact Hret|].
  destruct (opened_file_is_listed code_unit_order
              (mkSys unbound_store mixed_folder []) "minutes" "agenda" eq_refl Hret)
    as (R & HR & Hin & _).
  exists R. split; [exact HR|exact Hin].
Defined.

Lemma singletons_read_back_as_saved_witness :
  _data (this (sys unbound_store [])) = Some doc /\
  fst (Storage.loadDraft (snd (Storage.clearDraft (sys unbound_store []))))
  = Return JNull.
Proof.
  split; [reflexivity|].
  destruct (singletons_read_back_as_saved (sys unbound_store []) doc eq_refl)
    as (_ & [H _] & _).
  exact H.
Defined.

Lemma DB_NAME_is_the_same_for_one_folder_witness :
  Idb.lastIndexOf "/" "index.html" = -1 /\
  Idb.lastIndexOf "/" "print.html" = -1 /\
  Idb.DB_NAME (Some "/minutes/index.html"%string)
  = Idb.DB_NAME (Some "/minutes/print.html"%string).
Proof.
  split; [reflexivity|]. split; [reflexivity|].
  destruct (DB_NAME_is_the_same_for_one_folder "/minutes" "index.html" "print.html"
              eq_refl eq_refl) as (_ & H & _).
  exact H.
Defined.
